(** * bb_net_scheduler: the Drive-to-Sheets ingestion pipeline of [app.py]

    A shallow embedding of the spreadsheet ingestion and reconciliation
    code of [BigBasketScheduler] ([src/app.py]): cell coercion, recovery of
    a table from the worksheet markup, the ordered chain of parsing
    strategies, the cleaning of a table, the ledger gate on source file
    names, the appending of a table to the sheet and the compaction of the
    sheet.

    Conventions of the embedding.
    - Python [str] values are [string]s over single-byte characters; the
      character classes ([isspace], [isalpha], [isdigit], [lower]) are the
      ASCII ones.
    - Python [int] is [Z].  A Python [float] is represented by the exact
      rational denoted by its decimal spelling ([Q], kept reduced); the
      rounding to binary64 is outside the model.
    - The Google services, [pandas.read_excel], [zipfile] and [re] are
      collaborators: their results are inputs of the model, and a call that
      can raise is given a fault oracle. *)

From Stdlib Require Import ZArith QArith Lia Ascii String.
From stdpp Require Import gmap strings list pretty sorting.

Local Open Scope string_scope.

(** ** Python built-ins on strings *)

Module PyStr.

(** [str.isspace] on one ASCII character: TAB, LF, VT, FF, CR, the four
    separators FS GS RS US, and the space. *)
Definition is_space (c : ascii) : bool :=
  let n := nat_of_ascii c in
  ((9 <=? n)%nat && (n <=? 13)%nat) || ((28 <=? n)%nat && (n <=? 32)%nat).

Definition is_digit (c : ascii) : bool :=
  let n := nat_of_ascii c in (48 <=? n)%nat && (n <=? 57)%nat.

Definition is_upper (c : ascii) : bool :=
  let n := nat_of_ascii c in (65 <=? n)%nat && (n <=? 90)%nat.

Definition is_lower (c : ascii) : bool :=
  let n := nat_of_ascii c in (97 <=? n)%nat && (n <=? 122)%nat.

(** [c.isalpha()] *)
Definition is_alpha (c : ascii) : bool := is_upper c || is_lower c.

(** [ord(c)] *)
Definition ord (c : ascii) : Z := Z.of_nat (nat_of_ascii c).

Definition lower_char (c : ascii) : ascii :=
  if is_upper c then ascii_of_nat (nat_of_ascii c + 32) else c.

(** [s.lower()] *)
Fixpoint lower (s : string) : string :=
  match s with
  | EmptyString => EmptyString
  | String c r => String (lower_char c) (lower r)
  end.

(** [s.lstrip()], [s.rstrip()], [s.strip()] *)
Fixpoint lstrip (s : string) : string :=
  match s with
  | EmptyString => EmptyString
  | String c r => if is_space c then lstrip r else s
  end.

Fixpoint rstrip (s : string) : string :=
  match s with
  | EmptyString => EmptyString
  | String c r =>
      match rstrip r with
      | EmptyString => if is_space c then EmptyString else String c EmptyString
      | r' => String c r'
      end
  end.

Definition strip (s : string) : string := rstrip (lstrip s).

(** [s.startswith(p)] *)
Fixpoint startswith (p s : string) : bool :=
  match p, s with
  | EmptyString, _ => true
  | String a p', String b s' => Ascii.eqb a b && startswith p' s'
  | String _ _, EmptyString => false
  end.

(** [p in s] for strings: [p] occurs in [s] as a contiguous run. *)
Fixpoint contains (p s : string) : bool :=
  startswith p s ||
  match s with
  | EmptyString => false
  | String _ r => contains p r
  end.

(** [s.endswith(p)] *)
Definition endswith (p s : string) : bool :=
  startswith (String.rev p) (String.rev s).

(** [s.replace(c, "")] for a one-character [c]. *)
Fixpoint remove_char (c : ascii) (s : string) : string :=
  match s with
  | EmptyString => EmptyString
  | String a r => if Ascii.eqb a c then remove_char c r else String a (remove_char c r)
  end.

(** [''.join([c for c in s if p(c)])] *)
Fixpoint filter_chars (p : ascii -> bool) (s : string) : string :=
  match s with
  | EmptyString => EmptyString
  | String a r => if p a then String a (filter_chars p r) else filter_chars p r
  end.

(** *** Numerals *)

Definition digit_val (c : ascii) : Z := ord c - 48.

(** Value of a run of decimal digits, most significant first. *)
Fixpoint digits_val (acc : Z) (l : list ascii) : Z :=
  match l with
  | [] => acc
  | c :: r => digits_val (acc * 10 + digit_val c) r
  end.

(** A digit part of a Python numeral: digits, with single underscores
    allowed between two digits.  Returns the digits read (underscores
    left out) and the unread rest; [prev] tells whether the character
    before was a digit. *)
Fixpoint scan_digitpart (prev : bool) (l : list ascii) : list ascii * list ascii :=
  match l with
  | [] => ([], [])
  | c :: r =>
      if is_digit c then
        let '(d, r') := scan_digitpart true r in (c :: d, r')
      else if Ascii.eqb c "_" && prev then
        match r with
        | c2 :: _ => if is_digit c2 then scan_digitpart false r else ([], l)
        | [] => ([], l)
        end
      else ([], l)
  end.

(** An optional sign: the factor and the rest. *)
Definition scan_sign (l : list ascii) : Z * list ascii :=
  match l with
  | c :: r =>
      if Ascii.eqb c "-" then ((-1)%Z, r)
      else if Ascii.eqb c "+" then (1%Z, r)
      else (1%Z, l)
  | [] => (1%Z, [])
  end.

(** [int(s)] in base ten; [None] stands for [ValueError]. *)
Definition py_int (s : string) : option Z :=
  let '(sg, l) := scan_sign (list_ascii_of_string (strip s)) in
  match scan_digitpart false l with
  | (c :: d, []) => Some (sg * digits_val 0 (c :: d))%Z
  | _ => None
  end.

Definition is_exp_mark (c : ascii) : bool := Ascii.eqb c "e" || Ascii.eqb c "E".

(** The exponent of a float numeral: absent, or [e]/[E], an optional sign
    and a digit part.  [None] when malformed or when text is left over. *)
Definition scan_exponent (l : list ascii) : option Z :=
  match l with
  | [] => Some 0%Z
  | c :: r =>
      if is_exp_mark c then
        let '(sg, r1) := scan_sign r in
        match scan_digitpart false r1 with
        | (d :: ds, []) => Some (sg * digits_val 0 (d :: ds))%Z
        | _ => None
        end
      else None
  end.

(** The rational [m * 10^e], reduced. *)
Definition decimal_value (m e : Z) : Q :=
  if (0 <=? e)%Z then Qmake (m * 10 ^ e) 1
  else Qred (Qmake m (Z.to_pos (10 ^ (- e)))).

(** [float(s)] for a decimal numeral; [None] stands for [ValueError].
    The spellings [inf], [infinity] and [nan] are left out: they hold
    neither a point nor an [e], and every call of [float] in [app.py] is
    guarded by the presence of one of the two. *)
Definition py_float (s : string) : option Q :=
  let '(sg, l) := scan_sign (list_ascii_of_string (strip s)) in
  let '(ip, r1) := scan_digitpart false l in
  let '(fp, r2) :=
    match r1 with
    | c :: r => if Ascii.eqb c "." then scan_digitpart false r else ([], r1)
    | [] => ([], [])
    end in
  match (ip ++ fp)%list with
  | [] => None
  | ds =>
      match scan_exponent r2 with
      | Some e => Some (decimal_value (sg * digits_val 0 ds) (e - Z.of_nat (length fp)))
      | None => None
      end
  end.

(** [str(n)] for an [int]. *)
Definition str_of_int (z : Z) : string := pretty z.

End PyStr.

(** ** Scalars *)

(** A cell value: an [int], a [float], a [str], or the missing value that
    pandas writes [NaN]. *)
Inductive scalar : Type :=
| SInt (z : Z)
| SFloat (q : Q)
| SText (s : string)
| SNaN.

(** ** CellCoercion: [_clean_cell_value] *)

Module Coercion.
Import PyStr.

(** ['.' in value or 'e' in value.lower()] *)
Definition has_float_mark (value : string) : bool :=
  contains "." value || contains "e" (lower value).

(** [str(value).strip().replace("'", "")] *)
Definition normalise (value : string) : string :=
  remove_char "'" (strip value).

(** [_clean_cell_value] on a value that is not [None]. *)
Definition clean_text (value : string) : scalar :=
  let value := normalise value in
  if has_float_mark value then
    match py_float value with
    | Some q => SFloat q
    | None => SText value
    end
  else
    match py_int value with
    | Some z => SInt z
    | None => SText value
    end.

Definition _clean_cell_value (value : option string) : option scalar :=
  match value with
  | None => None
  | Some v => Some (clean_text v)
  end.

(** *** The cleaning in the words of the specification *)

(** A text is white when it holds white space only; it is trimmed when
    white space neither begins nor ends it. *)
Definition white (s : string) : Prop :=
  Forall (fun c => is_space c = true) (list_ascii_of_string s).

Definition trimmed (s : string) : Prop :=
  (forall c r, s = String c r -> is_space c = false)
  /\ (forall p c, s = p +:+ String c "" -> is_space c = false).

(** The text without its single quotes. *)
Definition without_quotes (s : string) : string :=
  string_of_list_ascii (filter (fun c => c <> "'"%char) (list_ascii_of_string s)).

(** The text holds a decimal point or an exponent marker. *)
Definition float_spelling (s : string) : Prop :=
  exists c, In c (list_ascii_of_string s)
            /\ (c = "."%char \/ c = "e"%char \/ c = "E"%char).

End Coercion.

(** ** Cell references of the worksheet markup *)

Module CellRef.
Import PyStr.

(** The loop [for c in col_letters: col_num = col_num * 26 + (ord(c) - ord('A') + 1)]. *)
Fixpoint col_loop (col_num : Z) (col_letters : list ascii) : Z :=
  match col_letters with
  | [] => col_num
  | c :: r => col_loop (col_num * 26 + (ord c - ord "A" + 1)) r
  end.

(** The head of the loop body over [cells]: a reference is split into
    its letters and its digits and decoded to [(row_num, col_num)].
    [None] is the [ValueError] of [int('')]. *)
Definition decode (cell_ref : string) : option (Z * Z) :=
  let col_letters := filter_chars is_alpha cell_ref in
  match py_int (filter_chars is_digit cell_ref) with
  | None => None
  | Some row_num =>
      Some (row_num, col_loop 0 (list_ascii_of_string col_letters))
  end.

(** The column letters as a number in base 26 with the digits
    [A = 1], ..., [Z = 26], in the words of the specification: the
    letter at [k] places from the right weighs [26 ^ k]. *)
Definition letter_digit (c : ascii) : Z := ord c - 64.

Fixpoint base26 (letters : list ascii) : Z :=
  match letters with
  | [] => 0
  | c :: r => letter_digit c * 26 ^ Z.of_nat (length r) + base26 r
  end.

(** The row digits as a decimal number. *)
Fixpoint decimal (digits : list ascii) : Z :=
  match digits with
  | [] => 0
  | c :: r => digit_val c * 10 ^ Z.of_nat (length r) + decimal r
  end.

End CellRef.

(** ** Calls that can raise *)

(** The result of a call that can raise: [Raise e] carries [str(e)]. *)
Inductive outcome (A : Type) : Type :=
| Return (a : A)
| Raise (e : string).
Arguments Return {A} a.
Arguments Raise {A} e.

(** ** Tables *)

(** [str(float)] is Python's shortest-round-trip rendering of a binary64:
    an interface of the run time, not of this repository. *)
Class FloatStr := float_str : Q -> string.

(** [str(v)] for a cell value. *)
Definition py_str `{FloatStr} (v : scalar) : string :=
  match v with
  | SInt z => PyStr.str_of_int z
  | SFloat q => float_str q
  | SText s => s
  | SNaN => "nan"
  end.

(** Truth value of a cell in a condition ([if h], [any(cell ...)]): zero,
    the empty text are false; [NaN] is a non-zero float. *)
Definition truthy (v : scalar) : bool :=
  match v with
  | SInt z => negb (z =? 0)%Z
  | SFloat q => negb (Qeq_bool q 0)
  | SText s => negb (String.eqb s "")
  | SNaN => true
  end.

(** A [pandas.DataFrame] with the default index: column labels and rows of
    cells aligned by position.  Several columns may bear one label, as in
    a frame built from a header row that repeats a text; what pandas does
    when such a label selects a column ([df[col]]) is written out where
    the code selects. *)
Record DataFrame : Type := mkDataFrame {
  columns : list string;
  rows : list (list scalar)
}.

(** [pd.DataFrame()] *)
Definition empty_frame : DataFrame := mkDataFrame [] [].

(** [df.empty]: some axis has length zero. *)
Definition is_empty (df : DataFrame) : bool :=
  match columns df, rows df with
  | [], _ | _, [] => true
  | _, _ => false
  end.

(** A frame is well formed when every row has one cell per column. *)
Definition well_formed (df : DataFrame) : Prop :=
  Forall (fun r => length r = length (columns df)) (rows df).

(** [f"Column_{i+1}"] *)
Definition column_name (i : nat) : string := "Column_" +:+ pretty (S i).

(** Python indexing of a list by an [int]: negative indices count from the
    end; [None] stands for [IndexError]. *)
Definition py_index {A} (l : list A) (i : Z) : option A :=
  if (0 <=? i)%Z then l !! Z.to_nat i
  else if (0 <=? Z.of_nat (length l) + i)%Z then l !! Z.to_nat (Z.of_nat (length l) + i)
  else None.

(** The slice [l[i:]]. *)
Definition py_slice_from {A} (l : list A) (i : Z) : list A :=
  if (0 <=? i)%Z then drop (Z.to_nat i) l
  else drop (Z.to_nat (Z.max 0 (Z.of_nat (length l) + i))) l.

(** ** ArchiveTableRecovery: [_try_raw_xml_extraction] *)

Module Recovery.
Import PyStr Coercion.

(** One match of [cell_pattern]: the groups
    [(cell_ref, cell_type, v_value, is_value)], an unmatched group being
    the empty text. *)
Record cell_match : Type := mkCell {
  cell_ref : string;
  cell_type : string;
  v_value : string;
  is_value : string
}.

(** What [zipfile] and [re.findall] hand to the function: the texts found
    in [xl/sharedStrings.xml] (none when the part is absent or cannot be
    read) and the cell matches of the first worksheet part ([None] when
    the archive has no worksheet part). *)
Record archive : Type := mkArchive {
  strings : list string;
  worksheet : option (list cell_match)
}.

(** [for i, string_val in enumerate(strings): shared_strings[str(i)] = string_val.strip()] *)
Fixpoint shared_strings_from (i : nat) (strings : list string) : gmap string string :=
  match strings with
  | [] => ∅
  | string_val :: r => <[pretty i := strip string_val]> (shared_strings_from (S i) r)
  end.

(** The [if is_value: ... elif ... else] that resolves the text of a cell. *)
Definition resolve (shared_strings : gmap string string) (c : cell_match) : string :=
  if negb (String.eqb (is_value c) "") then strip (is_value c)
  else if String.eqb (cell_type c) "s" && negb (String.eqb (v_value c) "") then
    default (v_value c) (shared_strings !! v_value c)
  else if negb (String.eqb (v_value c) "") then strip (v_value c)
  else "".

(** State of the loop over [cells]. *)
Record scan : Type := mkScan {
  cell_data : gmap (Z * Z) scalar;
  max_row : Z;
  max_col : Z
}.

(** The loop over [cells]; [None] when a reference has no digits and
    [int] raises. *)
Fixpoint scan_cells (shared_strings : gmap string string)
    (cells : list cell_match) (st : scan) : option scan :=
  match cells with
  | [] => Some st
  | c :: r =>
      match CellRef.decode (cell_ref c) with
      | None => None
      | Some (row_num, col_num) =>
          scan_cells shared_strings r
            (mkScan (<[(row_num, col_num) := clean_text (resolve shared_strings c)]> (cell_data st))
                    (Z.max (max_row st) row_num)
                    (Z.max (max_col st) col_num))
      end
  end.

(** The dense grid: rows [1..max_row], columns [1..max_col], unseen cells
    filled with the empty text, rows without a true cell left out. *)
Definition dense_rows (st : scan) : list (list scalar) :=
  filter (fun row_data => existsb truthy row_data = true)
    (map (fun row => map (fun col => default (SText "") (cell_data st !! (row, col)))
                         (seqZ 1 (max_col st)))
         (seqZ 1 (max_row st))).

(** [[str(h) if h else f"Column_{i+1}" for i, h in enumerate(row)]] *)
Definition header_names `{FloatStr} (row : list scalar) : list string :=
  imap (fun i h => if truthy h then py_str h else column_name i) row.

(** Lines 862-873: the header-row selector applied to the grid.  [None]
    stands for the [IndexError] of [data[header_row]]. *)
Definition apply_header `{FloatStr} (data : list (list scalar)) (header_row : Z)
    : option DataFrame :=
  if (Z.of_nat (length data) <? Z.max 1 (header_row + 2))%Z then Some empty_frame
  else if (header_row =? -1)%Z then
    match data with
    | first :: _ => Some (mkDataFrame (map column_name (seq 0 (length first))) data)
    | [] => None
    end
  else if (header_row <? Z.of_nat (length data))%Z then
    match py_index data header_row with
    | Some header => Some (mkDataFrame (header_names header) (py_slice_from data (header_row + 1)))
    | None => None
    end
  else Some empty_frame.

(** [_try_raw_xml_extraction]; [zip] is [None] when opening or reading the
    archive raises, which the outer handler turns into an empty frame. *)
Definition _try_raw_xml_extraction `{FloatStr} (zip : option archive) (header_row : Z)
    : DataFrame :=
  match zip with
  | None => empty_frame
  | Some a =>
      let shared_strings := shared_strings_from 0 (strings a) in
      match worksheet a with
      | None => empty_frame
      | Some [] => empty_frame
      | Some cells =>
          match scan_cells shared_strings cells (mkScan ∅ 0 0) with
          | None => empty_frame
          | Some st =>
              if decide (cell_data st = ∅) then empty_frame
              else default empty_frame (apply_header (dense_rows st) header_row)
          end
      end
  end.

(** The header in the words of the specification: the cells of the row
    as texts, a blank cell getting the synthesized name of its column. *)
Definition is_blank_cell (v : scalar) : bool :=
  match v with
  | SText s => String.eqb s ""
  | _ => false
  end.

Definition spec_header_names `{FloatStr} (row : list scalar) : list string :=
  imap (fun i h => if is_blank_cell h then column_name i else py_str h) row.

End Recovery.

(** ** Dropping duplicates, first occurrence kept *)

(** [drop_duplicates(keep="first")] over a list, rows being compared through
    [key]; [seen] holds the keys met so far. *)
Fixpoint keep_first {A K : Type} `{EqDecision K} (key : A -> K) (seen : list K)
    (l : list A) : list A :=
  match l with
  | [] => []
  | x :: r =>
      if decide (key x ∈ seen) then keep_first key seen r
      else x :: keep_first key (key x :: seen) r
  end.

(** The first row of [l] with the key [k]. *)
Definition first_with {A K : Type} `{EqDecision K} (key : A -> K) (k : K) (l : list A)
    : option A :=
  snd <$> list_find (fun x => key x = k) l.


(** ** TableCleaner: [_clean_dataframe] *)

Module Cleaner.
Import PyStr.

(** The cells of column [j]; a row too short to have the cell counts as
    holding the missing value. *)
Definition column_cells (j : nat) (df : DataFrame) : list scalar :=
  map (fun r => default SNaN (r !! j)) (rows df).

(** [select_dtypes(include=['object'])]: pandas gives a column the dtype
    [object] when it holds a [str]; columns of numbers and missing values
    get a numeric dtype. *)
Definition is_text (v : scalar) : bool :=
  match v with SText _ => true | _ => false end.

Definition is_object_column (df : DataFrame) (j : nat) : bool :=
  existsb is_text (column_cells j df).

(** One cell of [df[col].astype(str).str.strip().str.replace("'", "", regex=False)]. *)
Definition clean_str `{FloatStr} (v : scalar) : scalar :=
  SText (remove_char "'" (strip (py_str v))).

(** The loop over [string_columns]. *)
Definition clean_strings `{FloatStr} (df : DataFrame) : DataFrame :=
  mkDataFrame (columns df)
    (map (imap (fun j v => if is_object_column df j then clean_str v else v)) (rows df)).

(** [isna()] on a cell. *)
Definition isna (v : scalar) : bool :=
  match v with SNaN => true | _ => false end.

(** The negated [mask] on the cell of the second column: the row is
    dropped when this holds. *)
Definition blank_key `{FloatStr} (v : scalar) : bool :=
  isna v
  || String.eqb (strip (py_str v)) ""
  || String.eqb (strip (py_str v)) "nan".

Definition second_cell (r : list scalar) : scalar := default SNaN (r !! 1).

(** [df = df[mask]] *)
Definition drop_blank_keys `{FloatStr} (df : DataFrame) : DataFrame :=
  mkDataFrame (columns df)
    (filter (fun r => blank_key (second_cell r) = false) (rows df)).

(** How [drop_duplicates] identifies a cell: numbers by their value
    ([1] and [1.0] are the same), texts by their characters, the missing
    value with itself. *)
Definition cell_key (v : scalar) : scalar :=
  match v with
  | SFloat q =>
      let r := Qred q in
      if (Zpos (Qden r) =? 1)%Z then SInt (Qnum r) else SFloat r
  | _ => v
  end.

#[export] Instance Q_eq_dec : EqDecision Q.
Proof. solve_decision. Defined.

#[export] Instance scalar_eq_dec : EqDecision scalar.
Proof. solve_decision. Defined.

(** [df.drop_duplicates()]: an empty frame is returned as it is. *)
Definition drop_duplicates (df : DataFrame) : DataFrame :=
  if is_empty df then df
  else mkDataFrame (columns df) (keep_first (map cell_key) [] (rows df)).

(** The frame that [_clean_dataframe] returns, when it returns. *)
Definition _clean_dataframe `{FloatStr} (df : DataFrame) : DataFrame :=
  if is_empty df then df
  else
    let df := clean_strings df in
    let df :=
      if (2 <=? length (columns df))%nat then drop_blank_keys df else df in
    drop_duplicates df.

(** *** Labels borne by several columns *)

(** [df[col]] is a series when one column bears the label [col] and a
    frame when several do.  A frame has no accessor [.str]: reaching for
    it raises [AttributeError]. *)
Definition repeated (col : string) (df : DataFrame) : bool :=
  (1 <? length (filter (fun l => l = col) (columns df)))%nat.

Definition attribute_error : string := "'DataFrame' object has no attribute 'str'".

(** [df.select_dtypes(include=['object']).columns]: the labels of the
    columns of dtype [object], one for each such column. *)
Definition string_columns (df : DataFrame) : list string :=
  omap id (imap (fun j col => if is_object_column df j then Some col else None)
                (columns df)).

(** The loop over [string_columns] as it runs: it raises at the first
    label that several columns bear. *)
Definition clean_strings_run `{FloatStr} (df : DataFrame) : outcome DataFrame :=
  if existsb (fun col => repeated col df) (string_columns df)
  then Raise attribute_error
  else Return (clean_strings df).

(** The block [if len(df.columns) >= 2] as it runs: the mask reaches
    for [df[second_col].astype(str).str]. *)
Definition drop_blank_keys_run `{FloatStr} (df : DataFrame) : outcome DataFrame :=
  if (2 <=? length (columns df))%nat then
    match columns df !! 1%nat with
    | Some second_col =>
        if repeated second_col df then Raise attribute_error
        else Return (drop_blank_keys df)
    | None => Return df
    end
  else Return df.

(** [_clean_dataframe] as it runs, with the exceptions that leave it. *)
Definition _clean_dataframe_run `{FloatStr} (df : DataFrame) : outcome DataFrame :=
  if is_empty df then Return df
  else
    match clean_strings_run df with
    | Raise e => Raise e
    | Return df =>
        match drop_blank_keys_run df with
        | Raise e => Raise e
        | Return df => Return (drop_duplicates df)
        end
    end.

End Cleaner.

(** ** TableExtractor: [_read_excel_file_robust] *)

Module Extractor.
Import PyStr.

Inductive engine : Type := openpyxl | xlrd.

(** The parsers the function calls on the downloaded bytes. *)
Class Parsers (bytes : Type) := {
  (** [pd.read_excel(file_stream, engine=..., header=...)], the header
      being [None] or a row index *)
  read_excel : bytes -> engine -> option Z -> outcome DataFrame;
  (** [zipfile.ZipFile(file_stream)] with the [re.findall] scans of its
      parts, [None] when one of them raises *)
  open_archive : bytes -> option Recovery.archive
}.

Section Chain.
Context {bytes : Type} `{Parsers bytes} `{FloatStr}.

(** [header=None if header_row == -1 else header_row] *)
Definition header_arg (header_row : Z) : option Z :=
  if (header_row =? -1)%Z then None else Some header_row.

(** One [try: ... except Exception: pass] block around a structured
    parser: the cleaned frame when the parser returns a frame that is
    not empty and the cleaning returns; nothing when the frame is empty,
    and when the parser or the cleaning raises. *)
Definition try_engine (file_stream : bytes) (e : engine) (header_row : Z)
    : option DataFrame :=
  match read_excel file_stream e (header_arg header_row) with
  | Return df =>
      if negb (is_empty df) then
        match Cleaner._clean_dataframe_run df with
        | Return df => Some df
        | Raise _ => None
        end
      else None
  | Raise _ => None
  end.

(** The body of the outer [try] of [_read_excel_file_robust] once the
    bytes are there.  The cleaning of the recovered frame stands in no
    block of its own: when it raises, the exception leaves the body. *)
Definition read_robust (file_stream : bytes) (filename : string) (header_row : Z)
    : outcome DataFrame :=
  match try_engine file_stream openpyxl header_row with
  | Some df => Return df
  | None =>
      match
        (if endswith ".xls" (lower filename)
         then try_engine file_stream xlrd header_row else None)
      with
      | Some df => Return df
      | None =>
          let df := Recovery._try_raw_xml_extraction (open_archive file_stream) header_row in
          if negb (is_empty df) then Cleaner._clean_dataframe_run df
          else Return empty_frame
      end
  end.

(** [_read_excel_file_robust]: the download may raise, and so may the
    body; the outer handler then returns an empty frame. *)
Definition _read_excel_file_robust (download : outcome bytes) (filename : string)
    (header_row : Z) : DataFrame :=
  match download with
  | Return file_stream =>
      match read_robust file_stream filename header_row with
      | Return df => df
      | Raise _ => empty_frame
      end
  | Raise _ => empty_frame
  end.

(** *** The chain in the words of the specification *)

(** A strategy yields a table, the empty one on failure. *)
Definition modern_strategy (b : bytes) (header_row : Z) : DataFrame :=
  match read_excel b openpyxl (header_arg header_row) with
  | Return df => df
  | Raise _ => empty_frame
  end.

Definition legacy_strategy (b : bytes) (header_row : Z) : DataFrame :=
  match read_excel b xlrd (header_arg header_row) with
  | Return df => df
  | Raise _ => empty_frame
  end.

Definition archive_strategy (b : bytes) (header_row : Z) : DataFrame :=
  Recovery._try_raw_xml_extraction (open_archive b) header_row.

(** The strategies in their fixed order; the legacy one only for a
    file name with the legacy extension. *)
Definition strategies (filename : string) : list (bytes -> Z -> DataFrame) :=
  [modern_strategy]
  ++ (if endswith ".xls" (lower filename) then [legacy_strategy] else [])
  ++ [archive_strategy].

(** The first table that is not empty, the empty table when there is none. *)
Fixpoint first_non_empty (l : list DataFrame) : DataFrame :=
  match l with
  | [] => empty_frame
  | df :: r => if is_empty df then first_non_empty r else df
  end.

Definition TableExtractor (b : bytes) (filename : string) (header_row : Z) : DataFrame :=
  first_non_empty (map (fun strategy => strategy b header_row) (strategies filename)).

End Chain.

End Extractor.

(** ** The destination sheet and the run state *)

Module Sheets.

(** The grid of a sheet, as texts: the API is read with its default
    rendering, which reports every cell as its displayed text. *)
Definition grid : Type := list (list string).

(** How the sheet displays a number written to it with
    [valueInputOption="RAW"]; a text is stored as it is. *)
Class SheetFormat := {
  format_int : Z -> string;
  format_float : Q -> string
}.

Definition stored `{SheetFormat} (v : scalar) : string :=
  match v with
  | SInt z => format_int z
  | SFloat q => format_float q
  | SText s => s
  | SNaN => ""
  end.

(** [values().get] leaves out the blank cells that end a row and the
    blank rows that end the range. *)
Definition is_blank (s : string) : bool := String.eqb s "".

Fixpoint drop_end {A} (p : A -> bool) (l : list A) : list A :=
  match l with
  | [] => []
  | x :: r =>
      match drop_end p r with
      | [] => if p x then [] else [x]
      | r' => x :: r'
      end
  end.

Definition is_nil {A} (l : list A) : bool :=
  match l with [] => true | _ => false end.

Definition reported (g : grid) : grid :=
  drop_end is_nil (map (drop_end is_blank) g).

(** The ranges the code reads: [A1:ZZ] (702 columns), [1:1], [A1], [A:A]. *)
Definition get_A1_ZZ (g : grid) : grid := reported (map (take 702) g).
Definition get_row_1 (g : grid) : grid := reported (take 1 g).
Definition get_A1 (g : grid) : grid := reported (map (take 1) (take 1 g)).
Definition get_A_A (g : grid) : grid := reported (map (take 1) g).

(** [values().update] at the top left corner: the cells given replace
    those in place, the others stay. *)
Fixpoint overlay_row (new old : list string) : list string :=
  match new, old with
  | [], _ => old
  | n :: ns, [] => n :: ns
  | n :: ns, _ :: os => n :: overlay_row ns os
  end.

Fixpoint overlay (new old : grid) : grid :=
  match new, old with
  | [], _ => old
  | n :: ns, [] => n :: ns
  | n :: ns, o :: os => overlay_row n o :: overlay ns os
  end.

(** [values().append]: the rows are put after the table already there. *)
Definition appended (new old : grid) : grid := (old ++ new)%list.

(** The calls of the Sheets service in the ingestion code, by place;
    the calls inside the loop over files carry the index of the file. *)
Inductive call : Type :=
| EnsureGet | EnsureUpdate
| LedgerGet
| CheckGet
| AppendGet (i : nat) | AppendWrite (i : nat)
| CompactGet | CompactClear | CompactUpdate.

(** Which calls raise in a run, and with which message. *)
Class Faults := fault : call -> option string.

(** The counters of [execution_stats] that the workflow touches. *)
Record execution_stats : Type := mkStats {
  files_found : nat;
  files_processed : nat;
  files_skipped : nat;
  files_failed : nat;
  duplicates_removed : nat;
  errors : list string
}.

(** What a run reads and changes: the sheet, the counters, and the ids of
    the files fetched from the drive, latest first. *)
Record world : Type := mkWorld {
  sheet : grid;
  stats : execution_stats;
  fetched : list string
}.

(** *** State and exceptions *)

Definition M (A : Type) : Type := world -> outcome A * world.

Definition ret {A} (a : A) : M A := fun w => (Return a, w).
Definition raise {A} (e : string) : M A := fun w => (Raise e, w).

Definition bind {A B} (m : M A) (k : A -> M B) : M B :=
  fun w =>
    match m w with
    | (Return a, w') => k a w'
    | (Raise e, w') => (Raise e, w')
    end.

(** [try: m except Exception as e: h(e)]; what [m] changed before it
    raised stays changed. *)
Definition catch {A} (m : M A) (h : string -> M A) : M A :=
  fun w =>
    match m w with
    | (Return a, w') => (Return a, w')
    | (Raise e, w') => h e w'
    end.

Definition set_sheet (g : grid) (w : world) : world :=
  mkWorld g (stats w) (fetched w).

Definition set_stats (s : execution_stats) (w : world) : world :=
  mkWorld (sheet w) s (fetched w).

(** A read and a write through the service, at the place [c]. *)
Definition api_get `{Faults} (c : call) (range : grid -> grid) : M grid :=
  fun w =>
    match fault c with
    | Some e => (Raise e, w)
    | None => (Return (range (sheet w)), w)
    end.

Definition api_put `{Faults} (c : call) (change : grid -> grid) : M unit :=
  fun w =>
    match fault c with
    | Some e => (Raise e, w)
    | None => (Return tt, set_sheet (change (sheet w)) w)
    end.

Definition modify_stats (f : execution_stats -> execution_stats) : M unit :=
  fun w => (Return tt, set_stats (f (stats w)) w).

End Sheets.

Declare Scope run_scope.
Delimit Scope run_scope with run.
Notation "'do' x <- m ; k" := (Sheets.bind m (fun x => k))
  (at level 10, x name, m at level 100, k at level 200) : run_scope.
Notation "'do_' m ; k" := (Sheets.bind m (fun _ => k))
  (at level 10, m at level 100, k at level 200) : run_scope.

(** ** IngestionLedger: the tracking column *)

Module Ledger.
Import PyStr Sheets.

(** [header and 'source_file_name' in str(header).lower()] *)
Definition is_tracking_header (header : string) : bool :=
  negb (is_blank header) && contains "source_file_name" (lower header).

(** The loop that looks for [source_file_col_idx]: the first header that
    qualifies. *)
Definition tracking_index (headers : list string) : option nat :=
  fst <$> list_find (fun header => is_tracking_header header = true) headers.

(** The loop over [values[1:]] that fills [source_files]. *)
Fixpoint collect (idx : nat) (data : grid) : gset string :=
  match data with
  | [] => ∅
  | row :: r =>
      match row !! idx with
      | Some cell =>
          let source_file := strip cell in
          if is_blank source_file then collect idx r
          else {[ source_file ]} ∪ collect idx r
      | None => collect idx r
      end
  end.

(** The body of [_get_source_file_names_from_sheet] on the values read. *)
Definition source_files (values : grid) : gset string :=
  match values with
  | [] => ∅
  | headers :: data =>
      match tracking_index headers with
      | None => ∅
      | Some idx => collect idx data
      end
  end.

Section Calls.
Context `{Faults}.
Local Open Scope run_scope.

Definition _get_source_file_names_from_sheet : M (gset string) :=
  catch
    (do values <- api_get LedgerGet get_A1_ZZ;
     ret (source_files values))
    (fun _ => ret ∅).

Definition _ensure_source_file_name_column : M bool :=
  catch
    (do values <- api_get EnsureGet get_row_1;
     match values with
     | [] => ret true
     | headers :: _ =>
         if existsb is_tracking_header headers then ret true
         else
           do_ api_put EnsureUpdate (overlay [(headers ++ ["source_file_name"])%list]);
           ret true
     end)
    (fun _ => ret false).

Definition _check_sheet_headers : M bool :=
  catch
    (do values <- api_get CheckGet get_A1;
     ret (negb (is_nil values)))
    (fun _ => ret false).

End Calls.

End Ledger.

(** ** MergeAppender: [_append_to_sheet] *)

Module Appender.
Import Sheets.

(** The inner [process_value]: the missing value becomes the empty text,
    numbers pass, a text is its own [str]. *)
Definition process_value (v : scalar) : scalar :=
  match v with
  | SNaN => SText ""
  | _ => v
  end.

(** The [values] sent: the column labels when asked for, then the rows. *)
Definition payload (df : DataFrame) (append_headers : bool) : list (list scalar) :=
  ((if append_headers then [map SText (columns df)] else [])
   ++ map (map process_value) (rows df))%list.

Section Calls.
Context `{Faults} `{SheetFormat}.
Local Open Scope run_scope.

(** [_append_to_sheet] for the file of index [i] in the loop; the
    handler logs and raises the exception again. *)
Definition _append_to_sheet (i : nat) (df : DataFrame) (append_headers : bool) : M unit :=
  catch
    (let values := payload df append_headers in
     if is_nil values then ret tt
     else
       do existing_rows <- api_get (AppendGet i) get_A_A;
       let start_row := if is_nil existing_rows then 1 else S (length existing_rows) in
       api_put (AppendWrite i) (appended (map (map stored) values)))
    (fun e => raise e).

End Calls.

End Appender.

(** ** CompactionPass: [_remove_duplicates_from_sheet] *)

Module Compaction.
Import PyStr Sheets.
Import Cleaner.

(** [row.extend([''] * (max_len - len(row)))] *)
Definition pad (max_len : nat) (row : list string) : list string :=
  (row ++ replicate (max_len - length row) "")%list.

(** [max(len(row) for row in values)] *)
Definition widest (values : grid) : nat := foldr Nat.max 0 (map length values).

(** [[values[0][i] if values[0][i] else f"Column_{i+1}" for i in range(max_len)]] *)
Definition rebuild_headers (first : list string) : list string :=
  imap (fun i h => if is_blank h then column_name i else h) first.

(** [pd.DataFrame(rows, columns=headers)] over the padded values. *)
Definition load (values : grid) : DataFrame :=
  match map (pad (widest values)) values with
  | [] => empty_frame
  | first :: data => mkDataFrame (rebuild_headers first) (map (map SText) data)
  end.

Definition key_columns : list string := ["Skucode"; "PoNo"].

(** The cells of a row under the labels of [subset], in column order:
    what [drop_duplicates(subset=...)] compares. *)
Fixpoint subset_key (subset labels : list string) (row : list scalar) : list scalar :=
  match labels, row with
  | label :: ls, v :: vs =>
      if decide (label ∈ subset) then v :: subset_key subset ls vs
      else subset_key subset ls vs
  | _, _ => []
  end.

(** [if "Skucode" in df.columns and "PoNo" in df.columns:
        df = df.drop_duplicates(subset=["Skucode", "PoNo"], keep="first")] *)
Definition has_key_columns (df : DataFrame) : bool :=
  bool_decide ("Skucode" ∈ columns df) && bool_decide ("PoNo" ∈ columns df).

Definition drop_duplicate_keys (df : DataFrame) : DataFrame :=
  if has_key_columns df then
    mkDataFrame (columns df)
      (keep_first (subset_key key_columns (columns df)) [] (rows df))
  else df.

(** [df.replace('', pd.NA, inplace=True)] and [df.fillna('', inplace=True)] *)
Definition blank_to_na (v : scalar) : scalar :=
  match v with
  | SText s => if is_blank s then SNaN else v
  | _ => v
  end.

Definition na_to_blank (v : scalar) : scalar :=
  match v with
  | SNaN => SText ""
  | _ => v
  end.

Definition map_cells (f : scalar -> scalar) (df : DataFrame) : DataFrame :=
  mkDataFrame (columns df) (map (map f) (rows df)).

(** [df.dropna(how='all', inplace=True)]: a row goes when every cell of it
    is missing. *)
Definition dropna_rows (df : DataFrame) : DataFrame :=
  mkDataFrame (columns df) (filter (fun r => forallb isna r = false) (rows df)).

(** [df.dropna(how='all', axis=1, inplace=True)]: a column stays when
    some row has a value in it. *)
Definition keeps_column (df : DataFrame) (j : nat) : bool :=
  existsb (fun v => negb (isna v)) (column_cells j df).

Definition select {A} (keep : nat -> bool) (l : list A) : list A :=
  omap id (imap (fun j x => if keep j then Some x else None) l).

Definition dropna_columns (df : DataFrame) : DataFrame :=
  mkDataFrame (select (keeps_column df) (columns df))
              (map (select (keeps_column df)) (rows df)).

(** The text of the cell of a row under the first column labelled [label]. *)
Definition text_of (v : scalar) : string :=
  match v with SText s => s | _ => "" end.

Definition cell_under (label : string) (labels : list string) (row : list scalar) : string :=
  match list_find (fun l => l = label) labels with
  | Some (j, _) => text_of (default SNaN (row !! j))
  | None => ""
  end.

(** The order of [sort_values(by="PoNo", ascending=True)] on a column of
    texts: character by character. *)
Definition by_text (key : list scalar -> string) (r1 r2 : list scalar) : Prop :=
  String.leb (key r1) (key r2) = true.

#[export] Instance by_text_dec key r1 r2 : Decision (by_text key r1 r2).
Proof. unfold by_text. apply _. Defined.

(** [if "PoNo" in df.columns: df = df.sort_values(by="PoNo", ascending=True)];
    pandas refuses to sort by a label that several columns carry.  Rows
    with the same key are left in their order. *)
Definition sort_by_PoNo (df : DataFrame) : outcome DataFrame :=
  if bool_decide ("PoNo" ∈ columns df) then
    if bool_decide (length (filter (fun l => l = "PoNo") (columns df)) = 1%nat) then
      Return (mkDataFrame (columns df)
                (merge_sort (by_text (cell_under "PoNo" (columns df))) (rows df)))
    else Raise "The column label 'PoNo' is not unique."
  else Return df.

(** The inner [process_value] of the compaction. *)
Definition process_value (v : scalar) : scalar :=
  match v with
  | SNaN => SText ""
  | SText s =>
      if is_blank s then SText ""
      else if Coercion.has_float_mark s then
        match py_float s with
        | Some q => SFloat q
        | None => SText s
        end
      else
        match py_int s with
        | Some z => SInt z
        | None => SText s
        end
  | _ => v
  end.

(** The [values] written back: the labels, then the rows. *)
Definition serialise (df : DataFrame) : list (list scalar) :=
  map SText (columns df) :: map (map process_value) (rows df).

(** The steps between the read and the rewrite. *)
Definition prune (df : DataFrame) : DataFrame :=
  map_cells na_to_blank (dropna_columns (dropna_rows (map_cells blank_to_na df))).

Record rewrite : Type := mkRewrite {
  written : list (list scalar);
  removed_dup : nat;
  removed_clean : nat
}.

Definition compact (values : grid) : outcome rewrite :=
  let df := load values in
  let before := length (rows df) in
  let df := drop_duplicate_keys df in
  let after_dup := length (rows df) in
  let df := prune df in
  let after_clean := length (rows df) in
  match sort_by_PoNo df with
  | Raise e => Raise e
  | Return df =>
      Return (mkRewrite (serialise df) (before - after_dup) (after_dup - after_clean))
  end.

Section Calls.
Context `{Faults} `{SheetFormat}.
Local Open Scope run_scope.

(** [_remove_duplicates_from_sheet]: whatever raises inside is logged
    and the function returns [0]. *)
Definition _remove_duplicates_from_sheet : M nat :=
  catch
    (do values <- api_get CompactGet get_A1_ZZ;
     if is_nil values then ret 0%nat
     else
       match compact values with
       | Raise e => raise e
       | Return r =>
           do_ api_put CompactClear (fun _ => []);
           do_ api_put CompactUpdate (overlay (map (map stored) (written r)));
           ret (removed_dup r)
       end)
    (fun _ => ret 0%nat).

End Calls.

(** A row is entirely blank when, blanks taken for missing values,
    every cell of it is missing. *)
Definition entirely_blank (r : list scalar) : bool :=
  forallb isna (map blank_to_na r).

(** The pruning in the words of the specification: a cell is blank
    when it holds the empty text or no value, a column when every row
    has a blank cell in it. *)
Definition blank_cell (v : scalar) : bool :=
  match v with
  | SText s => is_blank s
  | SNaN => true
  | _ => false
  end.

Definition blank_column (df : DataFrame) (j : nat) : bool :=
  forallb (fun r => blank_cell (default SNaN (r !! j))) (rows df).

(** How many columns bear a label. *)
Definition bearing (label : string) (labels : list string) : nat :=
  length (filter (fun l => l = label) labels).

(** What the pruning and the serialisation make of a row of [df] that
    stays: its cells under the columns kept, blanks for the missing
    values, each re-typed by [process_value]. *)
Definition rewritten (df : DataFrame) (r : list scalar) : list scalar :=
  map process_value
    (map na_to_blank
       (select (keeps_column (dropna_rows (map_cells blank_to_na df)))
               (map blank_to_na r))).

End Compaction.

(** ** The batch: [process_excel_workflow] *)

Module Workflow.
Import PyStr Sheets.

(** An entry of the listing of the drive folder. *)
Record file : Type := mkFile {
  id : string;
  name : string
}.

(** [MediaIoBaseDownload] of a file of the drive. *)
Class Drive (bytes : Type) := download : string -> outcome bytes.

(** The locals of the loop over [files_to_process]. *)
Record counters : Type := mkCounters {
  processed_count : nat;
  failed_count : nat;
  is_first_file : bool;
  sheet_has_headers : bool
}.

(** What the workflow returns. *)
Record report : Type := mkReport {
  success : bool;
  processed : nat
}.

(** [df['source_file_name'] = name]: the cells of the columns carrying
    the label are overwritten; without such a column one is added at the
    end. *)
Definition tag (label value : string) (df : DataFrame) : DataFrame :=
  if bool_decide (label ∈ columns df) then
    mkDataFrame (columns df)
      (map (fun r => imap (fun j v =>
              if bool_decide (columns df !! j = Some label) then SText value else v) r)
           (rows df))
  else
    mkDataFrame (columns df ++ [label])%list
                (map (fun r => r ++ [SText value])%list (rows df)).

(** The loop that splits [excel_files] by the ledger: the files to
    process, and how many were skipped. *)
Fixpoint gate (processed_source_files : gset string) (excel_files : list file)
    : list file * nat :=
  match excel_files with
  | [] => ([], 0%nat)
  | f :: r =>
      let '(files_to_process, skipped) := gate processed_source_files r in
      if bool_decide (name f ∈ processed_source_files)
      then (files_to_process, S skipped)
      else (f :: files_to_process, skipped)
  end.

Section Run.
Context {bytes : Type} `{Extractor.Parsers bytes} `{Drive bytes}
        `{FloatStr} `{SheetFormat} `{Faults}.
Variable header_row : Z.
Local Open Scope run_scope.

(** [_read_excel_file_robust] as a step of the run: the file is
    fetched, which the world records, and a frame comes back whatever
    happens. *)
Definition read_file (f : file) : M DataFrame :=
  fun w =>
    (Return (Extractor._read_excel_file_robust (download (id f)) (name f) header_row),
     mkWorld (sheet w) (stats w) (id f :: fetched w)).

Definition add_error (msg : string) : M unit :=
  modify_stats (fun s =>
    mkStats (files_found s) (files_processed s) (files_skipped s) (files_failed s)
            (duplicates_removed s) (errors s ++ [msg])%list).

(** The body of the loop for the file of index [i], with its
    [try ... except Exception]. *)
Definition merge_file (i : nat) (f : file) (c : counters) : M counters :=
  catch
    (do df <- read_file f;
     if is_empty df then
       ret (mkCounters (processed_count c) (S (failed_count c))
                       (is_first_file c) (sheet_has_headers c))
     else
       let df := tag "source_file_name" (name f) df in
       let append_headers := is_first_file c && negb (sheet_has_headers c) in
       do_ Appender._append_to_sheet i df append_headers;
       ret (mkCounters (S (processed_count c)) (failed_count c) false true))
    (fun e =>
       do_ add_error ("Failed to process Excel file " +:+ name f +:+ ": " +:+ e);
       ret (mkCounters (processed_count c) (S (failed_count c))
                       (is_first_file c) (sheet_has_headers c))).

Fixpoint merge_loop (i : nat) (files_to_process : list file) (c : counters)
    : M counters :=
  match files_to_process with
  | [] => ret c
  | f :: r =>
      do c' <- merge_file i f c;
      merge_loop (S i) r c'
  end.

(** From [processed_count = 0] to the end of the [try] block. *)
Definition merge_and_compact (files_to_process : list file) : M report :=
  do has_headers <- Ledger._check_sheet_headers;
  do c <- merge_loop 0 files_to_process (mkCounters 0 0 true has_headers);
  do_ modify_stats (fun s =>
    mkStats (files_found s) (processed_count c) (files_skipped s) (failed_count c)
            (duplicates_removed s) (errors s));
  do_ (if (0 <? processed_count c)%nat then
         do dups <- Compaction._remove_duplicates_from_sheet;
         modify_stats (fun s =>
           mkStats (files_found s) (files_processed s) (files_skipped s) (files_failed s)
                   dups (errors s))
       else ret tt);
  ret (mkReport true (processed_count c)).

(** [process_excel_workflow] on the listing [excel_files] of the folder. *)
Definition process_excel_workflow (excel_files : list file) : M report :=
  catch
    (do_ modify_stats (fun s =>
       mkStats (length excel_files) (files_processed s) (files_skipped s) (files_failed s)
               (duplicates_removed s) (errors s));
     if is_nil excel_files then ret (mkReport true 0)
     else
       do _ensured <- Ledger._ensure_source_file_name_column;
       do processed_source_files <- Ledger._get_source_file_names_from_sheet;
       let '(files_to_process, skipped) := gate processed_source_files excel_files in
       do_ modify_stats (fun s =>
         mkStats (files_found s) (files_processed s) (files_skipped s + skipped)
                 (files_failed s) (duplicates_removed s) (errors s));
       merge_and_compact files_to_process)
    (fun e =>
       do_ add_error ("Excel workflow failed: " +:+ e);
       ret (mkReport false 0)).

(** The world as [_ensure_source_file_name_column] leaves it. *)
Definition ensured (w : world) : world := snd (Ledger._ensure_source_file_name_column w).

(** The table extracted from a file. *)
Definition extracted (f : file) : DataFrame :=
  Extractor._read_excel_file_robust (download (id f)) (name f) header_row.

(** The counters after a file that failed. *)
Definition failed_one (c : counters) : counters :=
  mkCounters (processed_count c) (S (failed_count c))
             (is_first_file c) (sheet_has_headers c).

(** The values sent for a file. *)
Definition sent (f : file) (c : counters) : list (list scalar) :=
  Appender.payload (tag "source_file_name" (name f) (extracted f))
          (is_first_file c && negb (sheet_has_headers c)).

(** The world when the listing has been counted and the tracking column
    ensured. *)
Definition prepared (excel_files : list file) (w : world) : world :=
  ensured
    (mkWorld (sheet w)
       (mkStats (length excel_files) (files_processed (stats w))
                (files_skipped (stats w)) (files_failed (stats w))
                (duplicates_removed (stats w)) (errors (stats w)))
       (fetched w)).

(** The ledger that the run of [process_excel_workflow] consults. *)
Definition consulted (excel_files : list file) (w : world) : gset string :=
  match fault LedgerGet with
  | Some _ => ∅
  | None => Ledger.source_files (get_A1_ZZ (sheet (prepared excel_files w)))
  end.

(** The world at the gate: the skipped files counted. *)
Definition gated (excel_files : list file) (w : world) : world :=
  let w1 := prepared excel_files w in
  mkWorld (sheet w1)
    (mkStats (files_found (stats w1)) (files_processed (stats w1))
       (files_skipped (stats w1)
        + snd (gate (consulted excel_files w) excel_files))
       (files_failed (stats w1)) (duplicates_removed (stats w1)) (errors (stats w1)))
    (fetched w1).

End Run.

(** [self.execution_stats] as [run_complete_workflow] resets it. *)
Definition fresh_stats : execution_stats := mkStats 0 0 0 0 0 [].

End Workflow.

(** ** Worked examples *)

Module Examples.
Import PyStr Sheets Workflow.

(** A stand-in for [str(float)] in the examples: exact for the floats
    that are whole numbers, a fraction otherwise. *)
Definition example_float_str : FloatStr :=
  fun q =>
    if (Zpos (Qden q) =? 1)%Z then pretty (Qnum q) +:+ ".0"
    else pretty (Qnum q) +:+ "/" +:+ pretty (Zpos (Qden q)).

(** A table with blank keys and a repeated row. *)
Definition sample : DataFrame :=
  mkDataFrame ["Item"; "Code"; "Qty"]
    [[SText " tea"; SText "T'1 "; SInt 4];
     [SText "gap"; SText "  "; SInt 1];
     [SText "tea"; SText "T1"; SInt 4];
     [SText "nil"; SText "nan"; SInt 2];
     [SText "oil"; SNaN; SInt 3];
     [SText "rice"; SText "R2"; SInt 0]].

(** A sheet with two blank rows between the header and a record. *)
Definition blank_rows_sheet : grid :=
  [["Skucode"; "PoNo"; "Qty"]; []; []; ["a"; "1"; "5"]].

(** A sheet without the [Skucode] column, with a blank row and a
    repeated record. *)
Definition drifted_sheet : grid :=
  [["Item"; "PoNo"]; ["tea"; "2"]; []; ["tea"; "2"]; ["oil"; "1"]].



(** A sheet without the [Skucode] column, with a blank column and a
    blank row. *)
Definition gapped_sheet : grid :=
  [["Item"; ""; "PoNo"]; ["tea"; ""; "2"]; []; ["oil"; ""; "1"]].

Definition example_format : SheetFormat :=
  {| format_int := pretty; format_float := example_float_str |}.

(** The table of the workbook [goods]. *)
Definition goods : DataFrame :=
  mkDataFrame ["Item"; "Qty"] [[SText "tea"; SInt 4]].

Definition example_parsers : Extractor.Parsers string :=
  {| Extractor.read_excel := fun b _ _ =>
       if String.eqb b "goods" then Return goods else Raise "not a workbook";
     Extractor.open_archive := fun _ => None |}.

Definition example_drive : Drive string := fun i => Return i.

(** A workbook that the structured parsers refuse, with the worksheet
    [A1 = Qty, B1 = Qty, A2 = 5, B2 = tea]: the first row repeats a
    text.  Every cell is a value cell. *)
Definition repeated_header_cells : list Recovery.cell_match :=
  [Recovery.mkCell "A1" "" "Qty" ""; Recovery.mkCell "B1" "" "Qty" "";
   Recovery.mkCell "A2" "" "5" ""; Recovery.mkCell "B2" "" "tea" ""].

Definition damaged_parsers : Extractor.Parsers string :=
  {| Extractor.read_excel := fun _ _ _ => Raise "File is not a zip file";
     Extractor.open_archive := fun _ =>
       Some (Recovery.mkArchive [] (Some repeated_header_cells)) |}.

(** Runs of the service: without a fault, with the read of the ledger
    raising, with the rewrite of the compaction raising, with the append
    of the first file raising. *)
Definition no_fault : Faults := fun _ => None.

Definition ledger_down : Faults :=
  fun c => match c with LedgerGet => Some "quota" | _ => None end.

Definition rewrite_down : Faults :=
  fun c => match c with CompactUpdate => Some "quota" | _ => None end.

Definition append_down : Faults :=
  fun c => match c with AppendWrite 0 => Some "quota" | _ => None end.

Definition run (F : Faults) : list file -> M report :=
  @process_excel_workflow string example_parsers example_drive
    example_float_str example_format F 2.

Definition plain : file := mkFile "goods" "a.xlsx".
Definition padded : file := mkFile "goods" " a.xlsx".

Definition blank_world : world := mkWorld [] fresh_stats [].

(** The sheet after [plain] was merged into the blank sheet. *)
Definition merged_world : world :=
  mkWorld [["Item"; "Qty"; "source_file_name"]; ["tea"; "4"; "a.xlsx"]] fresh_stats [].

End Examples.


(** ** More Python built-ins: splitting, joining, slicing *)

Module PySeq.

(** Truth value of a [str] in a condition. *)
Definition nonempty (s : string) : bool := negb (String.eqb s "").

(** [s.split(sep)] for a one-character [sep]: the runs between the
    separators, at least one. *)
Fixpoint split_on (sep : ascii) (s : string) : list string :=
  match s with
  | EmptyString => [EmptyString]
  | String c r =>
      if Ascii.eqb c sep then EmptyString :: split_on sep r
      else
        match split_on sep r with
        | p :: ps => String c p :: ps
        | [] => [String c EmptyString]
        end
  end.

(** [sep.join(parts)] *)
Fixpoint join (sep : string) (parts : list string) : string :=
  match parts with
  | [] => EmptyString
  | p :: ps =>
      match ps with
      | [] => p
      | _ :: _ => p +:+ sep +:+ join sep ps
      end
  end.

(** The slice [s[:n]] of a text, for [n >= 0]. *)
Fixpoint slice_to (n : nat) (s : string) : string :=
  match n, s with
  | S n', String c r => String c (slice_to n' r)
  | _, _ => EmptyString
  end.

(** The slice [l[:i]] of a list. *)
Definition py_slice_to {A} (l : list A) (i : Z) : list A :=
  if (0 <=? i)%Z then take (Z.to_nat i) l
  else take (Z.to_nat (Z.max 0 (Z.of_nat (length l) + i))) l.

(** What the decimal writing of a whole number is made of. *)
Definition numeral_char (c : ascii) : Prop :=
  PyStr.is_digit c = true \/ c = "-"%char.

(** The text between two double quotes, as in the f-strings of the
    query. *)
Definition quoted (s : string) : string :=
  String "034" (s +:+ String "034" EmptyString).

End PySeq.

(** ** File names: [_sanitize_filename] and the sender's address *)

Module Filenames.
Import PyStr PySeq.

(** The class of the pattern: the characters [< > : / \ | ? *] and the
    double quote. *)
Definition is_reserved (c : ascii) : bool :=
  existsb (Ascii.eqb c) ["<"; ">"; ":"; "034"; "/"; "\"; "|"; "?"; "*"]%char.

(** [re.sub(pattern, '_', filename)]: an underscore for each character
    of the class. *)
Fixpoint sub_reserved (filename : string) : string :=
  match filename with
  | EmptyString => EmptyString
  | String c r => String (if is_reserved c then "_"%char else c) (sub_reserved r)
  end.

Definition _sanitize_filename (filename : string) : string :=
  let cleaned := sub_reserved filename in
  if (100 <? String.length cleaned)%nat then
    let name_parts := split_on "." cleaned in
    if (1 <? length name_parts)%nat then
      let extension := default EmptyString (py_index name_parts (-1)) in
      let base_name := join "." (py_slice_to name_parts (-1)) in
      slice_to 95 base_name +:+ "." +:+ extension
    else slice_to 100 cleaned
  else cleaned.

(** Lines 665-666: the address between the angle brackets of a sender,
    [sender_email.split("<")[1].split(">")[0].strip()] when the sender
    holds both brackets.  [None] stands for [IndexError]. *)
Definition sender_address (sender_email : string) : option string :=
  if contains "<" sender_email && contains ">" sender_email then
    match py_index (split_on "<" sender_email) 1 with
    | None => None
    | Some after =>
        match py_index (split_on ">" after) 0 with
        | None => None
        | Some inside => Some (strip inside)
        end
    end
  else Some sender_email.

(** [filename.lower().endswith(('.xls', '.xlsx', '.xlsm'))] *)
Definition is_excel_name (filename : string) : bool :=
  let l := lower filename in
  endswith ".xls" l || endswith ".xlsx" l || endswith ".xlsm" l.

End Filenames.

(** ** The drive, the mailbox and the counters of the Gmail workflow *)

Module Mailbox.

(** An entry of the drive as far as the code looks at it: its id, its
    name, its parents, and whether its mime type is the one of a folder.
    No entry is trashed. *)
Record item : Type := mkItem {
  item_id : string;
  item_name : string;
  parents : list string;
  is_folder : bool
}.

(** The calls of the Drive service in the Gmail workflow, with what
    tells them apart; a listing of the children of a folder is asked
    page by page. *)
Inductive drive_call : Type :=
| FolderList (folder_name parent_folder_id : string)
| FolderCreate (folder_name parent_folder_id : string)
| ChildrenList (folder_id : string) (page : nat)
| Upload (name folder_id : string).

(** Which calls raise, and with which message. *)
Class DriveFaults := drive_fault : drive_call -> option string.

(** The id that the service gives to a new entry. *)
Class DriveIds := new_id : list item -> string.

(** A message part: one that has [parts], or one with its [filename]
    and the [attachmentId] of its body when there is one. *)
#[local] Unset Elimination Schemes.
Inductive payload : Type :=
| Multipart (parts : list payload)
| Single (filename : string) (attachmentId : option string).
#[local] Set Elimination Schemes.

(** The answers of the Gmail service, which the workflow only reads. *)
Class Gmail := {
  (** [messages().list(userId='me', q=query, maxResults=max_results)]:
      the ids of the messages *)
  messages_list : string -> Z -> outcome (list string);
  (** [messages().get(format='metadata')]: the headers as pairs of a
      name and a value *)
  message_metadata : string -> outcome (list (string * string));
  (** [messages().get(format='full')]: the payload, [None] when the
      message has none *)
  message_full : string -> outcome (option payload);
  (** [messages().attachments().get] with the decoding of its data *)
  attachment_data : string -> string -> outcome string
}.

(** [(datetime.now() - timedelta(days=days_back)).strftime('%Y/%m/%d')] *)
Class Clock := start_date : Z -> string.

(** The counters of [execution_stats] that the Gmail workflow touches. *)
Record mail_stats : Type := mkMailStats {
  emails_checked : nat;
  attachments_found : nat;
  attachments_saved : nat;
  attachments_skipped : nat;
  attachments_failed : nat;
  errors : list string
}.

Record state : Type := mkState {
  drive : list item;
  stats : mail_stats
}.

(** *** State and exceptions *)

Definition D (A : Type) : Type := state -> outcome A * state.

Definition ret {A} (a : A) : D A := fun s => (Return a, s).
Definition raise {A} (e : string) : D A := fun s => (Raise e, s).

Definition bind {A B} (m : D A) (k : A -> D B) : D B :=
  fun s =>
    match m s with
    | (Return a, s') => k a s'
    | (Raise e, s') => (Raise e, s')
    end.

Definition catch {A} (m : D A) (h : string -> D A) : D A :=
  fun s =>
    match m s with
    | (Return a, s') => (Return a, s')
    | (Raise e, s') => h e s'
    end.

(** An answer of the Gmail service inside a run. *)
Definition lift {A} (o : outcome A) : D A := fun s => (o, s).

(** A read of the drive, a request that may only raise, and the
    creation of an entry, at the call [c]. *)
Definition drive_read `{DriveFaults} {A} (c : drive_call) (view : list item -> A) : D A :=
  fun s =>
    match drive_fault c with
    | Some e => (Raise e, s)
    | None => (Return (view (drive s)), s)
    end.

Definition drive_request `{DriveFaults} (c : drive_call) : D unit :=
  drive_read c (fun _ => tt).

Definition drive_create `{DriveFaults} `{DriveIds} (c : drive_call)
    (name : string) (parents : list string) (is_folder : bool) : D string :=
  fun s =>
    match drive_fault c with
    | Some e => (Raise e, s)
    | None =>
        let id := new_id (drive s) in
        (Return id, mkState (drive s ++ [mkItem id name parents is_folder]) (stats s))
    end.

Definition modify_stats (f : mail_stats -> mail_stats) : D unit :=
  fun s => (Return tt, mkState (drive s) (f (stats s))).

(** How many of some entries are files, not folders. *)
Definition files_in (entries : list item) : nat :=
  length (filter (fun it => is_folder it = false) entries).

Definition add_error (msg : string) : D unit :=
  modify_stats (fun s =>
    mkMailStats (emails_checked s) (attachments_found s) (attachments_saved s)
                (attachments_skipped s) (attachments_failed s) (errors s ++ [msg])).

End Mailbox.

Declare Scope mail_scope.
Delimit Scope mail_scope with mail.
Notation "'do' x <- m ; k" := (Mailbox.bind m (fun x => k))
  (at level 10, x name, m at level 100, k at level 200) : mail_scope.
Notation "'do_' m ; k" := (Mailbox.bind m (fun _ => k))
  (at level 10, m at level 100, k at level 200) : mail_scope.

(** ** Folders and listings of the drive *)

Module DriveFolders.
Import PyStr PySeq Mailbox.

Section Calls.
Context `{DriveFaults} `{DriveIds}.
Local Open Scope mail_scope.

(** The query of [_create_drive_folder]: the folders of the name, under
    the parent when one is given. *)
Definition folder_matches (folder_name parent_folder_id : string) (it : item) : bool :=
  is_folder it
  && String.eqb (item_name it) folder_name
  && (negb (nonempty parent_folder_id) || bool_decide (parent_folder_id ∈ parents it)).

(** [_create_drive_folder]: the id of the first folder found, of a new
    folder when there is none, the empty text when a call raises. *)
Definition _create_drive_folder (folder_name parent_folder_id : string) : D string :=
  catch
    (do files <- drive_read (FolderList folder_name parent_folder_id)
                   (filter (fun it => folder_matches folder_name parent_folder_id it = true));
     match files with
     | f :: _ => ret (item_id f)
     | [] =>
         drive_create (FolderCreate folder_name parent_folder_id) folder_name
           (if nonempty parent_folder_id then [parent_folder_id] else []) true
     end)
    (fun _ => ret "").

(** The names of the entries that have the folder among their parents,
    as the query ['{folder_id}' in parents and trashed=false] lists them. *)
Definition children (folder_id : string) (d : list item) : list string :=
  item_name <$> filter (fun it => folder_id ∈ parents it) d.

(** [pageSize=1000]: the service serves a listing in pages of at most a
    thousand names; a page carries a [nextPageToken] when others follow. *)
Definition page_size : nat := 1000.

Fixpoint paged {A} (fuel : nat) (l : list A) : list (list A) :=
  match fuel with
  | O => [l]
  | S fuel' =>
      if (length l <=? page_size)%nat then [l]
      else take page_size l :: paged fuel' (drop page_size l)
  end.

Definition pages {A} (l : list A) : list (list A) := paged (length l) l.

(** The loop [while True] of [_get_existing_files_in_folder]: [pending]
    holds the pages not yet asked for, [page] counts the requests. *)
Fixpoint read_pages (folder_id : string) (page : nat) (pending : list (list string))
    (existing_files : gset string) : D (gset string) :=
  match pending with
  | [] => ret existing_files
  | files :: rest =>
      do_ drive_request (ChildrenList folder_id page);
      let existing_files := existing_files ∪ list_to_set files in
      if Sheets.is_nil rest then ret existing_files
      else read_pages folder_id (S page) rest existing_files
  end.

(** [_get_existing_files_in_folder]: the names listed, the empty set
    when a request raises. *)
Definition _get_existing_files_in_folder (folder_id : string) : D (gset string) :=
  catch
    (fun s => read_pages folder_id 0 (pages (children folder_id (drive s))) ∅ s)
    (fun _ => ret ∅).

End Calls.

End DriveFolders.

(** ** Attachments: [_get_email_details], [_extract_attachments_from_email] *)

Module Attachments.
Import PyStr PySeq Filenames Mailbox DriveFolders.

Record details : Type := mkDetails {
  id : string;
  sender : string;
  subject : string;
  date : string
}.

(** [next((h['value'] for h in headers if h['name'] == name), default)] *)
Definition header_value (name default : string) (headers : list (string * string)) : string :=
  match list_find (fun h => fst h = name) headers with
  | Some (_, h) => snd h
  | None => default
  end.

Definition _get_email_details `{Gmail} (message_id : string) : details :=
  match message_metadata message_id with
  | Return headers =>
      mkDetails message_id
        (header_value "From" "Unknown" headers)
        (header_value "Subject" "(No Subject)" headers)
        (header_value "Date" "" headers)
  | Raise _ => mkDetails message_id "Unknown" "Unknown" ""
  end.

(** The tuple [(saved_count, skipped_count, failed_count, found_count)]. *)
Record counts : Type := mkCounts {
  saved : nat;
  skipped : nat;
  failed : nat;
  found : nat
}.

Definition no_counts : counts := mkCounts 0 0 0 0.

Definition add_counts (a b : counts) : counts :=
  mkCounts (saved a + saved b) (skipped a + skipped b)
           (failed a + failed b) (found a + found b).

Section Calls.
Context `{Gmail} `{DriveFaults} `{DriveIds}.
Local Open Scope mail_scope.

(** The branch of an Excel attachment, from [found_count += 1] on. *)
Definition save_attachment (message_id filename attachment_id : string)
    (sender_info : details) (base_folder_id : string) : D counts :=
  let clean_filename := _sanitize_filename filename in
  let final_filename := message_id +:+ "_" +:+ clean_filename in
  catch
    (match sender_address (sender sender_info) with
     | None => raise "list index out of range"
     | Some sender_email =>
         let sender_folder_name := _sanitize_filename sender_email in
         do type_folder_id <- _create_drive_folder sender_folder_name base_folder_id;
         do existing_files <- _get_existing_files_in_folder type_folder_id;
         if bool_decide (final_filename ∈ existing_files) then ret (mkCounts 0 1 0 1)
         else
           do _file_data <- lift (attachment_data message_id attachment_id);
           do _created <- drive_create (Upload final_filename type_folder_id)
                            final_filename [type_folder_id] false;
           ret (mkCounts 1 0 0 1)
     end)
    (fun _ => ret (mkCounts 0 0 1 1)).

(** The loop [for part in payload["parts"]], which adds up the counts
    that [extract] returns for the parts. *)
Definition each_part (extract : payload -> D counts) : list payload -> counts -> D counts :=
  fix each (parts : list payload) (acc : counts) : D counts :=
    match parts with
    | [] => ret acc
    | part :: rest =>
        do c <- extract part;
        each rest (add_counts acc c)
    end.

Fixpoint _extract_attachments_from_email (message_id : string) (p : payload)
    (sender_info : details) (base_folder_id : string) : D counts :=
  match p with
  | Multipart parts =>
      each_part
        (fun part =>
           _extract_attachments_from_email message_id part sender_info base_folder_id)
        parts no_counts
  | Single filename attachmentId =>
      match attachmentId with
      | Some attachment_id =>
          if nonempty filename then
            if negb (is_excel_name filename) then ret no_counts
            else save_attachment message_id filename attachment_id sender_info
                   base_folder_id
          else ret no_counts
      | None => ret no_counts
      end
  end.

End Calls.

(** The Excel attachments of a message: the parts without [parts] that
    have a file name with an Excel ending and an attachment id. *)
Fixpoint excel_attachments (p : payload) : nat :=
  match p with
  | Multipart parts => list_sum (map excel_attachments parts)
  | Single filename (Some _) =>
      if nonempty filename && is_excel_name filename then 1%nat else 0%nat
  | Single _ None => 0%nat
  end.

End Attachments.

(** ** The Gmail workflow: [search_emails], [process_gmail_workflow] *)

Module GmailWorkflow.
Import PyStr PySeq Filenames Mailbox DriveFolders Attachments.

(** [self.gmail_config] *)
Record gmail_config : Type := mkGmailConfig {
  config_sender : string;
  search_term : string;
  days_back : Z;
  max_results : Z;
  gdrive_folder_id : string
}.

(** The configuration that [__init__] sets. *)
Definition configured : gmail_config :=
  mkGmailConfig "bbnet2@bigbasket.com" "grn" 2 10 "1l5L9IdQ8WcV6AZ04JCeuyxvbNkLPJnHt".

(** The clause of the search term: the keywords between commas that are
    not empty, or the term as it is. *)
Definition keyword_parts (search_term : string) : list string :=
  if nonempty search_term then
    if contains "," search_term then
      let keywords := map strip (split_on "," search_term) in
      let keyword_query :=
        join " OR " (map quoted (filter (fun k => nonempty k = true) keywords)) in
      if nonempty keyword_query then ["(" +:+ keyword_query +:+ ")"] else []
    else [quoted search_term]
  else [].

Definition search_query `{Clock} (sender search_term : string) (days_back : Z) : string :=
  join " "
    (["has:attachment"]
     ++ (if nonempty sender then ["from:" +:+ quoted sender] else [])
     ++ keyword_parts search_term
     ++ ["after:" +:+ start_date days_back]).

Section Calls.
Context `{Gmail} `{Clock} `{DriveFaults} `{DriveIds}.
Local Open Scope mail_scope.

Definition search_emails (sender search_term : string) (days_back max_results : Z)
    : D (list string) :=
  catch
    (let query := search_query sender search_term days_back in
     let max_results := if (max_results =? 0)%Z then 1%Z else Z.max max_results 1 in
     do messages <- lift (messages_list query max_results);
     do_ modify_stats (fun s =>
       mkMailStats (length messages) (attachments_found s) (attachments_saved s)
                   (attachments_skipped s) (attachments_failed s) (errors s));
     ret messages)
    (fun e =>
       do_ add_error ("Email search: " +:+ e);
       ret []).

(** The body of the loop over [emails], with its [try ... except]. *)
Definition process_email (message_id base_folder_id : string) (totals : counts) : D counts :=
  catch
    (let email_details := _get_email_details message_id in
     do message <- lift (message_full message_id);
     match message with
     | None => ret totals
     | Some p =>
         do c <- _extract_attachments_from_email message_id p email_details base_folder_id;
         ret (add_counts totals c)
     end)
    (fun e =>
       do_ add_error ("Failed to process email " +:+ message_id +:+ ": " +:+ e);
       ret totals).

Fixpoint email_loop (emails : list string) (base_folder_id : string) (totals : counts)
    : D counts :=
  match emails with
  | [] => ret totals
  | email :: rest =>
      do totals' <- process_email email base_folder_id totals;
      email_loop rest base_folder_id totals'
  end.

Definition process_gmail_workflow (config : gmail_config) : D Workflow.report :=
  catch
    (do_ modify_stats (fun s =>
       mkMailStats (emails_checked s) 0 (attachments_saved s) 0 0 (errors s));
     do emails <- search_emails (config_sender config) (search_term config)
                    (days_back config) (max_results config);
     if Sheets.is_nil emails then ret (Workflow.mkReport true 0)
     else
       do base_folder_id <- _create_drive_folder "Gmail_Attachments_BigBasket"
                              (gdrive_folder_id config);
       if negb (nonempty base_folder_id) then ret (Workflow.mkReport false 0)
       else
         do totals <- email_loop emails base_folder_id no_counts;
         do_ modify_stats (fun s =>
           mkMailStats (emails_checked s) (found totals) (saved totals)
                       (skipped totals) (failed totals) (errors s));
         ret (Workflow.mkReport true (saved totals)))
    (fun e =>
       do_ add_error ("Gmail workflow failed: " +:+ e);
       ret (Workflow.mkReport false 0)).

End Calls.

End GmailWorkflow.

(** ** The listing of the folder of workbooks: [_get_excel_files_filtered] *)

Module Listing.
Import PyStr PySeq.

(** [_get_excel_files_filtered], [listing] being the answer of
    [files().list] to the query: the files listed, none when the folder
    id is blank or the call raises. *)
Definition _get_excel_files_filtered (folder_id : string)
    (listing : outcome (list Workflow.file)) : list Workflow.file :=
  if negb (nonempty folder_id) || String.eqb (strip folder_id) "" then []
  else
    match listing with
    | Return files => files
    | Raise _ => []
    end.

End Listing.

(** ** Worked examples for the Gmail workflow *)

Module MailExamples.
Import Mailbox Attachments GmailWorkflow.

(** A message with a text part, a workbook and a document. *)
Definition delivery : payload :=
  Multipart [Single "" None; Single "grn.xlsx" (Some "att1");
             Single "note.pdf" (Some "att2")].

(** A mailbox with one such message. *)
Definition example_gmail : Gmail :=
  {| messages_list := fun _ _ => Return ["m1"];
     message_metadata := fun _ => Return [("From", "Big Basket <bbnet2@bigbasket.com>")];
     message_full := fun _ => Return (Some delivery);
     attachment_data := fun _ _ => Return "data" |}.

Definition example_clock : Clock := fun _ => "2026/11/02".

Definition example_ids : DriveIds := fun d => "id" +:+ pretty (length d).

(** Runs of the Drive service: without a fault, and with the second
    page of every listing raising. *)
Definition no_drive_fault : DriveFaults := fun _ => None.

Definition second_page_down : DriveFaults :=
  fun c => match c with ChildrenList _ 1 => Some "quota" | _ => None end.

Definition fresh_mail_stats : mail_stats := mkMailStats 0 0 0 0 0 [].

Definition empty_drive : state := mkState [] fresh_mail_stats.

(** A folder with more entries than a page holds. *)
Definition crowded_drive : state :=
  mkState (replicate 1001 (mkItem "f1" "old.xlsx" ["inbox"] false)) fresh_mail_stats.

Definition sender_details : details :=
  mkDetails "m1" "Big Basket <bbnet2@bigbasket.com>" "GRN" "".

End MailExamples.



(** ** Facts about the string built-ins *)

Module PyStrFacts.
Import PyStr.

(** *** Appending texts *)

Lemma string_app_cons c (a b : string) : String c a +:+ b = String c (a +:+ b).
Proof. reflexivity. Qed.

Lemma string_app_nil_l (b : string) : "" +:+ b = b.
Proof. reflexivity. Qed.

Lemma string_app_length (a b : string) :
  String.length (a +:+ b) = (String.length a + String.length b)%nat.
Proof.
  induction a as [|c a IH]; [reflexivity|].
  rewrite string_app_cons. simpl. rewrite IH. reflexivity.
Qed.

Lemma string_app_chars (a b : string) :
  list_ascii_of_string (a +:+ b) = (list_ascii_of_string a ++ list_ascii_of_string b)%list.
Proof.
  induction a as [|c a IH]; [reflexivity|].
  rewrite string_app_cons. simpl. rewrite IH. reflexivity.
Qed.

Lemma string_app_nil_r (s : string) : s +:+ "" = s.
Proof.
  induction s as [|c s IH]; [reflexivity|].
  rewrite string_app_cons, IH. reflexivity.
Qed.

Lemma string_app_assoc (a b c : string) : (a +:+ b) +:+ c = a +:+ b +:+ c.
Proof.
  induction a as [|x a IH]; [reflexivity|].
  rewrite !string_app_cons, IH. reflexivity.
Qed.

Lemma string_length_chars (s : string) :
  String.length s = length (list_ascii_of_string s).
Proof. induction s as [|c s IH]; simpl; [reflexivity|]. rewrite IH. reflexivity. Qed.


Lemma is_digit_not_space c : is_digit c = true -> is_space c = false.
Proof.
  unfold is_digit, is_space. intros H.
  apply andb_true_iff in H as [H1 H2].
  apply Nat.leb_le in H1. apply Nat.leb_le in H2.
  apply orb_false_iff. split; apply andb_false_iff.
  - right. apply Nat.leb_gt. lia.
  - right. apply Nat.leb_gt. lia.
Qed.

Lemma is_digit_not_alpha c : is_digit c = true -> is_alpha c = false.
Proof.
  unfold is_digit, is_alpha, is_upper, is_lower. intros H.
  apply andb_true_iff in H as [H1 H2].
  apply Nat.leb_le in H1. apply Nat.leb_le in H2.
  apply orb_false_iff. split; apply andb_false_iff; left; apply Nat.leb_gt; lia.
Qed.

Lemma is_upper_not_digit c : is_upper c = true -> is_digit c = false.
Proof.
  unfold is_digit, is_upper. intros H.
  apply andb_true_iff in H as [H1 H2].
  apply Nat.leb_le in H1. apply Nat.leb_le in H2.
  apply andb_false_iff; right; apply Nat.leb_gt; lia.
Qed.

Lemma is_upper_alpha c : is_upper c = true -> is_alpha c = true.
Proof. unfold is_alpha. intros ->. reflexivity. Qed.

(** A text without white space at all is its own [strip]. *)
Lemma lstrip_head c r : is_space c = false -> lstrip (String c r) = String c r.
Proof. simpl. intros ->. reflexivity. Qed.

Lemma rstrip_no_space l :
  Forall (fun c => is_space c = false) l ->
  rstrip (string_of_list_ascii l) = string_of_list_ascii l.
Proof.
  induction 1 as [|c l Hc _ IH]; simpl; [reflexivity|].
  rewrite IH. destruct (string_of_list_ascii l); [rewrite Hc|]; reflexivity.
Qed.

Lemma strip_no_space l :
  Forall (fun c => is_space c = false) l ->
  strip (string_of_list_ascii l) = string_of_list_ascii l.
Proof.
  intros H. unfold strip.
  destruct H as [|c l Hc Hl]; [reflexivity|].
  change (string_of_list_ascii (c :: l)) with (String c (string_of_list_ascii l)).
  rewrite lstrip_head by exact Hc.
  apply (rstrip_no_space (c :: l)). constructor; assumption.
Qed.

Lemma filter_chars_app p l1 l2 :
  filter_chars p (string_of_list_ascii (l1 ++ l2)) =
  filter_chars p (string_of_list_ascii l1) +:+ filter_chars p (string_of_list_ascii l2).
Proof.
  induction l1 as [|c l1 IH]; simpl; [reflexivity|].
  rewrite IH. destruct (p c); reflexivity.
Qed.

Lemma filter_chars_all p l :
  Forall (fun c => p c = true) l ->
  filter_chars p (string_of_list_ascii l) = string_of_list_ascii l.
Proof. induction 1 as [|c l Hc _ IH]; simpl; [|rewrite Hc, IH]; reflexivity. Qed.

Lemma filter_chars_none p l :
  Forall (fun c => p c = false) l ->
  filter_chars p (string_of_list_ascii l) = "".
Proof. induction 1 as [|c l Hc _ IH]; simpl; [|rewrite Hc, IH]; reflexivity. Qed.

Lemma scan_digitpart_digits prev l :
  Forall (fun c => is_digit c = true) l -> scan_digitpart prev l = (l, []).
Proof.
  intros H. revert prev. induction H as [|c l Hc _ IH]; intros prev; simpl; [reflexivity|].
  rewrite Hc, IH. reflexivity.
Qed.

Lemma scan_sign_digit c l : is_digit c = true -> scan_sign (c :: l) = (1%Z, c :: l).
Proof.
  intros H. unfold scan_sign.
  destruct (Ascii.eqb_spec c "-") as [->|_]; [discriminate H|].
  destruct (Ascii.eqb_spec c "+") as [->|_]; [discriminate H|]. reflexivity.
Qed.

(** [int] of a run of digits is its decimal value. *)
Lemma py_int_digits l :
  Forall (fun c => is_digit c = true) l -> l <> [] ->
  py_int (string_of_list_ascii l) = Some (digits_val 0 l).
Proof.
  intros H Hne. unfold py_int.
  rewrite strip_no_space, list_ascii_of_string_of_list_ascii.
  2:{ eapply Forall_impl; [exact H|]. intros c. apply is_digit_not_space. }
  destruct H as [|c l Hc Hl]; [congruence|].
  rewrite (scan_sign_digit c l Hc).
  rewrite (scan_digitpart_digits false (c :: l)) by (constructor; assumption).
  f_equal. lia.
Qed.

(** A one-character needle is in a text when the character occurs. *)
Lemma contains_char c s :
  contains (String c "") s = true <-> In c (list_ascii_of_string s).
Proof.
  induction s as [|a s IH]; simpl.
  - split; [discriminate|tauto].
  - rewrite orb_true_iff, IH.
    destruct (Ascii.eqb_spec c a) as [->|Hne]; simpl.
    + destruct s; tauto.
    + split; [intros [H|H]; [discriminate|tauto]|intros [H|H]; [congruence|tauto]].
Qed.

Lemma lower_char_e c : lower_char c = "e"%char <-> c = "e"%char \/ c = "E"%char.
Proof.
  split.
  - destruct c as [[] [] [] [] [] [] [] []]; vm_compute; intros H; try discriminate H; tauto.
  - intros [->| ->]; reflexivity.
Qed.

Lemma In_lower c s :
  In c (list_ascii_of_string (lower s)) <->
  exists a, In a (list_ascii_of_string s) /\ lower_char a = c.
Proof.
  induction s as [|a s IH]; simpl.
  - split; [tauto|intros (a & [] & _)].
  - rewrite IH. split.
    + intros [H|(b & Hb & Hc)]; [exists a; tauto|exists b; tauto].
    + intros (b & [->|Hb] & Hc); [tauto|right; exists b; tauto].
Qed.

(** *** What [strip] takes away *)

Lemma lstrip_parts s :
  exists l, s = l +:+ lstrip s
            /\ Forall (fun c => is_space c = true) (list_ascii_of_string l)
            /\ forall c r, lstrip s = String c r -> is_space c = false.
Proof.
  induction s as [|a s (l & Hs & Hl & Hh)].
  - exists "". split; [reflexivity|]. split; [constructor|]. intros c r H. discriminate H.
  - simpl. destruct (is_space a) eqn:Ea.
    + exists (String a l). split; [rewrite string_app_cons; congruence|].
      split; [constructor; assumption|exact Hh].
    + exists "". split; [reflexivity|]. split; [constructor|].
      intros c r [= <- _]. exact Ea.
Qed.

Lemma rstrip_parts s :
  exists r, s = rstrip s +:+ r
            /\ Forall (fun c => is_space c = true) (list_ascii_of_string r).
Proof.
  induction s as [|a s (r & Hs & Hr)].
  - exists "". split; [reflexivity|constructor].
  - simpl. destruct (rstrip s) as [|b k] eqn:E.
    + rewrite string_app_nil_l in Hs. subst r. destruct (is_space a) eqn:Ea.
      * exists (String a s). split; [reflexivity|]. constructor; assumption.
      * exists s. split; [reflexivity|exact Hr].
    + exists r. split; [|exact Hr]. rewrite string_app_cons. congruence.
Qed.

Lemma app_single_nil (p : string) c : p +:+ String c "" <> "".
Proof. destruct p; discriminate. Qed.

Lemma rstrip_last s : forall p c, rstrip s = p +:+ String c "" -> is_space c = false.
Proof.
  induction s as [|a s IH]; intros p c; simpl.
  - intros H. symmetry in H. destruct (app_single_nil _ _ H).
  - destruct (rstrip s) as [|b k] eqn:E.
    + destruct (is_space a) eqn:Ea.
      * intros H. symmetry in H. destruct (app_single_nil _ _ H).
      * destruct p as [|x p]; [intros [= <-]; exact Ea|].
        rewrite string_app_cons. intros [= _ H]. symmetry in H.
        destruct (app_single_nil _ _ H).
    + destruct p as [|x p]; [intros [= _ H]; discriminate H|].
      rewrite string_app_cons. intros [= _ H]. apply (IH p c). exact H.
Qed.

Lemma rstrip_keeps s :
  (forall p c, s = p +:+ String c "" -> is_space c = false) -> rstrip s = s.
Proof.
  induction s as [|a s IH]; [reflexivity|]. intros H. simpl.
  rewrite IH by (intros p c ->; apply (H (String a p) c); reflexivity).
  destruct s; [|reflexivity]. rewrite (H "" a eq_refl). reflexivity.
Qed.

Lemma lstrip_white l :
  Forall (fun c => is_space c = true) (list_ascii_of_string l) -> lstrip l = "".
Proof.
  induction l as [|a l IH]; [reflexivity|]. simpl. intros H. inversion H as [|? ? Ha Hl]; subst.
  rewrite Ha. apply IH, Hl.
Qed.

Lemma lstrip_white_app l s :
  Forall (fun c => is_space c = true) (list_ascii_of_string l) ->
  lstrip (l +:+ s) = lstrip s.
Proof.
  induction l as [|a l IH]; [reflexivity|]. intros H.
  inversion H as [|? ? Ha Hl]; subst.
  rewrite string_app_cons. simpl. rewrite Ha. apply IH, Hl.
Qed.

Lemma rstrip_white r :
  Forall (fun c => is_space c = true) (list_ascii_of_string r) -> rstrip r = "".
Proof.
  induction r as [|a r IH]; [reflexivity|]. simpl. intros H.
  inversion H as [|? ? Ha Hr]; subst.
  rewrite IH by exact Hr. rewrite Ha. reflexivity.
Qed.

Lemma rstrip_app_white s r :
  Forall (fun c => is_space c = true) (list_ascii_of_string r) ->
  rstrip (s +:+ r) = rstrip s.
Proof.
  intros Hr. induction s as [|a s IH]; [apply rstrip_white, Hr|].
  rewrite string_app_cons. simpl. rewrite IH. reflexivity.
Qed.

(** The text between white margins is what [strip] leaves. *)
Lemma strip_between l core r :
  Forall (fun c => is_space c = true) (list_ascii_of_string l) ->
  Forall (fun c => is_space c = true) (list_ascii_of_string r) ->
  (forall c k, core = String c k -> is_space c = false) ->
  (forall p c, core = p +:+ String c "" -> is_space c = false) ->
  strip (l +:+ core +:+ r) = core.
Proof.
  intros Hl Hr Hhead Hlast. unfold strip. rewrite lstrip_white_app by exact Hl.
  destruct core as [|c k].
  - rewrite string_app_nil_l, lstrip_white by exact Hr. reflexivity.
  - rewrite string_app_cons, lstrip_head by (eapply Hhead; reflexivity).
    rewrite <- string_app_cons, rstrip_app_white by exact Hr.
    apply rstrip_keeps, Hlast.
Qed.

(** Every text is what [strip] leaves of it between two white margins. *)
Lemma strip_margins s :
  exists l r,
    s = l +:+ strip s +:+ r
    /\ Forall (fun c => is_space c = true) (list_ascii_of_string l)
    /\ Forall (fun c => is_space c = true) (list_ascii_of_string r)
    /\ (forall c k, strip s = String c k -> is_space c = false)
    /\ (forall p c, strip s = p +:+ String c "" -> is_space c = false).
Proof.
  destruct (lstrip_parts s) as (l & Hs & Hl & Hhead).
  destruct (rstrip_parts (lstrip s)) as (r & Hm & Hr).
  exists l, r. unfold strip. split; [rewrite <- Hm; exact Hs|].
  split; [exact Hl|]. split; [exact Hr|]. split; [|apply rstrip_last].
  intros c k E. rewrite E, string_app_cons in Hm. eapply Hhead, Hm.
Qed.

Lemma remove_char_filter c s :
  remove_char c s
  = string_of_list_ascii (filter (fun a => a <> c) (list_ascii_of_string s)).
Proof.
  induction s as [|a s IH]; [reflexivity|]. simpl. rewrite filter_cons.
  destruct (Ascii.eqb_spec a c) as [->|Hne].
  - rewrite decide_False by (intros H; apply H; reflexivity). exact IH.
  - rewrite decide_True by exact Hne. simpl. rewrite IH. reflexivity.
Qed.

Lemma remove_char_absent c s : ~ In c (list_ascii_of_string (remove_char c s)).
Proof.
  induction s as [|a s IH]; simpl; [tauto|].
  destruct (Ascii.eqb_spec a c) as [->|Hne]; simpl; [exact IH|].
  intros [H|H]; [congruence|tauto].
Qed.

End PyStrFacts.

(** ** CellCoercion *)

Module CoercionFacts.
Import PyStr Coercion PyStrFacts.

(** The test for a float spelling is the presence of a point or of an
    exponent marker, in either case. *)
Lemma has_float_mark_spec value :
  has_float_mark value = true <->
  exists c, In c (list_ascii_of_string value)
            /\ (c = "."%char \/ c = "e"%char \/ c = "E"%char).
Proof.
  unfold has_float_mark. rewrite orb_true_iff, !contains_char, In_lower. split.
  - intros [H|(a & Ha & He)].
    + exists "."%char. tauto.
    + apply lower_char_e in He. exists a. tauto.
  - intros (c & Hc & [->|He]); [tauto|].
    right. exists c. split; [exact Hc|]. apply lower_char_e. exact He.
Qed.

(** The text that is parsed holds no single quote. *)
Lemma normalise_no_quote value :
  ~ In "'"%char (list_ascii_of_string (normalise value)).
Proof. apply remove_char_absent. Qed.

(** C5. [_clean_cell_value] keeps [None].  Every text is a trimmed text
    between two white margins, and on such a text the function takes
    the trimmed text without its single quotes: it parses it as a float
    when it holds a point or an exponent marker and as an integer
    otherwise, and keeps it as a text when the parse fails.  So ["3.14"]
    gives the float 3.14, ["42"] the integer 42, ["1e5"] the float
    100000.0, ["abc"] the text ["abc"] and [""] the empty text; white
    margins, quotes and a sign go as said. *)
Theorem clean_cell_value_coercion :
  _clean_cell_value None = None
  /\ (forall value, exists left core right,
        value = left +:+ core +:+ right
        /\ white left /\ white right /\ trimmed core)
  /\ (forall left core right,
        white left -> white right -> trimmed core ->
        let text := without_quotes core in
        (float_spelling text ->
         _clean_cell_value (Some (left +:+ core +:+ right))
         = Some (match py_float text with Some q => SFloat q | None => SText text end))
        /\ (~ float_spelling text ->
            _clean_cell_value (Some (left +:+ core +:+ right))
            = Some (match py_int text with Some z => SInt z | None => SText text end)))
  /\ (_clean_cell_value (Some "3.14") = Some (SFloat (157 # 50))
      /\ (157 # 50 == 314 / 100)%Q)
  /\ _clean_cell_value (Some "42") = Some (SInt 42)
  /\ _clean_cell_value (Some "1e5") = Some (SFloat (100000 # 1))
  /\ _clean_cell_value (Some "abc") = Some (SText "abc")
  /\ _clean_cell_value (Some "") = Some (SText "")
  /\ _clean_cell_value (Some "  abc ") = Some (SText "abc")
  /\ _clean_cell_value (Some (String "009" "42" +:+ String "010" "")) = Some (SInt 42)
  /\ _clean_cell_value (Some "it's") = Some (SText "its")
  /\ _clean_cell_value (Some " '1'000' ") = Some (SInt 1000)
  /\ _clean_cell_value (Some "-7") = Some (SInt (-7))
  /\ _clean_cell_value (Some " -2.5'") = Some (SFloat (-5 # 2))
  /\ _clean_cell_value (Some "1E3") = Some (SFloat (1000 # 1))
  /\ _clean_cell_value (Some "4 2") = Some (SText "4 2")
  /\ _clean_cell_value (Some "1.5x") = Some (SText "1.5x").
Proof.
  split; [reflexivity|]. split; [|split].
  - intros value. destruct (strip_margins value) as (l & r & Hv & Hl & Hr & Hh & Ht).
    exists l, (strip value), r. repeat split; assumption.
  - intros left core right Hl Hr [Hh Ht] text.
    assert (Hn : normalise (left +:+ core +:+ right) = text).
    { unfold normalise. rewrite strip_between by assumption. apply remove_char_filter. }
    unfold _clean_cell_value, clean_text. rewrite Hn.
    pose proof (has_float_mark_spec text) as Hm. fold (float_spelling text) in Hm.
    destruct (has_float_mark text).
    + split; [reflexivity|]. intros Hno. exfalso. apply Hno, Hm. reflexivity.
    + split; [|reflexivity]. intros Hf. apply Hm in Hf. discriminate Hf.
  - repeat split; reflexivity.
Qed.

End CoercionFacts.

(** ** Cell references *)

Module CellRefFacts.
Import PyStr CellRef PyStrFacts.

Lemma letter_digit_range c : is_upper c = true -> (1 <= letter_digit c <= 26)%Z.
Proof.
  unfold is_upper, letter_digit, ord. intros H.
  apply andb_true_iff in H as [H1 H2].
  apply Nat.leb_le in H1. apply Nat.leb_le in H2. lia.
Qed.

Lemma col_loop_base26 acc letters :
  col_loop acc letters = (acc * 26 ^ Z.of_nat (length letters) + base26 letters)%Z.
Proof.
  revert acc. induction letters as [|c r IH]; intros acc; simpl col_loop.
  - simpl. lia.
  - rewrite IH. cbn [base26 length]. rewrite Nat2Z.inj_succ, Z.pow_succ_r by lia.
    unfold letter_digit. change (ord "A") with 65%Z. lia.
Qed.

Lemma digits_val_decimal acc digits :
  digits_val acc digits = (acc * 10 ^ Z.of_nat (length digits) + decimal digits)%Z.
Proof.
  revert acc. induction digits as [|c r IH]; intros acc; simpl digits_val.
  - simpl. lia.
  - rewrite IH. cbn [decimal length]. rewrite Nat2Z.inj_succ, Z.pow_succ_r by lia. lia.
Qed.

(** C6. A reference made of column letters followed by row digits
    decodes to the row given by the digits read in base ten and the
    column given by the letters read in base 26 with [A = 1 .. Z = 26];
    ["A"] is column 1, ["Z"] column 26, ["AA"] column 27 and ["AA10"]
    is row 10, column 27. *)
Theorem decode_cell_reference :
  (forall letters digits,
      Forall (fun c => is_upper c = true) letters ->
      Forall (fun c => is_digit c = true) digits ->
      digits <> [] ->
      decode (string_of_list_ascii (letters ++ digits))
      = Some (decimal digits, base26 letters))
  /\ col_loop 0 (list_ascii_of_string "A") = 1%Z
  /\ col_loop 0 (list_ascii_of_string "Z") = 26%Z
  /\ col_loop 0 (list_ascii_of_string "AA") = 27%Z
  /\ decode "AA10" = Some (10%Z, 27%Z).
Proof.
  split; [|repeat split; reflexivity].
  intros letters digits Hl Hd Hne. unfold decode.
  rewrite !filter_chars_app.
  rewrite (filter_chars_all is_alpha letters)
    by (eapply Forall_impl; [exact Hl|]; intros c; apply is_upper_alpha).
  rewrite (filter_chars_none is_alpha digits)
    by (eapply Forall_impl; [exact Hd|]; intros c; apply is_digit_not_alpha).
  rewrite (filter_chars_none is_digit letters)
    by (eapply Forall_impl; [exact Hl|]; intros c; apply is_upper_not_digit).
  rewrite (filter_chars_all is_digit digits) by exact Hd.
  change ("" +:+ string_of_list_ascii digits) with (string_of_list_ascii digits).
  rewrite py_int_digits by assumption.
  assert (Happ : forall s, s +:+ "" = s)
    by (induction s as [|a s IH]; [reflexivity|];
        change (String a s +:+ "") with (String a (s +:+ "")); congruence).
  rewrite Happ, list_ascii_of_string_of_list_ascii.
  rewrite col_loop_base26, digits_val_decimal. reflexivity.
Qed.

Lemma decode_cell_reference_witness :
  decode (string_of_list_ascii (list_ascii_of_string "BC" ++ list_ascii_of_string "07"))
  = Some (7%Z, 55%Z).
Proof.
  destruct decode_cell_reference as [H _].
  rewrite (H (list_ascii_of_string "BC") (list_ascii_of_string "07")).
  - reflexivity.
  - repeat constructor.
  - repeat constructor.
  - discriminate.
Defined.

End CellRefFacts.

(** ** Facts about [keep_first] *)

Section KeepFirst.
Context {A K : Type} `{EqDecision K} (key : A -> K).

(** The rows kept are rows of the input, in the order of the input. *)
Lemma keep_first_sublist seen l : sublist (keep_first key seen l) l.
Proof.
  revert seen. induction l as [|x l IH]; intros seen; simpl; [constructor|].
  destruct (decide (key x ∈ seen)).
  - apply sublist_cons, IH.
  - apply sublist_skip, IH.
Qed.

Lemma keep_first_not_seen seen l x :
  x ∈ keep_first key seen l -> key x ∉ seen.
Proof.
  revert seen. induction l as [|y l IH]; intros seen; simpl; [intros H; inversion H|].
  destruct (decide (key y ∈ seen)) as [Hin|Hnin].
  - apply IH.
  - intros [->|H]%elem_of_cons; [exact Hnin|].
    apply IH in H. intros Hs. apply H. right. exact Hs.
Qed.

(** No two rows kept have the same key. *)
Lemma keep_first_NoDup seen l : NoDup (key <$> keep_first key seen l).
Proof.
  revert seen. induction l as [|x l IH]; intros seen; simpl; [constructor|].
  destruct (decide (key x ∈ seen)); [apply IH|].
  rewrite fmap_cons. constructor; [|apply IH].
  intros (y & Hy & Hin)%list_elem_of_fmap.
  apply keep_first_not_seen in Hin. apply Hin. rewrite Hy. left.
Qed.


Lemma first_with_cons k x l :
  first_with key k (x :: l) = if decide (key x = k) then Some x else first_with key k l.
Proof.
  unfold first_with. simpl. destruct (decide (key x = k)); [reflexivity|].
  destruct (list_find _ l) as [[i y]|]; reflexivity.
Qed.


(** Conversely the first row with a key that occurs is kept. *)
Lemma keep_first_keeps_first seen l k x :
  first_with key k l = Some x -> k ∉ seen -> x ∈ keep_first key seen l.
Proof.
  revert seen. induction l as [|y l IH]; intros seen; [discriminate|].
  rewrite first_with_cons. simpl.
  destruct (decide (key y = k)) as [Heq|Hne].
  - intros [= ->] Hk. rewrite decide_False by (rewrite Heq; exact Hk). left.
  - intros Hf Hk. destruct (decide (key y ∈ seen)).
    + apply IH; assumption.
    + right. apply IH; [exact Hf|].
      intros [?|?]%elem_of_cons; [congruence|contradiction].
Qed.

Lemma first_with_Some k l x : first_with key k l = Some x -> x ∈ l /\ key x = k.
Proof.
  unfold first_with. destruct (list_find _ l) as [[i y]|] eqn:E; [|discriminate].
  intros [= <-]. apply list_find_Some in E as (Hi & Hk & _).
  split; [eapply list_elem_of_lookup_2, Hi|exact Hk].
Qed.

Lemma first_with_None k l : first_with key k l = None -> forall x, x ∈ l -> key x <> k.
Proof.
  unfold first_with. destruct (list_find _ l) as [[i y]|] eqn:E; [discriminate|].
  intros _ x Hx. apply list_find_None in E.
  rewrite Forall_forall in E. apply E, Hx.
Qed.



End KeepFirst.

(** ** TableCleaner *)

Module CleanerFacts.
Import PyStr Cleaner Examples.

Section WithFloatStr.
Context `{FloatStr}.

(** The rows dropped by the mask are those whose second cell is
    missing, or has a text that is empty once stripped, or is the text
    [nan] once stripped. *)
Lemma blank_key_spec v :
  blank_key v = true <->
  v = SNaN \/ strip (py_str v) = "" \/ strip (py_str v) = "nan".
Proof.
  unfold blank_key. rewrite !orb_true_iff, !String.eqb_eq.
  destruct v; simpl; intuition congruence.
Qed.

Lemma columns_clean_strings df : columns (clean_strings df) = columns df.
Proof. reflexivity. Qed.

Lemma columns_drop_duplicates df : columns (drop_duplicates df) = columns df.
Proof. unfold drop_duplicates. destruct (is_empty df); reflexivity. Qed.

Lemma rows_drop_duplicates df :
  columns df <> [] ->
  rows (drop_duplicates df) = keep_first (map cell_key) [] (rows df).
Proof.
  intros Hc. unfold drop_duplicates, is_empty.
  destruct (columns df) as [|c cs] eqn:Ec; [congruence|].
  destruct (rows df) as [|r rs] eqn:Er; [rewrite Er|]; reflexivity.
Qed.

Lemma columns_clean df : columns (_clean_dataframe df) = columns df.
Proof.
  unfold _clean_dataframe. destruct (is_empty df); [reflexivity|].
  rewrite columns_drop_duplicates.
  destruct (2 <=? length (columns (clean_strings df)))%nat; reflexivity.
Qed.

(** The rows of the cleaned frame, for a frame of two columns or more. *)
Lemma rows_clean df :
  (2 <= length (columns df))%nat ->
  rows (_clean_dataframe df)
  = keep_first (map cell_key) []
      (filter (fun r => blank_key (second_cell r) = false) (rows (clean_strings df))).
Proof.
  intros H2. unfold _clean_dataframe.
  assert (Hc : columns df <> []) by (destruct (columns df); simpl in *; [lia|congruence]).
  destruct (is_empty df) eqn:E.
  - unfold is_empty in E. destruct (columns df); [congruence|].
    destruct (rows df) eqn:Er; [|discriminate]. simpl. rewrite Er. reflexivity.
  - rewrite columns_clean_strings.
    destruct (Nat.leb_spec 2 (length (columns df))) as [_|?]; [|lia].
    rewrite rows_drop_duplicates by exact Hc. reflexivity.
Qed.

Lemma imap_empty_rows {A} (f : nat -> A -> A) (rs : list (list A)) :
  Forall (fun r => length r = 0%nat) rs -> map (imap f) rs = rs.
Proof.
  induction 1 as [|r rs Hr _ IH]; [reflexivity|].
  simpl. rewrite IH. destruct r; [reflexivity|discriminate].
Qed.

Lemma clean_strings_narrow df :
  well_formed df -> columns df = [] -> clean_strings df = df.
Proof.
  intros Hw Hc. destruct df as [cs rs]. simpl in *. subst cs.
  unfold clean_strings. simpl. f_equal. apply imap_empty_rows, Hw.
Qed.

(** C4. In a frame of two columns or more, once the text cells are
    stripped and freed of quotes, the cleaner drops exactly the rows
    whose second cell is missing, empty or white once stripped, or the
    text [nan]; then it drops the rows that repeat an earlier row.
    The rows left stand in their former order.  A frame of fewer than
    two columns is only freed of its repeated rows. *)
Theorem clean_dataframe_filters_and_dedups (df : DataFrame) :
  well_formed df ->
  let cleaned := clean_strings df in
  let kept := filter (fun r => blank_key (second_cell r) = false) (rows cleaned) in
  columns (_clean_dataframe df) = columns df
  /\ ((2 <= length (columns df))%nat ->
      (forall r, r ∈ kept <->
                 r ∈ rows cleaned
                 /\ second_cell r <> SNaN
                 /\ strip (py_str (second_cell r)) <> ""
                 /\ strip (py_str (second_cell r)) <> "nan")
      /\ rows (_clean_dataframe df) = keep_first (map cell_key) [] kept
      /\ sublist (rows (_clean_dataframe df)) kept
      /\ sublist kept (rows cleaned)
      /\ NoDup (map cell_key <$> rows (_clean_dataframe df))
      /\ (forall r, r ∈ kept ->
            first_with (map cell_key) (map cell_key r) kept
            ∈ Some <$> rows (_clean_dataframe df)))
  /\ ((length (columns df) < 2)%nat ->
      _clean_dataframe df = drop_duplicates cleaned).
Proof.
  intros Hw cleaned kept. split; [apply columns_clean|]. split.
  - intros H2. pose proof (rows_clean df H2) as Hrows. fold cleaned kept in Hrows.
    split; [|split; [exact Hrows|rewrite Hrows; repeat split]].
    + intros r. unfold kept. rewrite list_elem_of_filter.
      rewrite <- not_true_iff_false, blank_key_spec. tauto.
    + apply keep_first_sublist.
    + apply sublist_filter.
    + apply keep_first_NoDup.
    + intros r Hr.
      destruct (first_with (map cell_key) (map cell_key r) kept) as [x|] eqn:E.
      * apply list_elem_of_fmap. exists x. split; [reflexivity|].
        eapply keep_first_keeps_first; [exact E|apply not_elem_of_nil].
      * exfalso. eapply first_with_None; [exact E|exact Hr|reflexivity].
  - intros H2. unfold _clean_dataframe. fold cleaned.
    destruct (is_empty df) eqn:E.
    + unfold is_empty in E. unfold drop_duplicates.
      destruct (columns df) as [|c cs] eqn:Ec.
      * unfold cleaned. rewrite clean_strings_narrow by assumption.
        unfold is_empty. rewrite Ec. reflexivity.
      * destruct (rows df) eqn:Er; [|discriminate].
        assert (Hcl : cleaned = df).
        { unfold cleaned, clean_strings. rewrite Er. simpl.
          destruct df; simpl in *; congruence. }
        rewrite Hcl. unfold is_empty. rewrite Ec, Er. reflexivity.
    + unfold cleaned at 1. rewrite columns_clean_strings.
      destruct (Nat.leb_spec 2 (length (columns df))) as [?|_]; [lia|]. reflexivity.
Qed.

(** *** Where the cleaner raises *)

Lemma count_label_NoDup (col : string) (l : list string) :
  NoDup l -> (length (filter (fun y => y = col) l) <= 1)%nat.
Proof.
  induction 1 as [|y l Hy _ IH]; [simpl; lia|].
  rewrite filter_cons. destruct (decide (y = col)) as [->|_]; [|exact IH].
  destruct (filter (fun y => y = col) l) as [|z l'] eqn:E; [simpl; lia|].
  assert (Hz : z ∈ filter (fun y => y = col) l) by (rewrite E; left).
  apply list_elem_of_filter in Hz as [-> Hz]. contradiction.
Qed.

Lemma repeated_NoDup col df : NoDup (columns df) -> repeated col df = false.
Proof.
  intros Hnd. unfold repeated. apply Nat.ltb_ge, count_label_NoDup, Hnd.
Qed.

(** When the cleaner returns, it returns the cleaned frame. *)
Lemma clean_dataframe_run_returns df d :
  _clean_dataframe_run df = Return d -> d = _clean_dataframe df.
Proof.
  unfold _clean_dataframe_run, _clean_dataframe, clean_strings_run, drop_blank_keys_run.
  destruct (is_empty df); [congruence|].
  destruct (existsb _ (string_columns df)); [discriminate|].
  rewrite columns_clean_strings.
  destruct (Nat.leb_spec 2 (length (columns df))) as [H2|_]; [|congruence].
  destruct (columns df !! 1%nat) as [second_col|] eqn:E.
  - destruct (repeated second_col (clean_strings df)); [discriminate|congruence].
  - apply lookup_ge_None in E. lia.
Qed.

(** It raises exactly on a frame, not empty, in which a column of texts
    or the second column bears a label that another column bears too. *)
Lemma clean_dataframe_run_raises df :
  (exists e, _clean_dataframe_run df = Raise e) <->
  is_empty df = false
  /\ ((exists col, col ∈ string_columns df /\ repeated col df = true)
      \/ (exists second_col, columns df !! 1%nat = Some second_col
                              /\ repeated second_col df = true)).
Proof.
  unfold _clean_dataframe_run, clean_strings_run, drop_blank_keys_run.
  destruct (is_empty df).
  { split; [intros (e & He); discriminate|intros [? _]; discriminate]. }
  destruct (existsb (fun col => repeated col df) (string_columns df)) eqn:Ex.
  { split; [|intros _; eexists; reflexivity]. intros _. split; [reflexivity|]. left.
    apply existsb_exists in Ex as (col & Hin & Hrep). exists col.
    split; [apply list_elem_of_In, Hin|exact Hrep]. }
  assert (Hno : ~ exists col, col ∈ string_columns df /\ repeated col df = true).
  { intros (col & Hin & Hrep).
    assert (Ht : existsb (fun col => repeated col df) (string_columns df) = true).
    { apply existsb_exists. exists col. split; [apply list_elem_of_In, Hin|exact Hrep]. }
    congruence. }
  rewrite columns_clean_strings.
  destruct (Nat.leb_spec 2 (length (columns df))) as [H2|H2].
  - destruct (columns df !! 1%nat) as [second_col|] eqn:E.
    + change (repeated second_col (clean_strings df)) with (repeated second_col df).
      destruct (repeated second_col df) eqn:Hr.
      * split; [|intros _; eexists; reflexivity]. intros _. split; [reflexivity|].
        right. exists second_col. split; [reflexivity|exact Hr].
      * split; [intros (e & He); discriminate|].
        intros [_ [H1|(c & [= <-] & Hc)]]; [contradiction|congruence].
    + apply lookup_ge_None in E. lia.
  - split; [intros (e & He); discriminate|].
    intros [_ [H1|(c & Hc & _)]]; [contradiction|].
    apply lookup_lt_Some in Hc. lia.
Qed.

(** On a frame whose labels are distinct the cleaner returns. *)
Lemma clean_dataframe_run_distinct df :
  NoDup (columns df) -> _clean_dataframe_run df = Return (_clean_dataframe df).
Proof.
  intros Hnd. destruct (_clean_dataframe_run df) as [d|e] eqn:E.
  - f_equal. apply clean_dataframe_run_returns, E.
  - assert (Hr : exists e, _clean_dataframe_run df = Raise e) by (eexists; exact E).
    apply clean_dataframe_run_raises in Hr as [_ [(col & _ & Hc)|(col & _ & Hc)]];
      rewrite repeated_NoDup in Hc by exact Hnd; discriminate.
Qed.

End WithFloatStr.

Lemma clean_dataframe_filters_and_dedups_witness :
  well_formed sample
  /\ rows (@_clean_dataframe example_float_str sample)
     = [[SText "tea"; SText "T1"; SInt 4]; [SText "rice"; SText "R2"; SInt 0]]
  /\ sublist (rows (@_clean_dataframe example_float_str sample))
       (filter (fun r => @blank_key example_float_str (second_cell r) = false)
               (rows (@clean_strings example_float_str sample))).
Proof.
  assert (Hw : well_formed sample) by (repeat constructor).
  split; [exact Hw|]. split; [reflexivity|].
  destruct (@clean_dataframe_filters_and_dedups example_float_str sample Hw)
    as (_ & H2 & _).
  destruct H2 as (_ & _ & Hs & _); [simpl; lia|]. exact Hs.
Defined.

End CleanerFacts.

(** ** TableExtractor *)

Module ExtractorFacts.
Import PyStr Extractor Examples.

Section WithParsers.
Context {bytes : Type} `{Parsers bytes} `{FloatStr}.

Lemma clean_empty_frame df : is_empty df = true -> Cleaner._clean_dataframe df = df.
Proof. unfold Cleaner._clean_dataframe. intros ->. reflexivity. Qed.

(** What [first_non_empty] returns: the empty table when every table
    is empty, else the first table that is not. *)
Lemma first_non_empty_spec l :
  (Forall (fun df => is_empty df = true) l /\ first_non_empty l = empty_frame)
  \/ (exists before df after,
        l = (before ++ df :: after)%list
        /\ Forall (fun d => is_empty d = true) before
        /\ is_empty df = false
        /\ first_non_empty l = df).
Proof.
  induction l as [|d l IH]; [left; split; [constructor|reflexivity]|].
  simpl. destruct (is_empty d) eqn:E.
  - destruct IH as [[Hall Hf]|(before & df & after & -> & Hb & Hdf & Hf)].
    + left. split; [constructor; assumption|exact Hf].
    + right. exists (d :: before), df, after.
      repeat split; [constructor; assumption|exact Hdf|exact Hf].
  - right. exists [], d, l. repeat split; [constructor|exact E].
Qed.

(** Where the cleaning of the first table that is not empty returns,
    the function returns that table cleaned: the first among the
    results of the modern parser, of the legacy parser when the name
    ends in [.xls], and of the archive recovery, tried in this order, a
    parser that raises counting as an empty table.  When all are empty,
    and when the download raises, it returns the empty table. *)
Lemma read_excel_file_robust_chain
    (download : outcome bytes) (filename : string) (header_row : Z) :
  (forall file_stream, download = Return file_stream ->
     exists d, Cleaner._clean_dataframe_run
                 (TableExtractor file_stream filename header_row) = Return d) ->
  _read_excel_file_robust download filename header_row
  = match download with
    | Return file_stream =>
        Cleaner._clean_dataframe (TableExtractor file_stream filename header_row)
    | Raise _ => empty_frame
    end.
Proof.
  destruct download as [file_stream|e]; [|reflexivity]. intros Hclean.
  destruct (Hclean file_stream eq_refl) as (d & Hd). clear Hclean.
  pose proof (CleanerFacts.clean_dataframe_run_returns _ _ Hd) as Hret.
  revert Hd Hret.
  unfold _read_excel_file_robust, read_robust, TableExtractor, strategies, try_engine.
  cbn [map app first_non_empty]. unfold modern_strategy, legacy_strategy, archive_strategy.
  set (recovered := Recovery._try_raw_xml_extraction (open_archive file_stream) header_row).
  assert (Hlast : forall d0,
            Cleaner._clean_dataframe_run (if is_empty recovered then empty_frame else recovered)
            = Return d0 ->
            match (if negb (is_empty recovered) then Cleaner._clean_dataframe_run recovered
                   else Return empty_frame) with
            | Return df => df
            | Raise _ => empty_frame
            end = d0).
  { intros d0. destruct (is_empty recovered); cbn [negb].
    - intros [= <-]. reflexivity.
    - intros ->. reflexivity. }
  assert (Hlegacy : forall d0,
            Cleaner._clean_dataframe_run
              (first_non_empty
                 (map (fun strategy : bytes -> Z -> DataFrame => strategy file_stream header_row)
                    ((if endswith ".xls" (lower filename) then [legacy_strategy] else [])
                     ++ [archive_strategy])%list)) = Return d0 ->
            match
              match
                (if endswith ".xls" (lower filename)
                 then
                   match read_excel file_stream xlrd (header_arg header_row) with
                   | Return df =>
                       if negb (is_empty df)
                       then match Cleaner._clean_dataframe_run df with
                            | Return df0 => Some df0
                            | Raise _ => None
                            end
                       else None
                   | Raise _ => None
                   end
                 else None)
              with
              | Some df => Return df
              | None =>
                  if negb (is_empty recovered) then Cleaner._clean_dataframe_run recovered
                  else Return empty_frame
              end
            with
            | Return df => df
            | Raise _ => empty_frame
            end = d0).
  { intros d0. destruct (endswith ".xls" (lower filename)); cbn [map app first_non_empty].
    - unfold legacy_strategy, archive_strategy. fold recovered.
      destruct (read_excel file_stream xlrd (header_arg header_row)) as [d2|e2].
      + destruct (is_empty d2); cbn [negb]; [apply Hlast|].
        intros ->. reflexivity.
      + change (is_empty empty_frame) with true. cbn iota. apply Hlast.
    - unfold archive_strategy. fold recovered. apply Hlast. }
  destruct (read_excel file_stream openpyxl (header_arg header_row)) as [d1|e1].
  - destruct (is_empty d1); cbn [negb].
    + intros Hd ->. apply Hlegacy, Hd.
    + intros Hd ->. rewrite Hd. reflexivity.
  - change (is_empty empty_frame) with true. cbn iota.
    intros Hd ->. apply Hlegacy, Hd.
Qed.

End WithParsers.

(** C3, where the code leaves the specification.  A workbook that the
    structured parsers refuse, whose worksheet repeats a text in its
    header row: the archive recovery yields a table that is not empty,
    the first such table of the chain, but its two columns bear one
    label, the cleaning of it raises, the outer handler takes the
    exception, and the function returns the empty table. *)
Theorem repeated_header_table_lost :
  let recovered := mkDataFrame ["Qty"; "Qty"] [[SInt 5; SText "tea"]] in
  @Recovery._try_raw_xml_extraction example_float_str
     (Some (Recovery.mkArchive [] (Some repeated_header_cells))) 0 = recovered
  /\ is_empty recovered = false
  /\ @TableExtractor string damaged_parsers example_float_str "book" "grn.xlsx" 0
     = recovered
  /\ @Cleaner._clean_dataframe_run example_float_str recovered
     = Raise Cleaner.attribute_error
  /\ @read_robust string damaged_parsers example_float_str "book" "grn.xlsx" 0
     = Raise Cleaner.attribute_error
  /\ @_read_excel_file_robust string damaged_parsers example_float_str
       (Return "book") "grn.xlsx" 0 = empty_frame.
Proof.
  intros recovered. repeat split; vm_compute; reflexivity.
Qed.

End ExtractorFacts.

(** ** ArchiveTableRecovery: the header row *)

Module RecoveryFacts.
Import PyStr Recovery.

Section WithFloatStr.
Context `{FloatStr}.

(** With the sentinel every row of the grid is data and the columns are
    named after their positions, as many as the first row has cells. *)
Lemma apply_header_sentinel first rest :
  apply_header (first :: rest) (-1)
  = Some (mkDataFrame (map column_name (seq 0 (length first))) (first :: rest)).
Proof.
  unfold apply_header. change (Z.max 1 (-1 + 2)) with 1%Z.
  destruct (Z.ltb_spec (Z.of_nat (length (first :: rest))) 1) as [Hlt|_];
    [simpl in Hlt; lia|]. reflexivity.
Qed.

(** A grid of three rows of four cells. *)
Lemma apply_header_sentinel_3_by_4 data :
  length data = 3%nat -> Forall (fun r => length r = 4%nat) data ->
  apply_header data (-1)
  = Some (mkDataFrame ["Column_1"; "Column_2"; "Column_3"; "Column_4"] data)
  /\ length data = 3%nat.
Proof.
  intros H3 H4. split; [|exact H3].
  destruct data as [|first rest]; [discriminate|].
  rewrite apply_header_sentinel. apply Forall_cons_1 in H4 as [-> _]. reflexivity.
Qed.

(** A grid too short for the header and one data row gives the empty
    table. *)
Lemma apply_header_short data header_row :
  (Z.of_nat (length data) < Z.max 1 (header_row + 2))%Z ->
  apply_header data header_row = Some empty_frame.
Proof.
  intros Hlt. unfold apply_header.
  destruct (Z.ltb_spec (Z.of_nat (length data)) (Z.max 1 (header_row + 2)));
    [reflexivity|lia].
Qed.

(** With a row index the row at the index gives the names and the rows
    after it are the data. *)
Lemma apply_header_index data header_row :
  (0 <= header_row)%Z ->
  (header_row + 2 <= Z.of_nat (length data))%Z ->
  exists header,
    data !! Z.to_nat header_row = Some header
    /\ apply_header data header_row
       = Some (mkDataFrame (header_names header)
                           (drop (S (Z.to_nat header_row)) data)).
Proof.
  intros H0 Hlen.
  destruct (lookup_lt_is_Some_2 data (Z.to_nat header_row)) as [header Hh]; [lia|].
  exists header. split; [exact Hh|]. unfold apply_header.
  destruct (Z.ltb_spec (Z.of_nat (length data)) (Z.max 1 (header_row + 2)));
    [lia|].
  destruct (Z.eqb_spec header_row (-1)); [lia|].
  destruct (Z.ltb_spec header_row (Z.of_nat (length data))); [|lia].
  unfold py_index, py_slice_from.
  destruct (Z.leb_spec 0 header_row); [|lia].
  destruct (Z.leb_spec 0 (header_row + 1)); [|lia].
  rewrite Hh. repeat f_equal. lia.
Qed.

(** The name of a column under a header row: the text of the cell when
    the cell counts as true, the synthesized name otherwise. *)
Lemma header_names_lookup row i :
  header_names row !! i
  = (fun h => if truthy h then py_str h else column_name i) <$> row !! i.
Proof. unfold header_names. apply list_lookup_imap. Qed.

(** A blank cell gets the synthesized name. *)
Lemma header_names_blank row i :
  row !! i = Some (SText "") -> header_names row !! i = Some (column_name i).
Proof. intros Hi. rewrite header_names_lookup, Hi. reflexivity. Qed.

(** On a row without a numeric zero the header is the one the
    specification describes. *)
Lemma header_names_spec row :
  Forall (fun h => h <> SNaN /\ (is_blank_cell h = false -> truthy h = true)) row ->
  header_names row = spec_header_names row.
Proof.
  intros Hrow. unfold header_names, spec_header_names.
  apply list_eq. intros i. rewrite !list_lookup_imap.
  destruct (row !! i) as [h|] eqn:Hi; [|reflexivity]. simpl. f_equal.
  rewrite Forall_forall in Hrow.
  destruct (Hrow h (list_elem_of_lookup_2 _ _ _ Hi)) as [Hn Ht].
  destruct h as [z|q|s|]; simpl in *; try congruence.
  - rewrite Ht; reflexivity.
  - rewrite Ht; reflexivity.
  - destruct (String.eqb s ""); reflexivity.
Qed.

(** C7, where the code leaves the specification.  The worksheet
    [A1 = 0, B1 = Item, A2 = 5, B2 = tea] read with the first row as
    header: the cell [0] is not blank and the header should carry its
    text, but the test [if h] takes the number zero for a blank and
    the column is named [Column_1].  The sibling test of the
    compaction, on the texts read from the sheet, keeps a header [0]. *)
Theorem header_zero_cell_renamed :
  let cells := [mkCell "A1" "" "0" ""; mkCell "B1" "" "" "Item";
                mkCell "A2" "" "5" ""; mkCell "B2" "" "" "tea"] in
  let grid := [[SInt 0; SText "Item"]; [SInt 5; SText "tea"]] in
  _try_raw_xml_extraction (Some (mkArchive [] (Some cells))) 0
  = mkDataFrame ["Column_1"; "Item"] [[SInt 5; SText "tea"]]
  /\ apply_header grid 0
     = Some (mkDataFrame ["Column_1"; "Item"] [[SInt 5; SText "tea"]])
  /\ spec_header_names [SInt 0; SText "Item"] = ["0"; "Item"]
  /\ header_names [SInt 0; SText "Item"] <> spec_header_names [SInt 0; SText "Item"]
  /\ Compaction.rebuild_headers ["0"; "Item"] = ["0"; "Item"].
Proof.
  intros cells grid. split; [vm_compute; reflexivity|].
  split; [reflexivity|]. split; [reflexivity|]. split; [discriminate|reflexivity].
Qed.

End WithFloatStr.

End RecoveryFacts.

(** ** CompactionPass *)

Module CompactionFacts.
Import PyStr Sheets Cleaner Compaction Examples.

Lemma rows_prune df :
  map (map process_value) (rows (prune df))
  = rewritten df <$> filter (fun r => entirely_blank r = false) (rows df).
Proof.
  unfold prune, rewritten, entirely_blank. simpl.
  set (keep := keeps_column _).
  rewrite <- !list_fmap_compose.
  induction (rows df) as [|r l IH]; [reflexivity|].
  rewrite fmap_cons, !filter_cons. simpl.
  destruct (decide (forallb Cleaner.isna (map blank_to_na r) = false)) as [E|E].
  - rewrite fmap_cons. simpl. f_equal. exact IH.
  - exact IH.
Qed.

Lemma length_rows_prune df :
  length (rows (prune df))
  = length (filter (fun r => entirely_blank r = false) (rows df)).
Proof.
  rewrite <- (length_fmap (map process_value)), rows_prune, length_fmap.
  reflexivity.
Qed.

Lemma rows_sort_by_PoNo df df' :
  sort_by_PoNo df = Return df' -> columns df' = columns df /\ rows df' ≡ₚ rows df.
Proof.
  unfold sort_by_PoNo.
  destruct (bool_decide ("PoNo" ∈ columns df)); [|intros [= <-]; split; reflexivity].
  destruct (bool_decide _); [|discriminate].
  intros [= <-]. split; [reflexivity|]. simpl. apply merge_sort_Permutation.
Qed.

(** Without a [PoNo] column the sort is skipped. *)
Lemma sort_by_PoNo_absent df : "PoNo" ∉ columns df -> sort_by_PoNo df = Return df.
Proof.
  intros Hno. unfold sort_by_PoNo. rewrite bool_decide_eq_false_2 by exact Hno.
  reflexivity.
Qed.

(** With one [PoNo] column the rows are sorted by it. *)
Lemma sort_by_PoNo_present df :
  length (filter (fun l => l = "PoNo") (columns df)) = 1%nat ->
  exists sorted,
    sort_by_PoNo df = Return (mkDataFrame (columns df) sorted)
    /\ sorted ≡ₚ rows df
    /\ Sorted (by_text (cell_under "PoNo" (columns df))) sorted.
Proof.
  intros H1. unfold sort_by_PoNo.
  assert (Hin : "PoNo" ∈ columns df).
  { destruct (filter _ (columns df)) as [|x l] eqn:E; [discriminate|].
    assert (Hx : x ∈ filter (fun l => l = "PoNo") (columns df)) by (rewrite E; left).
    apply list_elem_of_filter in Hx as [-> Hx]. exact Hx. }
  rewrite bool_decide_eq_true_2 by exact Hin.
  rewrite bool_decide_eq_true_2 by exact H1.
  eexists. split; [reflexivity|]. split; [apply merge_sort_Permutation|].
  apply Sorted_merge_sort. intros r1 r2. unfold by_text.
  destruct (String.leb (cell_under "PoNo" (columns df) r1)
                       (cell_under "PoNo" (columns df) r2)) eqn:E; [left; reflexivity|].
  right. unfold String.leb in *.
  rewrite String.compare_antisym.
  destruct (cell_under "PoNo" (columns df) r1 ?= cell_under "PoNo" (columns df) r2)%string;
    simpl; congruence.
Qed.

Lemma has_key_columns_false df :
  has_key_columns df = false -> drop_duplicate_keys df = df.
Proof. unfold drop_duplicate_keys. intros ->. reflexivity. Qed.


Lemma columns_drop_duplicate_keys df :
  columns (drop_duplicate_keys df) = columns df.
Proof. unfold drop_duplicate_keys. destruct (has_key_columns df); reflexivity. Qed.

(** What [compact] returns, step by step. *)
Lemma compact_steps values :
  compact values
  = match sort_by_PoNo (prune (drop_duplicate_keys (load values))) with
    | Raise e => Raise e
    | Return df =>
        Return (mkRewrite (serialise df)
                  (length (rows (load values))
                   - length (rows (drop_duplicate_keys (load values))))
                  (length (rows (drop_duplicate_keys (load values)))
                   - length (rows (prune (drop_duplicate_keys (load values))))))
    end.
Proof. reflexivity. Qed.

(** *** Columns with distinct labels *)

Lemma select_cons {A} (keep : nat -> bool) (x : A) l :
  select keep (x :: l)
  = ((if keep 0%nat then [x] else []) ++ select (fun j => keep (S j)) l)%list.
Proof. unfold select. simpl. destruct (keep 0%nat); reflexivity. Qed.

Lemma select_sublist {A} (keep : nat -> bool) (l : list A) : sublist (select keep l) l.
Proof.
  revert keep. induction l as [|x l IH]; intros keep; [constructor|].
  rewrite select_cons. destruct (keep 0%nat); simpl.
  - apply sublist_skip, IH.
  - apply sublist_cons, IH.
Qed.

Lemma columns_prune df : sublist (columns (prune df)) (columns df).
Proof. unfold prune. simpl. apply select_sublist. Qed.

Lemma filter_eq_NoDup (x : string) l :
  NoDup l -> x ∈ l -> length (filter (fun y => y = x) l) = 1%nat.
Proof.
  induction 1 as [|y l Hy Hl IH]; [intros H; inversion H|].
  rewrite filter_cons. destruct (decide (y = x)) as [->|Hne].
  - intros _. simpl. f_equal.
    destruct (filter _ l) as [|z l'] eqn:E; [reflexivity|].
    assert (Hz : z ∈ filter (fun y => y = x) l) by (rewrite E; left).
    apply list_elem_of_filter in Hz as [-> Hz]. contradiction.
  - intros [?|Hx]%elem_of_cons; [congruence|]. apply IH, Hx.
Qed.

(** With distinct labels the sort does not raise and [compact] returns. *)
Lemma compact_returns values :
  NoDup (columns (load values)) -> exists out, compact values = Return out.
Proof.
  intros Hnd. rewrite compact_steps.
  set (d := prune (drop_duplicate_keys (load values))).
  assert (Hd : NoDup (columns d)).
  { eapply sublist_NoDup; [|apply columns_prune].
    rewrite columns_drop_duplicate_keys. exact Hnd. }
  destruct (decide ("PoNo" ∈ columns d)) as [Hin|Hno].
  - destruct (sort_by_PoNo_present d) as (sorted & -> & _).
    + apply filter_eq_NoDup; assumption.
    + eexists. reflexivity.
  - rewrite sort_by_PoNo_absent by exact Hno. eexists. reflexivity.
Qed.

(** *** The pruning, column by column *)

Lemma select_ext {A} (k1 k2 : nat -> bool) (l : list A) :
  (forall j, k1 j = k2 j) -> select k1 l = select k2 l.
Proof.
  intros E. unfold select. f_equal. apply imap_ext. intros j x _. rewrite E. reflexivity.
Qed.

Lemma select_map {A B} (keep : nat -> bool) (f : A -> B) (l : list A) :
  select keep (map f l) = map f (select keep l).
Proof.
  revert keep. induction l as [|x l IH]; intros keep; [reflexivity|].
  simpl. rewrite !select_cons, IH, map_app. destruct (keep 0%nat); reflexivity.
Qed.

Lemma isna_blank_to_na v : isna (blank_to_na v) = blank_cell v.
Proof. destruct v as [| |s|]; simpl; try reflexivity. destruct (is_blank s); reflexivity. Qed.

Lemma entirely_blank_cell r j :
  entirely_blank r = true -> blank_cell (default SNaN (r !! j)) = true.
Proof.
  unfold entirely_blank. rewrite forallb_forall. intros Hall.
  destruct (r !! j) as [v|] eqn:E; [|reflexivity]. simpl.
  rewrite <- isna_blank_to_na. apply Hall, in_map, list_elem_of_In.
  eapply list_elem_of_lookup_2, E.
Qed.

(** A column is kept exactly when some row has a value in it. *)
Lemma keeps_column_pruned df j :
  keeps_column (dropna_rows (map_cells blank_to_na df)) j = negb (blank_column df j).
Proof.
  unfold keeps_column, blank_column, column_cells, dropna_rows, map_cells. simpl.
  induction (rows df) as [|r rs IH]; [reflexivity|].
  simpl. rewrite filter_cons.
  assert (Hcell : isna (default SNaN (map blank_to_na r !! j))
                  = blank_cell (default SNaN (r !! j))).
  { rewrite list_lookup_fmap. destruct (r !! j); simpl; [apply isna_blank_to_na|reflexivity]. }
  destruct (decide (forallb isna (map blank_to_na r) = false)) as [Hlive|Hblank].
  - simpl. rewrite IH, Hcell, negb_andb. reflexivity.
  - rewrite IH. apply not_false_is_true in Hblank.
    rewrite (entirely_blank_cell r j Hblank). reflexivity.
Qed.

Lemma text_cells_kept r :
  Forall (fun v => is_text v = true) r -> map na_to_blank (map blank_to_na r) = r.
Proof.
  induction 1 as [|v r Hv _ IH]; [reflexivity|]. simpl. rewrite IH. f_equal.
  destruct v as [| |s|]; try discriminate. simpl. unfold is_blank.
  destruct (String.eqb_spec s ""); subst; reflexivity.
Qed.

Lemma pruned_rows (keep : nat -> bool) (rs : list (list scalar)) :
  Forall (Forall (fun v => is_text v = true)) rs ->
  map (map na_to_blank)
    (map (select keep)
       (filter (fun r => forallb isna r = false) (map (map blank_to_na) rs)))
  = map (select keep) (filter (fun r => entirely_blank r = false) rs).
Proof.
  unfold entirely_blank. induction 1 as [|r rs Hr _ IH]; [reflexivity|].
  simpl. rewrite !filter_cons.
  destruct (decide (forallb isna (map blank_to_na r) = false)) as [Hlive|Hblank].
  - simpl. rewrite IH. f_equal.
    rewrite <- select_map, text_cells_kept by exact Hr. reflexivity.
  - exact IH.
Qed.

(** The pruning keeps the rows that are not entirely blank, and of
    these the cells under the columns that are not blank. *)
Lemma prune_keeps df :
  Forall (Forall (fun v => is_text v = true)) (rows df) ->
  prune df
  = mkDataFrame (select (fun j => negb (blank_column df j)) (columns df))
      (map (select (fun j => negb (blank_column df j)))
           (filter (fun r => entirely_blank r = false) (rows df))).
Proof.
  intros Htext. unfold prune, map_cells, dropna_columns. cbn [columns rows].
  assert (Hk : forall {A} (l : list A),
            select (keeps_column (dropna_rows (mkDataFrame (columns df)
                                                 (map (map blank_to_na) (rows df))))) l
            = select (fun j => negb (blank_column df j)) l).
  { intros A l. apply select_ext. intros j. apply keeps_column_pruned. }
  set (keep := keeps_column _) in *.
  unfold dropna_rows. cbn [columns rows].
  rewrite pruned_rows by exact Htext. rewrite Hk. f_equal.
  apply map_ext. intros r. apply Hk.
Qed.

Lemma load_text_cells (values : grid) :
  Forall (Forall (fun v => is_text v = true)) (rows (load values)).
Proof.
  unfold load. destruct (map _ values) as [|first data]; [constructor|]. simpl.
  apply Forall_fmap, Forall_true. intros r. apply Forall_fmap, Forall_true. reflexivity.
Qed.

Lemma drop_duplicate_keys_text_cells df :
  Forall (Forall (fun v => is_text v = true)) (rows df) ->
  Forall (Forall (fun v => is_text v = true)) (rows (drop_duplicate_keys df)).
Proof.
  intros Htext. unfold drop_duplicate_keys. destruct (has_key_columns df); [|exact Htext].
  simpl. rewrite Forall_forall in Htext |- *. intros r Hr. apply Htext.
  eapply elem_of_sublist; [exact Hr|apply keep_first_sublist].
Qed.

(** *** The sort, by the number of columns labelled [PoNo] *)

Lemma bearing_zero label labels : bearing label labels = 0%nat <-> label ∉ labels.
Proof.
  unfold bearing. split.
  - intros H0 Hin. apply length_zero_iff_nil in H0.
    assert (Hx : label ∈ filter (fun l => l = label) labels)
      by (apply list_elem_of_filter; split; [reflexivity|exact Hin]).
    rewrite H0 in Hx. inversion Hx.
  - intros Hno. destruct (filter _ labels) as [|x l] eqn:E; [reflexivity|].
    assert (Hx : x ∈ filter (fun l => l = label) labels) by (rewrite E; left).
    apply list_elem_of_filter in Hx as [-> Hx]. contradiction.
Qed.

Lemma sort_by_PoNo_several df :
  (1 < bearing "PoNo" (columns df))%nat ->
  sort_by_PoNo df = Raise "The column label 'PoNo' is not unique.".
Proof.
  intros H2. unfold sort_by_PoNo.
  assert (Hin : "PoNo" ∈ columns df).
  { destruct (decide ("PoNo" ∈ columns df)) as [?|Hno]; [assumption|].
    apply bearing_zero in Hno. lia. }
  rewrite bool_decide_eq_true_2 by exact Hin.
  rewrite bool_decide_eq_false_2 by (unfold bearing in H2; lia). reflexivity.
Qed.

(** When the pass raises nothing is written: the handler returns zero
    and the sheet is as it was. *)
Lemma compaction_raise_writes_nothing `{Faults} `{SheetFormat} w e :
  compact (get_A1_ZZ (sheet w)) = Raise e ->
  _remove_duplicates_from_sheet w = (Return 0%nat, w).
Proof.
  intros Hc. unfold _remove_duplicates_from_sheet, catch, bind, api_get, ret, raise.
  destruct (fault CompactGet); [reflexivity|].
  destruct (is_nil (get_A1_ZZ (sheet w))); [reflexivity|]. rewrite Hc. reflexivity.
Qed.

(** What the pass does with a table, by the number of columns labelled
    [PoNo] that the pruning leaves. *)
Lemma compact_cases (values : grid) :
  let deduped := drop_duplicate_keys (load values) in
  let live := filter (fun r => entirely_blank r = false) (rows deduped) in
  let kept := fun j => negb (blank_column deduped j) in
  let header := select kept (columns (load values)) in
  let removed_dup := (length (rows (load values)) - length (rows deduped))%nat in
  let removed_clean := (length (rows deduped) - length live)%nat in
  prune deduped = mkDataFrame header (map (select kept) live)
  /\ (bearing "PoNo" header = 0%nat ->
      compact values
      = Return (mkRewrite (map SText header :: map (map process_value) (map (select kept) live))
                  removed_dup removed_clean))
  /\ (bearing "PoNo" header = 1%nat ->
      exists sorted,
        compact values
        = Return (mkRewrite (map SText header :: map (map process_value) sorted)
                    removed_dup removed_clean)
        /\ sorted ≡ₚ map (select kept) live
        /\ Sorted (by_text (cell_under "PoNo" header)) sorted)
  /\ ((1 < bearing "PoNo" header)%nat ->
      compact values = Raise "The column label 'PoNo' is not unique.").
Proof.
  intros deduped live kept header removed_dup removed_clean.
  assert (Hp : prune deduped = mkDataFrame header (map (select kept) live)).
  { unfold header. rewrite <- (columns_drop_duplicate_keys (load values)).
    apply prune_keeps, drop_duplicate_keys_text_cells, load_text_cells. }
  assert (Hlen : length (rows (prune deduped)) = length live)
    by apply length_rows_prune.
  split; [exact Hp|].
  rewrite compact_steps. fold deduped. rewrite Hlen. fold removed_dup removed_clean.
  rewrite Hp. split; [|split].
  - intros H0. apply bearing_zero in H0.
    rewrite sort_by_PoNo_absent by exact H0. reflexivity.
  - intros H1. destruct (sort_by_PoNo_present (mkDataFrame header (map (select kept) live)) H1)
      as (sorted & -> & Hperm & Hsorted).
    exists sorted. split; [reflexivity|]. split; [exact Hperm|exact Hsorted].
  - intros H2. rewrite sort_by_PoNo_several by exact H2. reflexivity.
Qed.

(** *** Duplicate key pairs *)




(** *** Missing key columns *)

(** C9, as the code has it.  When a key column is missing the dedup step
    alone is skipped: no row is removed as a duplicate.  The pruning runs
    all the same: exactly the rows that are entirely blank and the
    columns that are blank are dropped.  The sort is skipped when no
    column labelled [PoNo] is left; with one such column the rows are
    sorted by the text under it; with several, which a sheet without
    [Skucode] may have, the sort raises: the pass writes nothing and
    returns zero. *)
Theorem compaction_without_key_columns (values : grid) :
  let df := load values in
  let live := filter (fun r => entirely_blank r = false) (rows df) in
  let kept := fun j => negb (blank_column df j) in
  let header := select kept (columns df) in
  has_key_columns df = false ->
  drop_duplicate_keys df = df
  /\ prune df = mkDataFrame header (map (select kept) live)
  /\ (bearing "PoNo" header = 0%nat ->
      compact values
      = Return (mkRewrite
                  (map SText header :: map (map process_value) (map (select kept) live))
                  0 (length (rows df) - length live)))
  /\ (bearing "PoNo" header = 1%nat ->
      exists sorted,
        compact values
        = Return (mkRewrite (map SText header :: map (map process_value) sorted)
                    0 (length (rows df) - length live))
        /\ sorted ≡ₚ map (select kept) live
        /\ Sorted (by_text (cell_under "PoNo" header)) sorted)
  /\ ((1 < bearing "PoNo" header)%nat ->
      compact values = Raise "The column label 'PoNo' is not unique."
      /\ forall (F : Faults) (S : SheetFormat) (w : world),
           get_A1_ZZ (sheet w) = values ->
           @_remove_duplicates_from_sheet F S w = (Return 0%nat, w)).
Proof.
  intros df live kept header Hk. pose proof (has_key_columns_false df Hk) as Hd.
  destruct (compact_cases values) as (Hp & H0 & H1 & H2).
  fold df in Hp, H0, H1, H2. rewrite Hd in Hp, H0, H1, H2.
  rewrite Nat.sub_diag in H0, H1. fold live kept header in Hp, H0, H1, H2.
  split; [exact Hd|]. split; [exact Hp|]. split; [exact H0|]. split; [exact H1|].
  intros Hseveral. pose proof (H2 Hseveral) as Hraise. split; [exact Hraise|].
  intros F S w Hw. eapply compaction_raise_writes_nothing. rewrite Hw. exact Hraise.
Qed.

Lemma compaction_without_key_columns_witness :
  has_key_columns (load gapped_sheet) = false
  /\ columns (load gapped_sheet) = ["Item"; "Column_2"; "PoNo"]
  /\ prune (load gapped_sheet)
     = mkDataFrame ["Item"; "PoNo"] [[SText "tea"; SText "2"]; [SText "oil"; SText "1"]]
  /\ exists sorted,
       compact gapped_sheet
       = Return (mkRewrite
                   ([SText "Item"; SText "PoNo"] :: map (map process_value) sorted) 0 1)
       /\ sorted ≡ₚ [[SText "tea"; SText "2"]; [SText "oil"; SText "1"]]
       /\ Sorted (by_text (cell_under "PoNo" ["Item"; "PoNo"])) sorted.
Proof.
  split; [reflexivity|]. split; [reflexivity|].
  destruct (compaction_without_key_columns gapped_sheet eq_refl)
    as (_ & Hprune & _ & Hone & _).
  split; [exact Hprune|].
  destruct Hone as (sorted & Hc & Hp & Hs); [reflexivity|].
  exists sorted. split; [exact Hc|]. split; [exact Hp|exact Hs].
Defined.

(** C9 as stated fails on this sheet: the key columns are absent, yet the
    blank row is pruned and the rows are sorted by [PoNo]; what is
    written is not the sheet as it was loaded. *)
Lemma compaction_prunes_and_sorts_counterexample :
  has_key_columns (load drifted_sheet) = false
  /\ compact drifted_sheet
     = Return (mkRewrite
                 [[SText "Item"; SText "PoNo"];
                  [SText "oil"; SInt 1]; [SText "tea"; SInt 2]; [SText "tea"; SInt 2]]
                 0 1)
  /\ ~ (forall out, compact drifted_sheet = Return out ->
          written out = serialise (load drifted_sheet)).
Proof.
  split; [reflexivity|]. split; [vm_compute; reflexivity|].
  intros Hc. specialize (Hc _ eq_refl). vm_compute in Hc. discriminate Hc.
Qed.

End CompactionFacts.

(** ** IngestionLedger *)

Module LedgerFacts.
Import PyStr Sheets Ledger Workflow.

Lemma is_blank_false s : is_blank s = false <-> s <> "".
Proof.
unfold is_blank. destruct (String.eqb_spec s ""); split; congruence.
Qed.

(** The names collected from the column [idx]: the stripped texts of its
    cells, the empty ones left out. *)
Lemma elem_of_collect idx (data : grid) name :
  name ∈ collect idx data <->
  exists row cell,
    row ∈ data /\ row !! idx = Some cell /\ strip cell = name /\ name <> "".
Proof.
induction data as [|row data IH]; simpl.
- split; [set_solver|]. intros (row & cell & Hin & _). inversion Hin.
- destruct (row !! idx) as [cell|] eqn:Hc.
  + destruct (is_blank (strip cell)) eqn:Hb.
    * rewrite IH. split.
      -- intros (r & c & Hr & Hrest). exists r, c. split; [right; exact Hr|exact Hrest].
      -- intros (r & c & [->|Hr]%elem_of_cons & Hlk & Hs & Hne).
         ++ rewrite Hc in Hlk. injection Hlk as <-.
            unfold is_blank in Hb. apply String.eqb_eq in Hb. congruence.
         ++ exists r, c. tauto.
    * rewrite elem_of_union, elem_of_singleton, IH. split.
      -- intros [->|(r & c & Hr & Hrest)].
         ++ exists row, cell. split; [left|]. split; [exact Hc|].
            split; [reflexivity|]. apply is_blank_false, Hb.
         ++ exists r, c. split; [right; exact Hr|exact Hrest].
      -- intros (r & c & [->|Hr]%elem_of_cons & Hlk & Hs & Hne).
         ++ rewrite Hc in Hlk. injection Hlk as <-. left. symmetry. exact Hs.
         ++ right. exists r, c. tauto.
  + rewrite IH. split.
    * intros (r & c & Hr & Hrest). exists r, c. split; [right; exact Hr|exact Hrest].
    * intros (r & c & [->|Hr]%elem_of_cons & Hlk & Hrest).
      -- rewrite Hc in Hlk. discriminate.
      -- exists r, c. tauto.
Qed.

(** The ledger of a sheet: the names under the tracking column in the
    rows after the header. *)
Lemma elem_of_source_files (values : grid) name :
  name ∈ source_files values <->
  exists headers data idx row cell,
    values = headers :: data
    /\ tracking_index headers = Some idx
    /\ row ∈ data /\ row !! idx = Some cell /\ strip cell = name /\ name <> "".
Proof.
unfold source_files. destruct values as [|headers data].
- split; [set_solver|]. intros (h & d & i & r & c & Hv & _). discriminate.
- destruct (tracking_index headers) as [idx|] eqn:Hi.
  + rewrite elem_of_collect. split.
    * intros (r & c & H). exists headers, data, idx, r, c. tauto.
    * intros (h & d & i & r & c & [= <- <-] & Hi' & H).
      rewrite Hi in Hi'. injection Hi' as <-. exists r, c. exact H.
  + split; [set_solver|].
    intros (h & d & i & r & c & [= <- <-] & Hi' & _). congruence.
Qed.

(** The tracking column is the first one whose header holds
    [source_file_name], in any case. *)
Lemma tracking_index_Some headers idx :
  tracking_index headers = Some idx <->
  exists header,
    headers !! idx = Some header
    /\ is_tracking_header header = true
    /\ forall j h, headers !! j = Some h -> (j < idx)%nat -> is_tracking_header h <> true.
Proof.
unfold tracking_index. split.
- destruct (list_find _ headers) as [[i h]|] eqn:E; [|discriminate].
  intros [= <-]. apply list_find_Some in E. exists h. exact E.
- intros (h & H).
  apply (list_find_Some (fun header => is_tracking_header header = true)) in H.
  rewrite H. reflexivity.
Qed.

(** The split of the listing by the ledger. *)
Lemma gate_spec (ledger : gset string) (excel_files : list file) :
  gate ledger excel_files
  = (filter (fun f => name f ∉ ledger) excel_files,
     length (filter (fun f => name f ∈ ledger) excel_files)).
Proof.
induction excel_files as [|f l IH]; [reflexivity|].
simpl. rewrite IH, !filter_cons.
destruct (decide (name f ∈ ledger)) as [Hin|Hnin].
- rewrite bool_decide_eq_true_2 by exact Hin.
  rewrite decide_False by (intros Hn; exact (Hn Hin)). reflexivity.
- rewrite bool_decide_eq_false_2 by exact Hnin.
  rewrite decide_True by exact Hnin. reflexivity.
Qed.

Lemma gate_empty_ledger (excel_files : list file) :
  gate ∅ excel_files = (excel_files, 0%nat).
Proof.
induction excel_files as [|f l IH]; [reflexivity|].
simpl. rewrite IH. rewrite bool_decide_eq_false_2 by set_solver. reflexivity.
Qed.

Lemma gate_all_known (ledger : gset string) (excel_files : list file) :
  Forall (fun f => name f ∈ ledger) excel_files ->
  gate ledger excel_files = ([], length excel_files).
Proof.
induction 1 as [|f l Hf _ IH]; [reflexivity|].
simpl. rewrite IH. rewrite bool_decide_eq_true_2 by exact Hf. reflexivity.
Qed.

End LedgerFacts.

(** ** The run: what each call returns and changes *)

Module RunFacts.
Import PyStr Sheets Ledger Appender Compaction Workflow.

Ltac run_unfold :=
  unfold bind, catch, ret, raise, api_get, api_put, modify_stats, set_sheet, set_stats.

Section Run.
Context {bytes : Type} `{Extractor.Parsers bytes} `{Drive bytes}
        `{FloatStr} `{SheetFormat} `{Faults}.
Variable header_row : Z.

(** The ledger query returns in every case, and changes nothing. *)
Lemma ledger_run w :
  _get_source_file_names_from_sheet w
  = (Return (match fault LedgerGet with
             | Some _ => ∅
             | None => source_files (get_A1_ZZ (sheet w))
             end), w).
Proof.
unfold _get_source_file_names_from_sheet. run_unfold.
destruct (fault LedgerGet); reflexivity.
Qed.

Lemma check_run w :
  _check_sheet_headers w
  = (Return (match fault CheckGet with
             | Some _ => false
             | None => negb (is_nil (get_A1 (sheet w)))
             end), w).
Proof.
unfold _check_sheet_headers. run_unfold.
destruct (fault CheckGet); reflexivity.
Qed.

Lemma ensure_run w :
  exists b, _ensure_source_file_name_column w = (Return b, ensured w).
Proof.
unfold ensured, _ensure_source_file_name_column. run_unfold.
destruct (fault EnsureGet); [eexists; reflexivity|].
destruct (get_row_1 (sheet w)) as [|headers rest]; [eexists; reflexivity|].
destruct (existsb is_tracking_header headers); [eexists; reflexivity|].
destruct (fault EnsureUpdate); eexists; reflexivity.
Qed.

Lemma ensured_frame w : stats (ensured w) = stats w /\ fetched (ensured w) = fetched w.
Proof.
unfold ensured, _ensure_source_file_name_column. run_unfold.
destruct (fault EnsureGet); [split; reflexivity|].
destruct (get_row_1 (sheet w)) as [|headers rest]; [split; reflexivity|].
destruct (existsb is_tracking_header headers); [split; reflexivity|].
destruct (fault EnsureUpdate); split; reflexivity.
Qed.

(** A sheet whose header row has the tracking column is left as it is. *)
Lemma ensured_tracked w headers rest :
  get_row_1 (sheet w) = headers :: rest ->
  existsb is_tracking_header headers = true ->
  ensured w = w.
Proof.
intros Hg Ht. unfold ensured, _ensure_source_file_name_column. run_unfold.
destruct (fault EnsureGet); [reflexivity|]. rewrite Hg, Ht. reflexivity.
Qed.

(** *** Appending *)

Lemma append_get_fault i df append_headers w e :
  is_nil (payload df append_headers) = false ->
  fault (AppendGet i) = Some e ->
  _append_to_sheet i df append_headers w = (Raise e, w).
Proof.
intros Hp Hf. unfold _append_to_sheet. run_unfold. rewrite Hp, Hf. reflexivity.
Qed.

Lemma append_write_fault i df append_headers w e :
  is_nil (payload df append_headers) = false ->
  fault (AppendGet i) = None ->
  fault (AppendWrite i) = Some e ->
  _append_to_sheet i df append_headers w = (Raise e, w).
Proof.
intros Hp Hg Hf. unfold _append_to_sheet. run_unfold. rewrite Hp, Hg, Hf. reflexivity.
Qed.

Lemma append_ok i df append_headers w :
  is_nil (payload df append_headers) = false ->
  fault (AppendGet i) = None ->
  fault (AppendWrite i) = None ->
  _append_to_sheet i df append_headers w
  = (Return tt,
     mkWorld (sheet w ++ map (map stored) (payload df append_headers))%list
             (stats w) (fetched w)).
Proof.
intros Hp Hg Hf. unfold _append_to_sheet. run_unfold. rewrite Hp, Hg, Hf. reflexivity.
Qed.

(** In every case the call returns or raises with the counters and the
    list of fetched files untouched. *)
Lemma append_frame i df append_headers w :
  stats (snd (_append_to_sheet i df append_headers w)) = stats w
  /\ fetched (snd (_append_to_sheet i df append_headers w)) = fetched w.
Proof.
unfold _append_to_sheet. run_unfold.
destruct (is_nil (payload df append_headers)); [split; reflexivity|].
destruct (fault (AppendGet i)); [split; reflexivity|].
destruct (fault (AppendWrite i)); split; reflexivity.
Qed.

Lemma payload_not_nil df append_headers :
  is_empty df = false -> is_nil (payload df append_headers) = false.
Proof.
unfold is_empty, payload. destruct (columns df); [discriminate|].
destruct (rows df); [discriminate|]. intros _.
destruct append_headers; reflexivity.
Qed.

Lemma tag_not_empty label value df :
  is_empty df = false -> is_empty (tag label value df) = false.
Proof.
destruct df as [cs rs]. unfold is_empty, tag. simpl.
destruct cs as [|c cs]; [discriminate|]. destruct rs as [|r rs]; [discriminate|].
intros _. destruct (bool_decide (label ∈ c :: cs)); reflexivity.
Qed.

(** *** Compaction *)

(** The compaction returns a count in every case, and touches neither the
    counters nor the list of fetched files. *)
Lemma compaction_run w :
  exists n g,
    _remove_duplicates_from_sheet w = (Return n, mkWorld g (stats w) (fetched w)).
Proof.
unfold _remove_duplicates_from_sheet. run_unfold. destruct w as [g s fs]. simpl.
destruct (fault CompactGet); [eexists _, _; reflexivity|].
destruct (is_nil (get_A1_ZZ g)); [eexists _, _; reflexivity|].
destruct (compact (get_A1_ZZ g)); [|eexists _, _; reflexivity].
destruct (fault CompactClear); [eexists _, _; reflexivity|].
destruct (fault CompactUpdate); eexists _, _; reflexivity.
Qed.

(** A call of the service that raises inside the compaction makes it
    return zero. *)
Lemma compaction_fault w e :
  fault CompactGet = Some e \/ fault CompactClear = Some e \/ fault CompactUpdate = Some e ->
  exists g,
    _remove_duplicates_from_sheet w = (Return 0%nat, mkWorld g (stats w) (fetched w)).
Proof.
intros Hf. unfold _remove_duplicates_from_sheet. run_unfold. destruct w as [g s fs]. simpl.
destruct (fault CompactGet) eqn:E1; [eexists; reflexivity|].
destruct (is_nil (get_A1_ZZ g)); [eexists; reflexivity|].
destruct (compact (get_A1_ZZ g)); [|eexists; reflexivity].
destruct (fault CompactClear) eqn:E2; [eexists; reflexivity|].
destruct (fault CompactUpdate) eqn:E3; [eexists; reflexivity|].
destruct Hf as [Hf|[Hf|Hf]]; discriminate Hf.
Qed.

(** *** One file *)

Lemma merge_file_empty i f c w :
  is_empty (extracted header_row f) = true ->
  merge_file header_row i f c w
  = (Return (failed_one c), mkWorld (sheet w) (stats w) (id f :: fetched w)).
Proof.
intros He. unfold merge_file, read_file. run_unfold. fold (extracted header_row f).
rewrite He. reflexivity.
Qed.

Lemma merge_file_ok i f c w :
  is_empty (extracted header_row f) = false ->
  fault (AppendGet i) = None ->
  fault (AppendWrite i) = None ->
  merge_file header_row i f c w
  = (Return (mkCounters (S (processed_count c)) (failed_count c) false true),
     mkWorld (sheet w ++ map (map stored) (sent header_row f c))%list
             (stats w) (id f :: fetched w)).
Proof.
intros He Hg Hw. unfold merge_file, read_file, bind, catch. fold (extracted header_row f).
rewrite He.
rewrite append_ok;
  [reflexivity|apply payload_not_nil, tag_not_empty, He|exact Hg|exact Hw].
Qed.

Lemma merge_file_fault i f c w e :
  is_empty (extracted header_row f) = false ->
  fault (AppendGet i) = Some e
  \/ (fault (AppendGet i) = None /\ fault (AppendWrite i) = Some e) ->
  merge_file header_row i f c w
  = (Return (failed_one c),
     mkWorld (sheet w)
       (mkStats (files_found (stats w)) (files_processed (stats w))
                (files_skipped (stats w)) (files_failed (stats w))
                (duplicates_removed (stats w))
                (errors (stats w)
                 ++ ["Failed to process Excel file " +:+ name f +:+ ": " +:+ e])%list)
       (id f :: fetched w)).
Proof.
intros He Hf. unfold merge_file, read_file, bind, catch. fold (extracted header_row f).
rewrite He.
assert (Hp : is_nil (payload (tag "source_file_name" (name f) (extracted header_row f))
                       (is_first_file c && negb (sheet_has_headers c))) = false)
  by apply payload_not_nil, tag_not_empty, He.
destruct Hf as [Hg|[Hg Hw]].
- rewrite (append_get_fault _ _ _ _ e Hp Hg). reflexivity.
- rewrite (append_write_fault _ _ _ _ e Hp Hg Hw). reflexivity.
Qed.

(** Whatever happens the body of the loop returns, having fetched the
    file. *)
Lemma merge_file_run i f c w :
  exists c' g s,
    merge_file header_row i f c w = (Return c', mkWorld g s (id f :: fetched w)).
Proof.
destruct (is_empty (extracted header_row f)) eqn:He.
- rewrite merge_file_empty by exact He. eexists _, _, _. reflexivity.
- destruct (fault (AppendGet i)) as [e|] eqn:Hg.
  + rewrite (merge_file_fault i f c w e He) by (left; exact Hg).
    eexists _, _, _. reflexivity.
  + destruct (fault (AppendWrite i)) as [e|] eqn:Hw.
    * rewrite (merge_file_fault i f c w e He) by (right; split; assumption).
      eexists _, _, _. reflexivity.
    * rewrite merge_file_ok by assumption. eexists _, _, _. reflexivity.
Qed.

(** *** The loop *)

Lemma merge_loop_cons i f rest c w :
  merge_loop header_row i (f :: rest) c w
  = match merge_file header_row i f c w with
    | (Return c', w') => merge_loop header_row (S i) rest c' w'
    | (Raise e, w') => (Raise e, w')
    end.
Proof. reflexivity. Qed.

(** The loop goes through all the files it is given: it returns, and has
    fetched each of them. *)
Lemma merge_loop_run files : forall i c w,
  exists c' g s,
    merge_loop header_row i files c w
    = (Return c', mkWorld g s (rev (id <$> files) ++ fetched w)%list).
Proof.
induction files as [|f rest IH]; intros i c w.
- destruct w as [g s fs]. eexists _, _, _. reflexivity.
- rewrite merge_loop_cons.
  destruct (merge_file_run i f c w) as (c1 & g1 & s1 & ->).
  destruct (IH (S i) c1 (mkWorld g1 s1 (id f :: fetched w))) as (c2 & g2 & s2 & ->).
  eexists _, _, _. simpl. rewrite <- app_assoc. reflexivity.
Qed.

(** *** The batch *)

Lemma merge_and_compact_run files w :
  exists n g s,
    merge_and_compact header_row files w
    = (Return (mkReport true n),
       mkWorld g s (rev (id <$> files) ++ fetched w)%list).
Proof.
unfold merge_and_compact, bind at 1. rewrite check_run.
unfold bind at 1.
destruct (merge_loop_run files 0%nat
            (mkCounters 0 0 true
               match fault CheckGet with
               | Some _ => false
               | None => negb (is_nil (get_A1 (sheet w)))
               end) w) as (c & g & s & ->).
unfold bind at 1, modify_stats at 1, set_stats. simpl.
destruct (0 <? processed_count c)%nat.
- unfold bind at 1 2.
  match goal with
  | |- context [_remove_duplicates_from_sheet ?w0] =>
      destruct (compaction_run w0) as (n & g' & ->)
  end.
  eexists _, _, _. reflexivity.
- eexists _, _, _. reflexivity.
Qed.

(** Without a file to process nothing is fetched, the sheet stays as it
    is, and the counters of processed and failed files are set to zero. *)
Lemma merge_and_compact_nil w :
  merge_and_compact header_row [] w
  = (Return (mkReport true 0),
     mkWorld (sheet w)
       (mkStats (files_found (stats w)) 0 (files_skipped (stats w)) 0
                (duplicates_removed (stats w)) (errors (stats w)))
       (fetched w)).
Proof.
unfold merge_and_compact, bind at 1. rewrite check_run. reflexivity.
Qed.

(** The workflow is the merge of the files that pass the gate. *)
Lemma workflow_steps excel_files w :
  excel_files <> [] ->
  process_excel_workflow header_row excel_files w
  = merge_and_compact header_row
      (fst (gate (consulted excel_files w) excel_files)) (gated excel_files w).
Proof.
intros Hne. unfold process_excel_workflow.
unfold catch, bind at 1, modify_stats at 1, set_stats.
destruct excel_files as [|f rest]; [congruence|]. cbn [is_nil].
unfold bind at 1.
match goal with
| |- context [_ensure_source_file_name_column ?w0] =>
    destruct (ensure_run w0) as (b & Hb); rewrite Hb
end.
fold (prepared (f :: rest) w).
unfold bind at 1. rewrite ledger_run. fold (consulted (f :: rest) w).
destruct (gate (consulted (f :: rest) w) (f :: rest)) as [todo skipped] eqn:Eg.
unfold bind at 1, modify_stats at 1, set_stats.
unfold gated. rewrite Eg. cbn [fst snd].
destruct (merge_and_compact_run todo
  (mkWorld (sheet (prepared (f :: rest) w))
     (mkStats (files_found (stats (prepared (f :: rest) w)))
        (files_processed (stats (prepared (f :: rest) w)))
        (files_skipped (stats (prepared (f :: rest) w)) + skipped)
        (files_failed (stats (prepared (f :: rest) w)))
        (duplicates_removed (stats (prepared (f :: rest) w)))
        (errors (stats (prepared (f :: rest) w))))
     (fetched (prepared (f :: rest) w)))) as (n & g & s & Hm).
rewrite Hm. reflexivity.
Qed.

(** The batch returns with success whatever calls raise. *)
Lemma workflow_run excel_files w :
  exists n w',
    process_excel_workflow header_row excel_files w = (Return (mkReport true n), w').
Proof.
destruct excel_files as [|f rest].
- eexists _, _. reflexivity.
- rewrite workflow_steps by discriminate.
  destruct (merge_and_compact_run
              (fst (gate (consulted (f :: rest) w) (f :: rest)))
              (gated (f :: rest) w)) as (n & g & s & ->).
  eexists _, _. reflexivity.
Qed.

End Run.

End RunFacts.

(** ** The batch: the gate, the write failures *)

Module WorkflowFacts.
Import PyStr Sheets Ledger Appender Compaction Workflow LedgerFacts RunFacts Examples.

Section Run.
Context {bytes : Type} `{Extractor.Parsers bytes} `{Drive bytes}
        `{FloatStr} `{SheetFormat} `{Faults}.
Variable header_row : Z.

Lemma prepared_fetched excel_files w : fetched (prepared excel_files w) = fetched w.
Proof. unfold prepared. rewrite (proj2 (ensured_frame _)). reflexivity. Qed.

Lemma prepared_stats excel_files w :
  stats (prepared excel_files w)
  = mkStats (length excel_files) (files_processed (stats w)) (files_skipped (stats w))
            (files_failed (stats w)) (duplicates_removed (stats w)) (errors (stats w)).
Proof. unfold prepared. rewrite (proj1 (ensured_frame _)). reflexivity. Qed.

(** The gate on the ledger.  A name is in the ledger exactly when it is
    the stripped text, not empty, of a cell of the tracking column in a
    row after the header, the tracking column being the first whose
    header holds [source_file_name].  The files whose names are in the
    ledger are counted as skipped and the others alone go on: they alone
    are fetched from the drive.  So a run in which every file of the
    listing is in the ledger fetches nothing and leaves the sheet as the
    check of the tracking column left it. *)
Theorem ledger_gate_skips_known_files :
  (forall (values : grid) (name : string),
      name ∈ source_files values <->
      exists headers data idx row cell,
        values = headers :: data
        /\ tracking_index headers = Some idx
        /\ row ∈ data /\ row !! idx = Some cell /\ strip cell = name /\ name <> "")
  /\ (forall (ledger : gset string) (excel_files : list file),
        gate ledger excel_files
        = (filter (fun f => Workflow.name f ∉ ledger) excel_files,
           length (filter (fun f => Workflow.name f ∈ ledger) excel_files)))
  /\ (forall excel_files w,
        excel_files <> [] ->
        exists n g s,
          process_excel_workflow header_row excel_files w
          = (Return (mkReport true n),
             mkWorld g s
               (rev (id <$> filter (fun f => Workflow.name f ∉ consulted excel_files w)
                                   excel_files)
                ++ fetched w)%list))
  /\ (forall excel_files w,
        excel_files <> [] ->
        Forall (fun f => Workflow.name f ∈ consulted excel_files w) excel_files ->
        process_excel_workflow header_row excel_files w
        = (Return (mkReport true 0),
           mkWorld (sheet (prepared excel_files w))
             (mkStats (length excel_files) 0
                (files_skipped (stats w) + length excel_files) 0
                (duplicates_removed (stats w)) (errors (stats w)))
             (fetched w))).
Proof.
split; [exact elem_of_source_files|]. split; [exact gate_spec|]. split.
- intros excel_files w Hne. rewrite (workflow_steps header_row) by exact Hne.
  rewrite gate_spec. cbn [fst].
  destruct (merge_and_compact_run header_row
              (filter (fun f => Workflow.name f ∉ consulted excel_files w) excel_files)
              (gated excel_files w)) as (n & g & s & ->).
  exists n, g, s. unfold gated. cbn [fetched]. rewrite prepared_fetched. reflexivity.
- intros excel_files w Hne Hall. rewrite (workflow_steps header_row) by exact Hne.
  unfold gated. rewrite (gate_all_known _ _ Hall). cbn [fst snd].
  rewrite merge_and_compact_nil. cbn [sheet stats fetched].
  rewrite prepared_fetched, prepared_stats. reflexivity.
Qed.

(** C10.  When the read of the tracking column raises, the ledger query
    returns the empty set; no file of the listing is skipped, so all of
    them go through the loop and are fetched; and a file whose table is
    not empty is appended when the append goes through, whether it was
    merged before or not. *)
Theorem ledger_fault_reprocesses_every_file (e : string) :
  fault LedgerGet = Some e ->
  (forall w, _get_source_file_names_from_sheet w = (Return ∅, w))
  /\ (forall excel_files, gate ∅ excel_files = (excel_files, 0%nat))
  /\ (forall excel_files w,
        excel_files <> [] ->
        process_excel_workflow header_row excel_files w
        = merge_and_compact header_row excel_files (prepared excel_files w)
        /\ exists n g s,
             process_excel_workflow header_row excel_files w
             = (Return (mkReport true n),
                mkWorld g s (rev (id <$> excel_files) ++ fetched w)%list))
  /\ (forall i f c w,
        is_empty (extracted header_row f) = false ->
        fault (AppendGet i) = None ->
        fault (AppendWrite i) = None ->
        merge_file header_row i f c w
        = (Return (mkCounters (S (processed_count c)) (failed_count c) false true),
           mkWorld (sheet w ++ map (map stored) (sent header_row f c))%list
                   (stats w) (id f :: fetched w))).
Proof.
intros He.
assert (Hgated : forall excel_files w,
          fst (gate (consulted excel_files w) excel_files) = excel_files
          /\ gated excel_files w = prepared excel_files w).
{ intros excel_files w. unfold gated, consulted. rewrite He, gate_empty_ledger.
  split; [reflexivity|]. cbn [snd].
  destruct (prepared excel_files w) as [g [a b c d n l] fs]. cbn.
  rewrite Nat.add_0_r. reflexivity. }
split; [intros w; rewrite ledger_run, He; reflexivity|].
split; [exact gate_empty_ledger|]. split.
- intros excel_files w Hne. rewrite (workflow_steps header_row) by exact Hne.
  destruct (Hgated excel_files w) as [-> ->]. split; [reflexivity|].
  destruct (merge_and_compact_run header_row excel_files (prepared excel_files w))
    as (n & g & s & ->).
  exists n, g, s. rewrite prepared_fetched. reflexivity.
- intros i f c w. apply merge_file_ok.
Qed.

(** C8, as the code has it.  A call that raises while a table is appended
    makes [_append_to_sheet] raise; the loop records the message, counts
    the file as failed, leaves the sheet as it was and goes on with the
    next file; the batch returns with success in every case.  A call that
    raises inside the compaction is caught there: the compaction returns
    zero, and the counters and messages of the run are as before. *)
Theorem write_failure_handling :
  (forall i f c w e,
      is_empty (extracted header_row f) = false ->
      fault (AppendGet i) = Some e
      \/ (fault (AppendGet i) = None /\ fault (AppendWrite i) = Some e) ->
      let failed :=
        mkWorld (sheet w)
          (mkStats (files_found (stats w)) (files_processed (stats w))
             (files_skipped (stats w)) (files_failed (stats w))
             (duplicates_removed (stats w))
             (errors (stats w)
              ++ ["Failed to process Excel file " +:+ Workflow.name f +:+ ": " +:+ e])%list)
          (id f :: fetched w) in
      _append_to_sheet i (tag "source_file_name" (Workflow.name f) (extracted header_row f))
        (is_first_file c && negb (sheet_has_headers c)) w
      = (Raise e, w)
      /\ merge_file header_row i f c w = (Return (failed_one c), failed)
      /\ forall rest,
           merge_loop header_row i (f :: rest) c w
           = merge_loop header_row (S i) rest (failed_one c) failed)
  /\ (forall excel_files w,
        exists n w',
          process_excel_workflow header_row excel_files w
          = (Return (mkReport true n), w'))
  /\ (forall w e,
        fault CompactGet = Some e \/ fault CompactClear = Some e
        \/ fault CompactUpdate = Some e ->
        exists g,
          _remove_duplicates_from_sheet w
          = (Return 0%nat, mkWorld g (stats w) (fetched w))).
Proof.
split; [|split; [apply workflow_run|apply compaction_fault]].
intros i f c w e He Hf failed.
assert (Hp : is_nil (payload (tag "source_file_name" (Workflow.name f)
                                (extracted header_row f))
                       (is_first_file c && negb (sheet_has_headers c))) = false)
  by apply payload_not_nil, tag_not_empty, He.
split.
- destruct Hf as [Hg|[Hg Hw]].
  + apply append_get_fault; assumption.
  + apply append_write_fault; assumption.
- pose proof (merge_file_fault header_row i f c w e He Hf) as Hm. fold failed in Hm.
  split; [exact Hm|]. intros rest. rewrite merge_loop_cons, Hm. reflexivity.
Qed.

End Run.

(** *** Runs on a drive with one workbook *)

Lemma merged_world_is_first_run :
  sheet (snd (run no_fault [plain] blank_world)) = sheet merged_world.
Proof. vm_compute. reflexivity. Qed.

Lemma ledger_gate_skips_known_files_witness :
  run no_fault [plain] merged_world
  = (Return (mkReport true 0),
     mkWorld (sheet merged_world) (mkStats 1 0 1 0 0 []) []).
Proof.
destruct (@ledger_gate_skips_known_files string example_parsers example_drive
            example_float_str example_format no_fault 2) as (_ & _ & _ & Hskip).
unfold run. rewrite (Hskip [plain] merged_world).
- vm_compute. reflexivity.
- discriminate.
- constructor; [|constructor].
  match goal with |- ?P => apply (bool_decide_unpack P) end. vm_compute. exact I.
Defined.

(** C1, where the code leaves the specification: two files that a
    second run merges again.

    The file [padded] is named [" a.xlsx"].  Merged into the blank
    sheet it leaves its name, as it is, in the tracking column; the
    ledger holds the stripped texts of that column and the gate looks
    for the name as it is, so the name is not found and the second run
    appends the row again.

    The file [plain] is named ["a.xlsx"] and has the columns [Item] and
    [Qty]; the sheet has a column [Note] before its tracking column.
    The table is tagged in a third column of its own and appended by
    position: the name comes to stand under [Note], the ledger reads
    the column under [source_file_name] and finds nothing, and the
    second run appends the row again.  (The compaction that ends the
    first run drops the tracking column, which is blank; the second run
    adds it again.) *)
Theorem merged_file_is_merged_again :
  let once := [["Item"; "Qty"; "source_file_name"]; ["tea"; "4"; " a.xlsx"]] in
  let wide := [["Item"; "Qty"; "Note"; "source_file_name"]] in
  let appended := [["Item"; "Qty"; "Note"; "source_file_name"]; ["tea"; "4"; "a.xlsx"]] in
  let merged := [["Item"; "Qty"; "Note"]; ["tea"; "4"; "a.xlsx"]] in
  (run no_fault [padded] blank_world
   = (Return (mkReport true 1), mkWorld once (mkStats 1 1 0 0 0 []) ["goods"])
   /\ tracking_index ["Item"; "Qty"; "source_file_name"] = Some 2%nat
   /\ (exists row, row ∈ tail once /\ row !! 2%nat = Some (Workflow.name padded))
   /\ (Workflow.name padded ∉ source_files (get_A1_ZZ once))
   /\ run no_fault [padded] (mkWorld once fresh_stats [])
      = (Return (mkReport true 1),
         mkWorld (once ++ [["tea"; "4"; " a.xlsx"]])%list (mkStats 1 1 0 0 0 []) ["goods"]))
  /\ (@merge_file string example_parsers example_drive example_float_str example_format
        no_fault 2 0 plain (mkCounters 0 0 true true) (mkWorld wide fresh_stats [])
      = (Return (mkCounters 1 0 false true), mkWorld appended fresh_stats ["goods"])
      /\ tracking_index ["Item"; "Qty"; "Note"; "source_file_name"] = Some 3%nat
      /\ (Workflow.name plain ∉ source_files (get_A1_ZZ appended))
      /\ run no_fault [plain] (mkWorld wide fresh_stats [])
         = (Return (mkReport true 1), mkWorld merged (mkStats 1 1 0 0 0 []) ["goods"])
      /\ run no_fault [plain] (mkWorld merged fresh_stats [])
         = (Return (mkReport true 1),
            mkWorld (merged ++ [["tea"; "4"; "a.xlsx"]])%list (mkStats 1 1 0 0 0 [])
                    ["goods"])).
Proof.
intros once wide appended merged.
assert (Hpadded : Workflow.name padded ∉ source_files (get_A1_ZZ once)).
{ apply (bool_decide_unpack (Workflow.name padded ∉ source_files (get_A1_ZZ once))).
  vm_compute. exact I. }
assert (Hplain : Workflow.name plain ∉ source_files (get_A1_ZZ appended)).
{ apply (bool_decide_unpack (Workflow.name plain ∉ source_files (get_A1_ZZ appended))).
  vm_compute. exact I. }
split.
- split; [vm_compute; reflexivity|]. split; [reflexivity|]. split.
  + exists ["tea"; "4"; " a.xlsx"]. split; [left|reflexivity].
  + split; [exact Hpadded|vm_compute; reflexivity].
- split; [vm_compute; reflexivity|]. split; [reflexivity|]. split; [exact Hplain|].
  split; vm_compute; reflexivity.
Qed.

Lemma ledger_fault_reprocesses_every_file_witness :
  @fault ledger_down LedgerGet = Some "quota"
  /\ @_get_source_file_names_from_sheet ledger_down merged_world = (Return ∅, merged_world)
  /\ sheet (snd (run ledger_down [plain] merged_world))
     = [["Item"; "Qty"; "source_file_name"];
        ["tea"; "4"; "a.xlsx"]; ["tea"; "4"; "a.xlsx"]].
Proof.
split; [reflexivity|]. split.
- apply (@ledger_fault_reprocesses_every_file string example_parsers example_drive
           example_float_str example_format ledger_down 2 "quota"). reflexivity.
- vm_compute. reflexivity.
Defined.

Lemma write_failure_handling_witness :
  @merge_file string example_parsers example_drive example_float_str example_format
    append_down 2 0 plain (mkCounters 0 0 true false) blank_world
  = (Return (mkCounters 0 1 true false),
     mkWorld [] (mkStats 0 0 0 0 0 ["Failed to process Excel file a.xlsx: quota"])
             ["goods"]).
Proof.
destruct (@write_failure_handling string example_parsers example_drive
            example_float_str example_format append_down 2) as (Happend & _ & _).
destruct (Happend 0%nat plain (mkCounters 0 0 true false) blank_world "quota")
  as (_ & Hmerge & _).
- vm_compute. reflexivity.
- right. split; reflexivity.
- rewrite Hmerge. reflexivity.
Defined.

(** C8 as stated fails for the rewrite of the compaction.  With the
    rewrite raising, the compaction of a sheet with a repeated record
    returns zero instead of raising, no message is recorded, the batch
    reports success, and the sheet is left cleared. *)
Lemma compaction_failure_swallowed_counterexample :
  let w := mkWorld [["Skucode"; "PoNo"]; ["a"; "1"]; ["a"; "1"]] fresh_stats [] in
  @fault rewrite_down CompactUpdate = Some "quota"
  /\ @_remove_duplicates_from_sheet rewrite_down example_format w
     = (Return 0%nat, mkWorld [] fresh_stats [])
  /\ ~ (exists e, fst (@_remove_duplicates_from_sheet rewrite_down example_format w)
                  = Raise e)
  /\ run rewrite_down [plain] blank_world
     = (Return (mkReport true 1), mkWorld [] (mkStats 1 1 0 0 0 []) ["goods"]).
Proof.
intros w. split; [reflexivity|]. split; [vm_compute; reflexivity|]. split.
- intros (e & He). vm_compute in He. discriminate He.
- vm_compute. reflexivity.
Qed.

End WorkflowFacts.


(** ** Facts about splitting, joining and slicing *)

Module PySeqFacts.
Import PyStr PySeq PyStrFacts.

(** *** [split] *)

Lemma split_on_not_nil sep s : split_on sep s <> [].
Proof.
  destruct s as [|c r]; simpl; [discriminate|].
  destruct (Ascii.eqb c sep); [discriminate|].
  destruct (split_on sep r); discriminate.
Qed.

Lemma split_on_other sep c r :
  Ascii.eqb c sep = false ->
  exists p ps, split_on sep r = p :: ps /\ split_on sep (String c r) = String c p :: ps.
Proof.
  intros Hc. simpl. rewrite Hc.
  destruct (split_on sep r) as [|p ps] eqn:E; [destruct (split_on_not_nil sep r E)|].
  exists p, ps. split; reflexivity.
Qed.

(** A separator ends the last part of what is before it and begins the
    first part of what is after it. *)
Lemma split_on_app sep a b :
  split_on sep (a +:+ String sep b) = (split_on sep a ++ split_on sep b)%list.
Proof.
  induction a as [|c a IH].
  - simpl. rewrite Ascii.eqb_refl. reflexivity.
  - change (String c a +:+ String sep b) with (String c (a +:+ String sep b)).
    destruct (Ascii.eqb c sep) eqn:Hc.
    + simpl. rewrite Hc, IH. reflexivity.
    + destruct (split_on_other sep c a Hc) as (p & ps & Hp & ->).
      simpl. rewrite Hc, IH, Hp. reflexivity.
Qed.

Lemma split_on_absent sep s :
  ~ In sep (list_ascii_of_string s) -> split_on sep s = [s].
Proof.
  induction s as [|c s IH]; simpl; [reflexivity|]. intros Hno.
  destruct (Ascii.eqb_spec c sep) as [->|Hne]; [tauto|].
  rewrite IH by tauto. reflexivity.
Qed.

(** The parts are made of characters of the text, the separator not
    among them. *)
Lemma split_on_chars sep s p c :
  In p (split_on sep s) -> In c (list_ascii_of_string p) ->
  In c (list_ascii_of_string s) /\ c <> sep.
Proof.
  revert p. induction s as [|a s IH]; intros p; simpl.
  - intros [<-|[]] [].
  - destruct (Ascii.eqb_spec a sep) as [->|Hne].
    + intros [<-|Hp] Hc; [destruct Hc|]. destruct (IH p Hp Hc). tauto.
    + destruct (split_on sep s) as [|q qs] eqn:E.
      * intros [<-|[]] [<-|[]]. split; [tauto|exact Hne].
      * intros [<-|Hp] Hc.
        -- destruct Hc as [<-|Hc]; [split; [tauto|exact Hne]|].
           destruct (IH q (or_introl eq_refl) Hc). tauto.
        -- destruct (IH p (or_intror Hp) Hc). tauto.
Qed.

(** More than one part exactly when the separator occurs. *)
Lemma split_on_present sep s :
  In sep (list_ascii_of_string s) -> (1 < length (split_on sep s))%nat.
Proof.
  induction s as [|c s IH]; simpl; [tauto|]. intros Hin.
  destruct (Ascii.eqb_spec c sep) as [->|Hne].
  - simpl. pose proof (split_on_not_nil sep s). destruct (split_on sep s); simpl; [congruence|lia].
  - destruct Hin as [?|Hin]; [congruence|]. specialize (IH Hin).
    destruct (split_on sep s); simpl in *; lia.
Qed.

(** *** [join] *)

Lemma join_cons sep p q qs :
  join sep (p :: q :: qs) = p +:+ sep +:+ join sep (q :: qs).
Proof. reflexivity. Qed.

(** Joining the parts of a text with the separator gives the text back. *)
Lemma join_split_on sep s : join (String sep "") (split_on sep s) = s.
Proof.
  induction s as [|c s IH]; [reflexivity|].
  destruct (Ascii.eqb c sep) eqn:Hc.
  - simpl split_on. rewrite Hc.
    destruct (split_on sep s) as [|q qs] eqn:E; [destruct (split_on_not_nil sep s E)|].
    rewrite join_cons, IH. apply Ascii.eqb_eq in Hc. subst c. reflexivity.
  - destruct (split_on_other sep c s Hc) as (p & ps & Hp & ->).
    rewrite Hp in IH. destruct ps as [|q qs].
    + simpl in *. congruence.
    + rewrite join_cons in IH |- *. rewrite string_app_cons, IH. reflexivity.
Qed.

Lemma join_snoc sep init lst :
  init <> [] -> join sep (init ++ [lst]) = join sep init +:+ sep +:+ lst.
Proof.
  induction init as [|p init IH]; [congruence|]. intros _.
  destruct init as [|q init].
  - reflexivity.
  - change ((p :: q :: init) ++ [lst])%list with (p :: q :: (init ++ [lst]))%list.
    rewrite !join_cons.
    change (q :: (init ++ [lst]))%list with ((q :: init) ++ [lst])%list.
    rewrite IH by discriminate.
    rewrite !string_app_assoc. reflexivity.
Qed.

(** *** Indexing from the end *)

Lemma py_index_last {A} (l : list A) : py_index l (-1) = last l.
Proof.
  unfold py_index. rewrite last_lookup.
  destruct l as [|x l]; [reflexivity|].
  destruct (Z.leb_spec 0 (-1)); [lia|].
  destruct (Z.leb_spec 0 (Z.of_nat (length (x :: l)) + -1)); [|simpl in *; lia].
  f_equal. simpl. lia.
Qed.

Lemma py_slice_to_init {A} (init : list A) (lst : A) :
  py_slice_to (init ++ [lst]) (-1) = init.
Proof.
  unfold py_slice_to. destruct (Z.leb_spec 0 (-1)); [lia|].
  rewrite length_app. simpl.
  replace (Z.to_nat (Z.max 0 (Z.of_nat (length init + 1) + -1))) with (length init) by lia.
  apply take_app_length.
Qed.

(** The parts of a text: those before the last, and the last, which
    holds no separator; with more than one part the text is the join of
    the first ones, the separator, and the last one. *)
Lemma split_on_snoc sep s :
  exists init ext,
    split_on sep s = (init ++ [ext])%list
    /\ ~ In sep (list_ascii_of_string ext)
    /\ (init <> [] -> s = join (String sep "") init +:+ String sep ext).
Proof.
  destruct (exists_last (split_on_not_nil sep s)) as (init & p & E).
  exists init, p. split; [exact E|]. split.
  - intros Hin.
    assert (Hp : In p (split_on sep s)) by (rewrite E; apply in_or_app; right; left; reflexivity).
    destruct (split_on_chars sep s p sep Hp Hin) as [_ Hne]. congruence.
  - intros Hne. rewrite <- (join_split_on sep s) at 1. rewrite E.
    rewrite join_snoc by exact Hne. reflexivity.
Qed.

(** *** Slices *)

Lemma slice_to_length n s : String.length (slice_to n s) = Nat.min n (String.length s).
Proof.
  revert s. induction n as [|n IH]; intros s; [reflexivity|].
  destruct s as [|c s]; simpl; [reflexivity|]. rewrite IH. reflexivity.
Qed.

Lemma slice_to_all n s : (String.length s <= n)%nat -> slice_to n s = s.
Proof.
  revert s. induction n as [|n IH]; intros s Hs.
  - destruct s; [reflexivity|simpl in Hs; lia].
  - destruct s as [|c s]; simpl; [reflexivity|]. rewrite IH by (simpl in Hs; lia).
    reflexivity.
Qed.

Lemma slice_to_chars n s c :
  In c (list_ascii_of_string (slice_to n s)) -> In c (list_ascii_of_string s).
Proof.
  revert s. induction n as [|n IH]; intros s; [intros []|].
  destruct s as [|a s]; simpl; [tauto|]. intros [?|Hc]; [tauto|]. right. apply IH, Hc.
Qed.

End PySeqFacts.

(** ** File names *)

Module FilenameFacts.
Import PyStr PySeq Filenames PyStrFacts PySeqFacts.

#[local] Arguments slice_to : simpl never.

Lemma underscore_not_reserved : is_reserved "_" = false.
Proof. reflexivity. Qed.

Lemma sub_reserved_length s : String.length (sub_reserved s) = String.length s.
Proof. induction s as [|c s IH]; simpl; [reflexivity|]. rewrite IH. reflexivity. Qed.

Lemma sub_reserved_chars s c :
  In c (list_ascii_of_string (sub_reserved s)) -> is_reserved c = false.
Proof.
  induction s as [|a s IH]; simpl; [tauto|].
  intros [<-|Hc]; [|apply IH, Hc].
  destruct (is_reserved a) eqn:E; [reflexivity|exact E].
Qed.

(** A text without reserved characters is left as it is. *)
Lemma sub_reserved_clean s :
  (forall c, In c (list_ascii_of_string s) -> is_reserved c = false) ->
  sub_reserved s = s.
Proof.
  induction s as [|a s IH]; simpl; [reflexivity|]. intros Hs.
  rewrite (Hs a) by tauto. rewrite IH; [reflexivity|]. intros c Hc. apply Hs. tauto.
Qed.

(** The three ways through [_sanitize_filename]. *)
Lemma sanitize_cases filename :
  let cleaned := sub_reserved filename in
  ((String.length cleaned <= 100)%nat /\ _sanitize_filename filename = cleaned)
  \/ ((100 < String.length cleaned)%nat
      /\ split_on "." cleaned = [cleaned]
      /\ _sanitize_filename filename = slice_to 100 cleaned)
  \/ ((100 < String.length cleaned)%nat
      /\ exists base ext,
           cleaned = base +:+ String "." ext
           /\ ~ In "."%char (list_ascii_of_string ext)
           /\ default "" (py_index (split_on "." cleaned) (-1)) = ext
           /\ (1 < length (split_on "." cleaned))%nat
           /\ _sanitize_filename filename = slice_to 95 base +:+ String "." ext).
Proof.
  intros cleaned. unfold _sanitize_filename. fold cleaned.
  destruct (Nat.ltb_spec 100 (String.length cleaned)) as [Hlong|Hshort]; [|left; split; [lia|reflexivity]].
  right.
  destruct (split_on_snoc "." cleaned) as (init & ext & Hsplit & Hext & Hjoin).
  rewrite Hsplit, py_index_last, last_snoc, py_slice_to_init, length_app. simpl.
  destruct init as [|p init].
  - left. split; [exact Hlong|]. split; [|reflexivity].
    pose proof (join_split_on "." cleaned) as Hj. rewrite Hsplit in Hj. simpl in Hj.
    rewrite Hj. reflexivity.
  - right. split; [exact Hlong|]. exists (join "." (p :: init)), ext.
    split; [apply Hjoin; discriminate|]. split; [exact Hext|]. split; [reflexivity|].
    split; [simpl; lia|].
    destruct (Nat.ltb_spec 1 (length (p :: init) + 1)) as [_|Hl]; [reflexivity|simpl in Hl; lia].
Qed.

(** X1. The name that [_sanitize_filename] returns holds none of the
    characters of the pattern, whatever the name given. *)
Theorem sanitize_filename_no_reserved (filename : string) (c : ascii) :
  In c (list_ascii_of_string (_sanitize_filename filename)) -> is_reserved c = false.
Proof.
  destruct (sanitize_cases filename) as [[_ ->]|[(_ & _ & ->)|(_ & base & ext & Hc & _ & _ & _ & ->)]].
  - apply sub_reserved_chars.
  - intros H. eapply sub_reserved_chars, slice_to_chars, H.
  - rewrite string_app_chars. intros [H|[<-|H]]%in_app_or; [|reflexivity|].
    + apply (sub_reserved_chars filename). rewrite Hc, string_app_chars.
      apply in_or_app. left. eapply slice_to_chars, H.
    + apply (sub_reserved_chars filename). rewrite Hc, string_app_chars.
      apply in_or_app. right. right. exact H.
Qed.

Lemma sanitize_filename_no_reserved_witness :
  In "_"%char (list_ascii_of_string (_sanitize_filename "a:b.xlsx"))
  /\ is_reserved "_" = false.
Proof.
  assert (H : In "_"%char (list_ascii_of_string (_sanitize_filename "a:b.xlsx")))
    by (vm_compute; tauto).
  split; [exact H|]. exact (sanitize_filename_no_reserved "a:b.xlsx" "_" H).
Defined.

(** X2. Sanitizing a name a second time changes nothing. *)
Theorem sanitize_filename_idempotent (filename : string) :
  _sanitize_filename (_sanitize_filename filename) = _sanitize_filename filename.
Proof.
  assert (Hclean : sub_reserved (_sanitize_filename filename) = _sanitize_filename filename).
  { apply sub_reserved_clean. intros c Hc.
    destruct (sanitize_cases filename)
      as [[_ Hr]|[(_ & _ & Hr)|(_ & base & ext & Hcl & _ & _ & _ & Hr)]]; rewrite Hr in Hc.
    - eapply sub_reserved_chars, Hc.
    - eapply sub_reserved_chars, slice_to_chars, Hc.
    - rewrite string_app_chars in Hc.
      apply in_app_or in Hc as [H|[<-|H]]; [|reflexivity|].
      + apply (sub_reserved_chars filename). rewrite Hcl, string_app_chars.
        apply in_or_app. left. eapply slice_to_chars, H.
      + apply (sub_reserved_chars filename). rewrite Hcl, string_app_chars.
        apply in_or_app. right. right. exact H. }
  destruct (sanitize_cases filename)
    as [[Hlen Hr]|[(Hlen & _ & Hr)|(Hlen & base & ext & Hcl & Hext & _ & _ & Hr)]].
  - destruct (sanitize_cases (_sanitize_filename filename))
      as [[_ ->]|[(Hlen2 & _)|(Hlen2 & _)]]; [exact Hclean| |];
      rewrite Hclean, Hr in Hlen2; lia.
  - destruct (sanitize_cases (_sanitize_filename filename))
      as [[_ ->]|[(Hlen2 & _)|(Hlen2 & _)]]; [exact Hclean| |];
      rewrite Hclean, Hr, slice_to_length in Hlen2; lia.
  - unfold _sanitize_filename at 1. rewrite Hclean.
    destruct (100 <? String.length (_sanitize_filename filename))%nat; [|reflexivity].
    rewrite Hr.
    rewrite split_on_app, (split_on_absent "." ext Hext).
    rewrite py_index_last, last_snoc, py_slice_to_init, length_app. simpl.
    pose proof (split_on_not_nil "." (slice_to 95 base)) as Hne.
    destruct (Nat.ltb_spec 1 (length (split_on "." (slice_to 95 base)) + 1)) as [_|Hl].
    + rewrite join_split_on. rewrite slice_to_all; [reflexivity|].
      rewrite slice_to_length. lia.
    + destruct (split_on "." (slice_to 95 base)); [congruence|simpl in Hl; lia].
Qed.

(** X3. The name returned is never longer than the name given.  It has
    at most a hundred characters when the name has no point, or when
    what follows its last point has at most four characters; in general
    at most ninety-six characters more than what follows the last
    point.  A name with a point keeps what follows its last point. *)
Theorem sanitize_filename_length (filename : string) :
  let cleaned := sub_reserved filename in
  let name_parts := split_on "." cleaned in
  let extension := default "" (py_index name_parts (-1)) in
  let result := _sanitize_filename filename in
  (String.length result <= String.length filename)%nat
  /\ (String.length result <= Nat.max 100 (96 + String.length extension))%nat
  /\ (length name_parts = 1%nat -> (String.length result <= 100)%nat)
  /\ ((String.length extension <= 4)%nat -> (String.length result <= 100)%nat)
  /\ ((1 < length name_parts)%nat ->
      default "" (py_index (split_on "." result) (-1)) = extension).
Proof.
  cbv zeta.
  pose proof (sub_reserved_length filename) as Hlen.
  destruct (sanitize_cases filename)
    as [[Hshort Hr]|[(Hlong & Hone & Hr)|(Hlong & base & ext & Hcl & Hext & He & Hparts & Hr)]].
  - assert (Hl : String.length (_sanitize_filename filename)
                 = String.length (sub_reserved filename)) by (rewrite Hr; reflexivity).
    split; [lia|]. split; [lia|]. split; [lia|]. split; [lia|].
    intros _. rewrite Hr. reflexivity.
  - assert (Hl : String.length (_sanitize_filename filename) = 100%nat)
      by (rewrite Hr, slice_to_length; lia).
    split; [lia|]. split; [lia|]. split; [lia|]. split; [lia|].
    rewrite Hone. simpl. lia.
  - assert (Hlr : String.length (_sanitize_filename filename)
                  = (Nat.min 95 (String.length base) + 1 + String.length ext)%nat).
    { rewrite Hr, string_app_length, slice_to_length. simpl. lia. }
    assert (Hlc : String.length (sub_reserved filename)
                  = (String.length base + 1 + String.length ext)%nat).
    { rewrite Hcl, string_app_length. simpl. lia. }
    rewrite He.
    split; [lia|]. split; [lia|]. split; [lia|]. split; [lia|].
    intros _. rewrite Hr, split_on_app, (split_on_absent "." ext Hext).
    rewrite py_index_last, last_snoc. reflexivity.
Qed.

(** *** The address of the sender *)

Lemma py_index_0 {A} (l : list A) : py_index l 0 = head l.
Proof. unfold py_index. simpl. destruct l; reflexivity. Qed.

Lemma py_index_1 {A} (l : list A) : py_index l 1 = l !! 1%nat.
Proof. reflexivity. Qed.

(** The first part of a text that starts with a run free of the
    separator starts with this run. *)
Lemma split_on_head_app sep a b :
  ~ In sep (list_ascii_of_string a) ->
  head (split_on sep (a +:+ b)) = (fun p => a +:+ p) <$> head (split_on sep b).
Proof.
  induction a as [|c a IH]; intros Hno.
  - change ("" +:+ b) with b. destruct (head (split_on sep b)); reflexivity.
  - change (String c a +:+ b) with (String c (a +:+ b)).
    simpl in Hno. destruct (Ascii.eqb_spec c sep) as [->|Hne]; [tauto|].
    assert (Hc : Ascii.eqb c sep = false) by (apply Ascii.eqb_neq; exact Hne).
    destruct (split_on_other sep c (a +:+ b) Hc) as (p & ps & Hp & ->).
    rewrite Hp in IH. specialize (IH ltac:(tauto)). simpl in IH |- *.
    destruct (head (split_on sep b)) as [q|]; simpl in IH |- *; [|discriminate IH].
    injection IH as ->. reflexivity.
Qed.

(** X4. Taking the address of a sender never fails.  A sender without
    the two angle brackets is taken as it is; for a sender of the form
    [name <address> rest], the name and the address free of brackets,
    it is the address with the white space around it removed. *)
Theorem sender_address_between_brackets :
  (forall sender_email, exists address, sender_address sender_email = Some address)
  /\ (forall sender_email,
        contains "<" sender_email && contains ">" sender_email = false ->
        sender_address sender_email = Some sender_email)
  /\ (forall name address rest,
        ~ In "<"%char (list_ascii_of_string name) ->
        ~ In "<"%char (list_ascii_of_string address) ->
        ~ In ">"%char (list_ascii_of_string address) ->
        sender_address (name +:+ "<" +:+ address +:+ ">" +:+ rest) = Some (strip address)).
Proof.
  split; [|split].
  - intros s. unfold sender_address.
    destruct (contains "<" s) eqn:Hl; [|eexists; reflexivity].
    destruct (contains ">" s); [|eexists; reflexivity]. simpl.
    apply contains_char in Hl. apply (split_on_present "<") in Hl.
    rewrite py_index_1.
    destruct (split_on "<" s) as [|p [|q qs]]; simpl in Hl; try lia. simpl.
    rewrite py_index_0.
    pose proof (split_on_not_nil ">" q).
    destruct (split_on ">" q); [congruence|]. eexists. reflexivity.
  - intros s Hs. unfold sender_address. rewrite Hs. reflexivity.
  - intros name address rest Hn Ha1 Ha2. unfold sender_address.
    change (name +:+ "<" +:+ address +:+ ">" +:+ rest)
      with (name +:+ String "<" (address +:+ String ">" rest)).
    assert (Hl : contains "<" (name +:+ String "<" (address +:+ String ">" rest)) = true).
    { apply contains_char. rewrite string_app_chars. apply in_or_app. right. left. reflexivity. }
    assert (Hg : contains ">" (name +:+ String "<" (address +:+ String ">" rest)) = true).
    { apply contains_char. rewrite string_app_chars. apply in_or_app. right. right.
      rewrite string_app_chars. apply in_or_app. right. left. reflexivity. }
    rewrite Hl, Hg. cbn [andb].
    rewrite split_on_app, (split_on_absent "<" name Hn), py_index_1.
    pose proof (split_on_head_app "<" address (String ">" rest) Ha1) as Hh.
    destruct (split_on "<" (address +:+ String ">" rest)) as [|after more] eqn:E;
      [destruct (split_on_not_nil _ _ E)|].
    destruct (split_on_other "<" ">" rest eq_refl) as (p & ps & Hp & Hq).
    rewrite Hq in Hh. simpl in Hh. injection Hh as ->.
    cbn [app lookup list_lookup]. rewrite py_index_0.
    rewrite split_on_app, (split_on_absent ">" address Ha2). reflexivity.
Qed.

End FilenameFacts.


(** ** Decimal numerals: writing and reading back *)

Module NumeralFacts.
Import PyStr PySeq Coercion PyStrFacts CoercionFacts PySeqFacts.

Lemma digit_char d : (d < 10)%N ->
  is_digit (pretty_N_char d) = true /\ digit_val (pretty_N_char d) = Z.of_N d.
Proof.
  intros Hd.
  assert (Hcases : (d = 0 \/ d = 1 \/ d = 2 \/ d = 3 \/ d = 4 \/ d = 5 \/ d = 6 \/ d = 7
                    \/ d = 8 \/ d = 9)%N) by lia.
  repeat (destruct Hcases as [->|Hcases]; [split; reflexivity|]).
  subst d. split; reflexivity.
Qed.

Lemma digits_val_app acc l1 l2 :
  digits_val acc (l1 ++ l2) = digits_val (digits_val acc l1) l2.
Proof. revert acc. induction l1 as [|c l1 IH]; intros acc; simpl; [reflexivity|apply IH]. Qed.

(** The digits that [pretty] puts before a text: digits only, at least
    one for a positive number, and their value is the number. *)
Lemma pretty_N_go_digits x : forall s,
  exists ds,
    list_ascii_of_string (pretty_N_go x s) = (ds ++ list_ascii_of_string s)%list
    /\ Forall (fun c => is_digit c = true) ds
    /\ ((0 < x)%N -> ds <> [])
    /\ forall acc, digits_val acc ds = (acc * 10 ^ Z.of_nat (length ds) + Z.of_N x)%Z.
Proof.
  induction x as [x IH] using (well_founded_induction N.lt_wf_0). intros s.
  destruct (N.eq_dec x 0%N) as [->|Hx].
  - exists []. rewrite pretty_N_go_0. repeat split; [constructor|lia|].
    intros acc. simpl. lia.
  - assert (Hpos : (0 < x)%N) by lia.
    rewrite pretty_N_go_step by exact Hpos.
    destruct (IH (x `div` 10)%N (N.div_lt x 10 Hpos eq_refl)
                 (String (pretty_N_char (x `mod` 10)) s))
      as (ds & Hchars & Hdig & _ & Hval).
    destruct (digit_char (x `mod` 10)%N) as [Hd Hv]; [apply N.mod_lt; lia|].
    exists (ds ++ [pretty_N_char (x `mod` 10)])%list. split; [|split; [|split]].
    + rewrite Hchars, <- app_assoc. reflexivity.
    + apply Forall_app. split; [exact Hdig|]. constructor; [exact Hd|constructor].
    + intros _. destruct ds; discriminate.
    + intros acc. rewrite digits_val_app, Hval. simpl. rewrite Hv, length_app. simpl.
      rewrite Nat2Z.inj_add, Z.pow_add_r by lia.
      pose proof (N.div_mod x 10 ltac:(lia)) as Hdm.
      rewrite N2Z.inj_div, N2Z.inj_mod.
      pose proof (Z.div_mod (Z.of_N x) 10 ltac:(lia)).
      change (Z.of_N 10) with 10%Z. lia.
Qed.

Lemma pretty_pos_digits (p : positive) :
  exists ds,
    pretty p = string_of_list_ascii ds
    /\ Forall (fun c => is_digit c = true) ds
    /\ ds <> []
    /\ digits_val 0 ds = Z.pos p.
Proof.
  destruct (pretty_N_go_digits (N.pos p) "") as (ds & Hchars & Hdig & Hne & Hval).
  exists ds. simpl in Hchars. rewrite app_nil_r in Hchars.
  split; [|split; [exact Hdig|split; [apply Hne; lia|]]].
  - rewrite <- Hchars, string_of_list_ascii_of_string. reflexivity.
  - rewrite Hval. simpl. lia.
Qed.

Lemma remove_char_clean c s :
  ~ In c (list_ascii_of_string s) -> remove_char c s = s.
Proof.
  induction s as [|a s IH]; simpl; [reflexivity|]. intros Hno.
  destruct (Ascii.eqb_spec a c) as [->|_]; [tauto|]. rewrite IH by tauto. reflexivity.
Qed.

Lemma numeral_char_plain c :
  numeral_char c ->
  is_space c = false /\ c <> "'"%char /\ c <> "."%char /\ c <> "e"%char /\ c <> "E"%char.
Proof.
  intros [Hd| ->].
  - split; [apply is_digit_not_space, Hd|].
    repeat split; intros ->; discriminate Hd.
  - repeat split; discriminate.
Qed.

Lemma pretty_Z_chars (z : Z) :
  Forall numeral_char (list_ascii_of_string (pretty z)) /\ pretty z <> "".
Proof.
  destruct z as [|p|p].
  - split; [|discriminate]. repeat constructor.
  - destruct (pretty_pos_digits p) as (ds & Hp & Hdig & Hne & _).
    change (pretty (Z.pos p)) with (pretty p). rewrite Hp. split.
    + rewrite list_ascii_of_string_of_list_ascii.
      eapply Forall_impl; [exact Hdig|]. intros c Hc. left. exact Hc.
    + destruct ds; [congruence|discriminate].
  - destruct (pretty_pos_digits p) as (ds & Hp & Hdig & Hne & _).
    change (pretty (Z.neg p)) with ("-" +:+ pretty p). rewrite Hp. split; [|discriminate].
    constructor; [right; reflexivity|].
    change ("" +:+ string_of_list_ascii ds) with (string_of_list_ascii ds).
    rewrite list_ascii_of_string_of_list_ascii.
    eapply Forall_impl; [exact Hdig|]. intros c Hc. left. exact Hc.
Qed.

(** [int(str(z))] is [z]. *)
Lemma py_int_pretty (z : Z) : py_int (pretty z) = Some z.
Proof.
  destruct z as [|p|p]; [reflexivity| |].
  - destruct (pretty_pos_digits p) as (ds & Hp & Hdig & Hne & Hval).
    change (pretty (Z.pos p)) with (pretty p). rewrite Hp.
    rewrite py_int_digits by assumption. rewrite Hval. reflexivity.
  - destruct (pretty_pos_digits p) as (ds & Hp & Hdig & Hne & Hval).
    change (pretty (Z.neg p)) with ("-" +:+ pretty p). rewrite Hp.
    change ("-" +:+ string_of_list_ascii ds) with (string_of_list_ascii ("-"%char :: ds)).
    unfold py_int. rewrite strip_no_space, list_ascii_of_string_of_list_ascii.
    2:{ constructor; [reflexivity|]. eapply Forall_impl; [exact Hdig|].
        intros c. apply is_digit_not_space. }
    simpl scan_sign. cbv iota. rewrite scan_digitpart_digits by exact Hdig.
    destruct ds as [|c d]; [congruence|]. rewrite Hval. reflexivity.
Qed.

Lemma has_float_mark_numeral s :
  Forall numeral_char (list_ascii_of_string s) -> has_float_mark s = false.
Proof.
  intros Hs. apply not_true_iff_false. intros Hm.
  apply has_float_mark_spec in Hm as (c & Hc & Hmark).
  rewrite Forall_forall in Hs. apply list_elem_of_In in Hc.
  destruct (numeral_char_plain c (Hs c Hc)) as (_ & _ & H1 & H2 & H3).
  destruct Hmark as [?|[?|?]]; congruence.
Qed.

Lemma normalise_numeral s :
  Forall numeral_char (list_ascii_of_string s) -> normalise s = s.
Proof.
  intros Hs. unfold normalise.
  assert (Hstrip : strip s = s).
  { rewrite <- (string_of_list_ascii_of_string s). apply strip_no_space.
    eapply Forall_impl; [exact Hs|]. intros c Hc. apply numeral_char_plain, Hc. }
  rewrite Hstrip. apply remove_char_clean. intros Hin.
  rewrite Forall_forall in Hs. apply list_elem_of_In in Hin.
  destruct (numeral_char_plain _ (Hs _ Hin)) as (_ & Hq & _). congruence.
Qed.

(** X5. A whole number written in decimal by [str] is read back as the
    same number: by [int], by [_clean_cell_value], and by the
    [process_value] of the compaction. *)
Theorem int_text_round_trip (z : Z) :
  py_int (str_of_int z) = Some z
  /\ _clean_cell_value (Some (str_of_int z)) = Some (SInt z)
  /\ Compaction.process_value (SText (str_of_int z)) = SInt z.
Proof.
  unfold str_of_int. destruct (pretty_Z_chars z) as [Hchars Hne].
  split; [apply py_int_pretty|]. split.
  - unfold _clean_cell_value, clean_text.
    rewrite (normalise_numeral _ Hchars), (has_float_mark_numeral _ Hchars), py_int_pretty.
    reflexivity.
  - unfold Compaction.process_value, Sheets.is_blank.
    destruct (String.eqb_spec (pretty z) ""); [congruence|].
    rewrite (has_float_mark_numeral _ Hchars), py_int_pretty. reflexivity.
Qed.

End NumeralFacts.


(** ** Tables: one cell per column *)

Module TableFacts.
Import PyStr Recovery Cleaner Extractor Workflow Examples.

Lemma well_formed_empty_frame : well_formed empty_frame.
Proof. constructor. Qed.

Lemma py_index_elem_of {A} (l : list A) i x : py_index l i = Some x -> x ∈ l.
Proof.
  unfold py_index. destruct (0 <=? i)%Z; [apply list_elem_of_lookup_2|].
  destruct (0 <=? Z.of_nat (length l) + i)%Z; [apply list_elem_of_lookup_2|discriminate].
Qed.

Lemma py_slice_from_Forall {A} (P : A -> Prop) (l : list A) i :
  Forall P l -> Forall P (py_slice_from l i).
Proof. unfold py_slice_from. destruct (0 <=? i)%Z; apply Forall_drop. Qed.

Section WithFloatStr.
Context `{FloatStr}.

(** The rows of the dense grid all have [max_col] cells. *)
Lemma dense_rows_uniform st :
  Forall (fun r => length r = Z.to_nat (max_col st)) (dense_rows st).
Proof.
  unfold dense_rows. apply Forall_forall. intros r [_ Hr]%list_elem_of_filter.
  apply list_elem_of_fmap in Hr as (row & -> & _).
  rewrite length_map, length_seqZ. reflexivity.
Qed.

Lemma apply_header_well_formed n data header_row df :
  Forall (fun r => length r = n) data ->
  apply_header data header_row = Some df -> well_formed df.
Proof.
  intros Hdata. unfold apply_header.
  destruct (Z.of_nat (length data) <? Z.max 1 (header_row + 2))%Z;
    [intros [= <-]; apply well_formed_empty_frame|].
  destruct (header_row =? -1)%Z.
  - destruct data as [|first rest]; [discriminate|]. intros [= <-].
    unfold well_formed. simpl. rewrite length_map, length_seq.
    apply Forall_cons_1 in Hdata as [Hfirst Hrest].
    constructor; [reflexivity|]. eapply Forall_impl; [exact Hrest|].
    intros r Hr. simpl in Hr. congruence.
  - destruct (header_row <? Z.of_nat (length data))%Z;
      [|intros [= <-]; apply well_formed_empty_frame].
    destruct (py_index data header_row) as [header|] eqn:Hh; [|discriminate].
    intros [= <-]. unfold well_formed, header_names. simpl. rewrite length_imap.
    apply py_index_elem_of in Hh. rewrite Forall_forall in Hdata.
    rewrite (Hdata header Hh). apply py_slice_from_Forall, Forall_forall, Hdata.
Qed.

Lemma try_raw_xml_extraction_well_formed zip header_row :
  well_formed (_try_raw_xml_extraction zip header_row).
Proof.
  unfold _try_raw_xml_extraction.
  destruct zip as [a|]; [|apply well_formed_empty_frame].
  destruct (worksheet a) as [[|c cells]|]; try apply well_formed_empty_frame.
  destruct (scan_cells _ _ _) as [st|]; [|apply well_formed_empty_frame].
  destruct (decide (cell_data st = ∅)); [apply well_formed_empty_frame|].
  destruct (apply_header (dense_rows st) header_row) as [df|] eqn:E;
    [|apply well_formed_empty_frame].
  eapply apply_header_well_formed; [apply dense_rows_uniform|exact E].
Qed.

(** *** The cleaner keeps a table rectangular *)

Lemma clean_strings_well_formed df : well_formed df -> well_formed (clean_strings df).
Proof.
  unfold well_formed, clean_strings. simpl. intros Hw.
  apply Forall_fmap. eapply Forall_impl; [exact Hw|].
  intros r Hr. simpl. rewrite length_imap. exact Hr.
Qed.

Lemma drop_blank_keys_well_formed df : well_formed df -> well_formed (drop_blank_keys df).
Proof.
  unfold well_formed, drop_blank_keys. simpl. rewrite !Forall_forall.
  intros Hw r [_ Hr]%list_elem_of_filter. apply Hw, Hr.
Qed.

Lemma drop_duplicates_well_formed df : well_formed df -> well_formed (drop_duplicates df).
Proof.
  unfold drop_duplicates. destruct (is_empty df); [tauto|].
  unfold well_formed. simpl. rewrite !Forall_forall. intros Hw r Hr.
  apply Hw. eapply elem_of_sublist; [exact Hr|apply keep_first_sublist].
Qed.

Lemma clean_dataframe_well_formed df : well_formed df -> well_formed (_clean_dataframe df).
Proof.
  intros Hw. unfold _clean_dataframe. destruct (is_empty df); [exact Hw|].
  apply drop_duplicates_well_formed.
  destruct (2 <=? length (columns (clean_strings df)))%nat.
  - apply drop_blank_keys_well_formed, clean_strings_well_formed, Hw.
  - apply clean_strings_well_formed, Hw.
Qed.

(** X6. The table that the recovery from the worksheet markup returns
    has one cell per column in each of its rows, whatever the header
    row asked for; and it still has after the cleaning. *)
Theorem recovered_table_well_formed (zip : option archive) (header_row : Z) :
  well_formed (_try_raw_xml_extraction zip header_row)
  /\ well_formed (_clean_dataframe (_try_raw_xml_extraction zip header_row)).
Proof.
  split; [|apply clean_dataframe_well_formed];
    apply try_raw_xml_extraction_well_formed.
Qed.

(** *** The table of a file and the rows sent for it *)

Lemma tag_well_formed label value df : well_formed df -> well_formed (tag label value df).
Proof.
  unfold well_formed, tag. intros Hw.
  destruct (bool_decide (label ∈ columns df)); simpl.
  - apply Forall_fmap. eapply Forall_impl; [exact Hw|].
    intros r Hr. simpl. rewrite length_imap. exact Hr.
  - apply Forall_fmap. eapply Forall_impl; [exact Hw|].
    intros r Hr. simpl. rewrite !length_app, Hr. reflexivity.
Qed.

Lemma payload_uniform df append_headers :
  well_formed df ->
  Forall (fun r => length r = length (columns df)) (Appender.payload df append_headers).
Proof.
  intros Hw. unfold Appender.payload. apply Forall_app. split.
  - destruct append_headers; constructor; [|constructor]. apply length_map.
  - apply Forall_fmap. eapply Forall_impl; [exact Hw|].
    intros r Hr. simpl. rewrite length_map. exact Hr.
Qed.

Section WithParsers.
Context {bytes : Type} `{Parsers bytes} `{Drive bytes}.
Variable header_row : Z.

Lemma try_engine_well_formed b e df :
  (forall b e h df, read_excel b e h = Return df -> well_formed df) ->
  try_engine b e header_row = Some df -> well_formed df.
Proof.
  intros Hparsers. unfold try_engine.
  destruct (read_excel b e (header_arg header_row)) as [d|] eqn:E; [|discriminate].
  destruct (negb (is_empty d)); [|discriminate].
  destruct (_clean_dataframe_run d) as [d'|] eqn:Ec; [|discriminate]. intros [= <-].
  rewrite (CleanerFacts.clean_dataframe_run_returns _ _ Ec).
  eapply clean_dataframe_well_formed, Hparsers, E.
Qed.

Lemma recovered_clean_well_formed b :
  well_formed
    match
      (if negb (is_empty (_try_raw_xml_extraction (open_archive b) header_row))
       then _clean_dataframe_run (_try_raw_xml_extraction (open_archive b) header_row)
       else Return empty_frame)
    with
    | Return df => df
    | Raise _ => empty_frame
    end.
Proof.
  destruct (negb (is_empty _)); [|apply well_formed_empty_frame].
  destruct (_clean_dataframe_run _) as [d|] eqn:Ec; [|apply well_formed_empty_frame].
  rewrite (CleanerFacts.clean_dataframe_run_returns _ _ Ec).
  apply clean_dataframe_well_formed, try_raw_xml_extraction_well_formed.
Qed.

Lemma extracted_well_formed f :
  (forall b e h df, read_excel b e h = Return df -> well_formed df) ->
  well_formed (extracted header_row f).
Proof.
  intros Hparsers. unfold extracted, _read_excel_file_robust.
  destruct (download (id f)) as [b|]; [|apply well_formed_empty_frame].
  unfold read_robust.
  destruct (try_engine b openpyxl header_row) as [d|] eqn:E1;
    [eapply try_engine_well_formed; eassumption|].
  destruct (endswith ".xls" (lower (name f))).
  - destruct (try_engine b xlrd header_row) as [d|] eqn:E2;
      [eapply try_engine_well_formed; eassumption|].
    apply recovered_clean_well_formed.
  - apply recovered_clean_well_formed.
Qed.

(** X7. When the tables that the structured parsers return have one
    cell per column in each row, so has the table extracted from a file
    and tagged with its name, and every row sent to the sheet for the
    file, the header row among them, has as many cells as the table has
    columns. *)
Theorem sent_rows_align (f : file) (c : counters) :
  (forall b e h df, read_excel b e h = Return df -> well_formed df) ->
  let table := tag "source_file_name" (name f) (extracted header_row f) in
  well_formed table
  /\ Forall (fun r => length r = length (columns table)) (sent header_row f c).
Proof.
  intros Hparsers table.
  assert (Hw : well_formed table) by apply tag_well_formed, extracted_well_formed, Hparsers.
  split; [exact Hw|]. apply payload_uniform, Hw.
Qed.

End WithParsers.

End WithFloatStr.

Lemma sent_rows_align_witness :
  Forall (fun r => length r = 3%nat)
    (@sent string example_parsers example_drive example_float_str 2 plain
       (mkCounters 0 0 true false)).
Proof.
  apply (@sent_rows_align example_float_str string example_parsers example_drive 2 plain
           (mkCounters 0 0 true false)).
  intros b e h df. simpl. destruct (String.eqb b "goods"); [|discriminate].
  intros [= <-]. repeat constructor.
Defined.

End TableFacts.

(** ** CompactionPass: the shape of what is written, the count of rows *)

Module CompactionShapeFacts.
Import PyStr Sheets Cleaner Compaction CompactionFacts Examples.

Lemma length_le_widest (values : grid) row : row ∈ values -> (length row <= widest values)%nat.
Proof.
  unfold widest. induction values as [|r values IH]; [intros Hr; inversion Hr|].
  simpl. intros [->|Hr]%elem_of_cons; [lia|]. specialize (IH Hr). lia.
Qed.

Lemma length_pad max_len row : (length row <= max_len)%nat -> length (pad max_len row) = max_len.
Proof. intros Hl. unfold pad. rewrite length_app, length_replicate. lia. Qed.

Lemma padded_uniform (values : grid) :
  Forall (fun r => length r = widest values) (map (pad (widest values)) values).
Proof.
  apply Forall_fmap, Forall_forall. intros r Hr. simpl.
  apply length_pad, length_le_widest, Hr.
Qed.

(** The frame loaded from the sheet has one cell per column in each row,
    and one row for each row of the sheet after the first. *)
Lemma load_well_formed (values : grid) : well_formed (load values).
Proof.
  unfold load. pose proof (padded_uniform values) as Hu.
  destruct (map (pad (widest values)) values) as [|first data];
    [constructor|].
  apply Forall_cons_1 in Hu as [Hfirst Hdata].
  unfold well_formed, rebuild_headers. simpl. rewrite length_imap, Hfirst.
  apply Forall_fmap. eapply Forall_impl; [exact Hdata|].
  intros r Hr. simpl. rewrite length_map. exact Hr.
Qed.

Lemma length_rows_load (values : grid) :
  length (rows (load values)) = (length values - 1)%nat.
Proof.
  unfold load. pose proof (length_map (pad (widest values)) values) as Hl.
  destruct (map (pad (widest values)) values) as [|first data]; simpl in *.
  - lia.
  - rewrite length_map. lia.
Qed.

Lemma drop_duplicate_keys_sublist df : sublist (rows (drop_duplicate_keys df)) (rows df).
Proof.
  unfold drop_duplicate_keys. destruct (has_key_columns df); [|reflexivity].
  apply keep_first_sublist.
Qed.

Lemma drop_duplicate_keys_well_formed df :
  well_formed df -> well_formed (drop_duplicate_keys df).
Proof.
  unfold well_formed. rewrite columns_drop_duplicate_keys, !Forall_forall.
  intros Hw r Hr. apply Hw. eapply elem_of_sublist; [exact Hr|].
  apply drop_duplicate_keys_sublist.
Qed.

(** What [select] keeps of a list depends on its length alone. *)
Lemma select_length {A B} (keep : nat -> bool) (l1 : list A) (l2 : list B) :
  length l1 = length l2 -> length (select keep l1) = length (select keep l2).
Proof.
  revert keep l2. induction l1 as [|x l1 IH]; intros keep [|y l2] Hl;
    try discriminate; [reflexivity|].
  rewrite !select_cons, !length_app. simpl in Hl.
  rewrite (IH (fun j => keep (S j)) l2) by lia.
  destruct (keep 0%nat); reflexivity.
Qed.

Lemma map_cells_well_formed f df : well_formed df -> well_formed (map_cells f df).
Proof.
  unfold well_formed, map_cells. simpl. intros Hw.
  apply Forall_fmap. eapply Forall_impl; [exact Hw|].
  intros r Hr. simpl. rewrite length_map. exact Hr.
Qed.

Lemma dropna_rows_well_formed df : well_formed df -> well_formed (dropna_rows df).
Proof.
  unfold well_formed, dropna_rows. simpl. rewrite !Forall_forall.
  intros Hw r [_ Hr]%list_elem_of_filter. apply Hw, Hr.
Qed.

Lemma dropna_columns_well_formed df : well_formed df -> well_formed (dropna_columns df).
Proof.
  unfold well_formed, dropna_columns. simpl. intros Hw.
  apply Forall_fmap. eapply Forall_impl; [exact Hw|].
  intros r Hr. simpl. apply select_length, Hr.
Qed.

Lemma prune_well_formed df : well_formed df -> well_formed (prune df).
Proof.
  intros Hw. unfold prune.
  apply map_cells_well_formed, dropna_columns_well_formed, dropna_rows_well_formed,
    map_cells_well_formed, Hw.
Qed.

Lemma sort_by_PoNo_well_formed df df' :
  sort_by_PoNo df = Return df' -> well_formed df -> well_formed df'.
Proof.
  intros Hs Hw. apply rows_sort_by_PoNo in Hs as [Hc Hp].
  unfold well_formed. rewrite Hc. eapply Permutation_Forall; [symmetry; exact Hp|exact Hw].
Qed.

(** X9. What the compaction writes back is a rectangle: a header row,
    and under it rows that all have as many cells as the header. *)
Theorem compaction_writes_rectangle (values : grid) (out : rewrite) :
  compact values = Return out ->
  exists header records,
    written out = header :: records
    /\ Forall (fun r => length r = length header) records.
Proof.
  rewrite compact_steps.
  destruct (sort_by_PoNo (prune (drop_duplicate_keys (load values)))) as [d|e] eqn:E;
    [|discriminate].
  intros [= <-]. simpl. unfold serialise. eexists _, _. split; [reflexivity|].
  assert (Hw : well_formed d).
  { eapply sort_by_PoNo_well_formed; [exact E|].
    apply prune_well_formed, drop_duplicate_keys_well_formed, load_well_formed. }
  rewrite length_map. apply Forall_fmap. eapply Forall_impl; [exact Hw|].
  intros r Hr. simpl. rewrite length_map. exact Hr.
Qed.

Lemma compaction_writes_rectangle_witness :
  exists header records,
    [[SText "Skucode"; SText "PoNo"; SText "Qty"]; [SText "a"; SInt 1; SInt 5]]
    = header :: records
    /\ Forall (fun r => length r = length header) records.
Proof.
  apply (compaction_writes_rectangle blank_rows_sheet
           (mkRewrite [[SText "Skucode"; SText "PoNo"; SText "Qty"];
                       [SText "a"; SInt 1; SInt 5]] 1 1)).
  vm_compute. reflexivity.
Defined.

(** X10. Every row of the sheet under the first is accounted for once:
    it is written back, or counted as a duplicate removed, or counted
    as a blank row removed. *)
Theorem compaction_accounts_for_rows (values : grid) (out : rewrite) :
  compact values = Return out ->
  (length values - 1)%nat
  = (removed_dup out + removed_clean out + length (tail (written out)))%nat.
Proof.
  rewrite compact_steps.
  pose proof (sublist_length _ _ (drop_duplicate_keys_sublist (load values))) as H1.
  pose proof (length_rows_prune (drop_duplicate_keys (load values))) as H2.
  pose proof (length_filter (fun r => entirely_blank r = false)
                (rows (drop_duplicate_keys (load values)))) as H3.
  pose proof (length_rows_load values) as H4.
  remember (load values) as df0 eqn:E0.
  remember (drop_duplicate_keys df0) as df1 eqn:E1.
  remember (prune df1) as df2 eqn:E2.
  destruct (sort_by_PoNo df2) as [d|e] eqn:E; [|discriminate].
  intros [= <-]. unfold serialise. cbn [written removed_dup removed_clean tail].
  rewrite (length_map (map process_value)).
  apply rows_sort_by_PoNo in E as [_ Hp]. rewrite (Permutation_length Hp). lia.
Qed.

Lemma compaction_accounts_for_rows_witness :
  (length blank_rows_sheet - 1)%nat = (1 + 1 + 1)%nat.
Proof.
  apply (compaction_accounts_for_rows blank_rows_sheet
           (mkRewrite [[SText "Skucode"; SText "PoNo"; SText "Qty"];
                       [SText "a"; SInt 1; SInt 5]] 1 1)).
  vm_compute. reflexivity.
Defined.

End CompactionShapeFacts.


(** ** The batch: every file is counted once *)

Module AccountingFacts.
Import PyStr Sheets Ledger Appender Compaction Workflow LedgerFacts RunFacts WorkflowFacts
       Examples.

Lemma gate_partition (ledger : gset string) (excel_files : list file) :
  (length (fst (gate ledger excel_files)) + snd (gate ledger excel_files))%nat
  = length excel_files.
Proof.
  induction excel_files as [|f l IH]; [reflexivity|].
  simpl. destruct (gate ledger l) as [todo skipped]. simpl in IH.
  destruct (bool_decide (name f ∈ ledger)); simpl; lia.
Qed.

Section Run.
Context {bytes : Type} `{Extractor.Parsers bytes} `{Drive bytes}
        `{FloatStr} `{SheetFormat} `{Faults}.
Variable header_row : Z.

(** A file that goes through the body of the loop is counted as
    processed or as failed; the counters of the run other than the
    messages are not touched. *)
Lemma merge_file_counts i f c w :
  exists c' w',
    merge_file header_row i f c w = (Return c', w')
    /\ (processed_count c' + failed_count c')%nat
       = S (processed_count c + failed_count c)
    /\ files_found (stats w') = files_found (stats w)
    /\ files_skipped (stats w') = files_skipped (stats w).
Proof.
  destruct (is_empty (extracted header_row f)) eqn:He.
  - rewrite merge_file_empty by exact He. eexists _, _. split; [reflexivity|].
    simpl. repeat split; lia.
  - destruct (fault (AppendGet i)) as [e|] eqn:Hg.
    + rewrite (merge_file_fault header_row i f c w e He) by (left; exact Hg).
      eexists _, _. split; [reflexivity|]. simpl. repeat split; lia.
    + destruct (fault (AppendWrite i)) as [e|] eqn:Hw.
      * rewrite (merge_file_fault header_row i f c w e He) by (right; split; assumption).
        eexists _, _. split; [reflexivity|]. simpl. repeat split; lia.
      * rewrite merge_file_ok by assumption.
        eexists _, _. split; [reflexivity|]. simpl. repeat split; lia.
Qed.

Lemma merge_loop_counts files : forall i c w,
  exists c' w',
    merge_loop header_row i files c w = (Return c', w')
    /\ (processed_count c' + failed_count c')%nat
       = (processed_count c + failed_count c + length files)%nat
    /\ files_found (stats w') = files_found (stats w)
    /\ files_skipped (stats w') = files_skipped (stats w).
Proof.
  induction files as [|f rest IH]; intros i c w.
  - eexists _, _. split; [reflexivity|]. simpl. repeat split; lia.
  - rewrite merge_loop_cons.
    destruct (merge_file_counts i f c w) as (c1 & w1 & -> & Hs1 & Hf1 & Hk1).
    destruct (IH (S i) c1 w1) as (c2 & w2 & -> & Hs2 & Hf2 & Hk2).
    eexists _, _. split; [reflexivity|]. simpl. repeat split; lia || congruence.
Qed.

Lemma merge_and_compact_counts files w :
  exists n w',
    merge_and_compact header_row files w = (Return (mkReport true n), w')
    /\ n = files_processed (stats w')
    /\ (files_processed (stats w') + files_failed (stats w'))%nat = length files
    /\ files_found (stats w') = files_found (stats w)
    /\ files_skipped (stats w') = files_skipped (stats w).
Proof.
  unfold merge_and_compact, bind at 1. rewrite check_run. unfold bind at 1.
  destruct (merge_loop_counts files 0%nat
              (mkCounters 0 0 true
                 match fault CheckGet with
                 | Some _ => false
                 | None => negb (is_nil (get_A1 (sheet w)))
                 end) w) as (c & w1 & -> & Hs & Hf & Hk).
  simpl in Hs.
  unfold bind at 1, modify_stats at 1, set_stats. simpl.
  destruct (0 <? processed_count c)%nat.
  - unfold bind at 1 2.
    match goal with
    | |- context [_remove_duplicates_from_sheet ?w0] =>
        destruct (compaction_run w0) as (n & g' & ->)
    end.
    eexists _, _. split; [reflexivity|]. simpl. repeat split; lia || congruence.
  - eexists _, _. split; [reflexivity|]. simpl. repeat split; lia || congruence.
Qed.

(** X11. Started with the counters of skipped, processed and failed
    files at zero, the workflow ends, whatever calls raise, with every
    file of the listing counted exactly once: the files found are the
    files of the listing, and they are as many as the files processed,
    skipped and failed together.  The count it returns is the count of
    the files processed. *)
Theorem excel_workflow_accounts_for_files (excel_files : list file) (w : world) :
  files_processed (stats w) = 0%nat ->
  files_skipped (stats w) = 0%nat ->
  files_failed (stats w) = 0%nat ->
  exists n w',
    process_excel_workflow header_row excel_files w = (Return (mkReport true n), w')
    /\ n = files_processed (stats w')
    /\ files_found (stats w') = length excel_files
    /\ files_found (stats w')
       = (files_processed (stats w') + files_skipped (stats w')
          + files_failed (stats w'))%nat.
Proof.
  intros Hp Hs Hf. destruct excel_files as [|f rest].
  - eexists _, _. split; [reflexivity|]. simpl. repeat split; lia.
  - rewrite workflow_steps by discriminate.
    destruct (merge_and_compact_counts
                (fst (gate (consulted (f :: rest) w) (f :: rest)))
                (gated (f :: rest) w))
      as (n & w' & -> & Hn & Hsum & Hfound & Hskip).
    exists n, w'. split; [reflexivity|]. split; [exact Hn|].
    pose proof (gate_partition (consulted (f :: rest) w) (f :: rest)) as Hg.
    unfold gated in Hfound, Hskip. cbn [stats files_found files_skipped] in Hfound, Hskip.
    rewrite prepared_stats in Hfound, Hskip. cbn [files_found files_skipped] in Hfound, Hskip.
    split; [exact Hfound|]. lia.
Qed.

End Run.

Lemma excel_workflow_accounts_for_files_witness :
  exists n w',
    run no_fault [plain; padded] blank_world = (Return (mkReport true n), w')
    /\ n = files_processed (stats w')
    /\ files_found (stats w') = 2%nat
    /\ files_found (stats w')
       = (files_processed (stats w') + files_skipped (stats w')
          + files_failed (stats w'))%nat.
Proof.
  apply (@excel_workflow_accounts_for_files string example_parsers example_drive
           example_float_str example_format no_fault 2 [plain; padded] blank_world);
    reflexivity.
Defined.

End AccountingFacts.


(** ** The tracking column once ensured *)

Module EnsureFacts.
Import PyStr Sheets Ledger Workflow LedgerFacts RunFacts Examples.

(** *** What a read leaves out at the end of a row *)

Lemma drop_end_all {A} (p : A -> bool) l :
  Forall (fun x => p x = true) l -> drop_end p l = [].
Proof. induction 1 as [|x l Hx _ IH]; simpl; [reflexivity|]. rewrite IH, Hx. reflexivity. Qed.

Lemma drop_end_app_all {A} (p : A -> bool) l t :
  Forall (fun x => p x = true) t -> drop_end p (l ++ t) = drop_end p l.
Proof.
  intros Ht. induction l as [|x l IH]; simpl; [apply drop_end_all, Ht|].
  rewrite IH. reflexivity.
Qed.

Lemma drop_end_snoc {A} (p : A -> bool) l x :
  p x = false -> drop_end p (l ++ [x]) = (l ++ [x])%list.
Proof.
  intros Hx. induction l as [|a l IH]; simpl; [rewrite Hx; reflexivity|].
  rewrite IH. destruct (l ++ [x])%list eqn:E; [destruct l; discriminate|reflexivity].
Qed.

Lemma drop_end_split {A} (p : A -> bool) l :
  exists t, l = (drop_end p l ++ t)%list /\ Forall (fun x => p x = true) t.
Proof.
  induction l as [|x l (t & Hl & Ht)]; [exists []; split; [reflexivity|constructor]|].
  simpl. destruct (drop_end p l) as [|y r] eqn:E.
  - destruct (p x) eqn:Hx.
    + exists (x :: l). split; [reflexivity|]. simpl in Hl. subst t.
      constructor; assumption.
    + exists l. split; [reflexivity|]. simpl in Hl. subst t. exact Ht.
  - exists t. split; [|exact Ht]. simpl. f_equal. exact Hl.
Qed.

Lemma drop_end_idem {A} (p : A -> bool) l : drop_end p (drop_end p l) = drop_end p l.
Proof.
  induction l as [|x l IH]; [reflexivity|]. simpl.
  destruct (drop_end p l) as [|y r] eqn:E.
  - destruct (p x) eqn:Hx; simpl; [reflexivity|rewrite Hx; reflexivity].
  - change (drop_end p (x :: y :: r))
      with (match drop_end p (y :: r) with
            | [] => if p x then [] else [x]
            | r' => x :: r'
            end).
    rewrite IH. reflexivity.
Qed.

Lemma drop_end_head {A} (p : A -> bool) x l :
  p x = false -> exists t, drop_end p (x :: l) = x :: t.
Proof.
  intros Hx. simpl. destruct (drop_end p l); [rewrite Hx|]; eexists; reflexivity.
Qed.

Lemma overlay_row_app new old :
  overlay_row new old = (new ++ drop (length new) old)%list.
Proof.
  revert old. induction new as [|n ns IH]; intros old; [destruct old; reflexivity|].
  destruct old as [|o os]; simpl; [rewrite app_nil_r; reflexivity|].
  rewrite IH. reflexivity.
Qed.

(** The header row with the tracking header put after its last cell. *)
Lemma overlay_tracking_header row headers :
  drop_end is_blank row = headers ->
  exists blanks,
    overlay_row (headers ++ ["source_file_name"])%list row
    = ((headers ++ ["source_file_name"]) ++ blanks)%list
    /\ Forall (fun x => is_blank x = true) blanks.
Proof.
  intros Hh. destruct (drop_end_split is_blank row) as (t & Hrow & Ht).
  rewrite Hh in Hrow. rewrite overlay_row_app. exists (drop 1 t). split.
  - f_equal. rewrite Hrow at 1. rewrite length_app. simpl. apply drop_app_add.
  - apply Forall_drop, Ht.
Qed.

Lemma get_row_1_inv (g : grid) headers rest :
  get_row_1 g = headers :: rest ->
  exists row g', g = row :: g' /\ drop_end is_blank row = headers /\ headers <> [] /\ rest = [].
Proof.
  unfold get_row_1, reported. destruct g as [|row g']; [discriminate|].
  change (take 1 (row :: g')) with [row]. simpl.
  destruct (drop_end is_blank row) as [|h hs] eqn:E; [discriminate|].
  cbn [is_nil]. intros [= <- <-]. exists row, g'. repeat split; [exact E|discriminate].
Qed.

Lemma tracking_header_qualifies : is_tracking_header "source_file_name" = true.
Proof. reflexivity. Qed.

Lemma existsb_app_tracking headers :
  existsb is_tracking_header (headers ++ ["source_file_name"])%list = true.
Proof. rewrite existsb_app. simpl. apply orb_true_r. Qed.

(** The first header that qualifies, when none of [headers] does. *)
Lemma tracking_index_appended headers :
  existsb is_tracking_header headers = false ->
  tracking_index (headers ++ ["source_file_name"])%list = Some (length headers).
Proof.
  intros Hno. apply tracking_index_Some. exists "source_file_name".
  split; [|split; [reflexivity|]].
  - rewrite lookup_app_r, Nat.sub_diag by lia. reflexivity.
  - intros j h Hj Hlt Hh. rewrite lookup_app_l in Hj by exact Hlt.
    assert (Hex : existsb is_tracking_header headers = true).
    { apply existsb_exists. exists h. split; [|exact Hh].
      apply list_elem_of_In. eapply list_elem_of_lookup_2, Hj. }
    congruence.
Qed.

Lemma tracking_index_present headers :
  existsb is_tracking_header headers = true -> exists idx, tracking_index headers = Some idx.
Proof.
  intros (h & Hin & Hh)%existsb_exists. apply list_elem_of_In in Hin.
  unfold tracking_index.
  destruct (list_find_elem_of (fun header => is_tracking_header header = true) headers h Hin Hh)
    as [[idx x] ->].
  exists idx. reflexivity.
Qed.

(** The first row that the ledger query reads, for a sheet whose first
    row is [shown] followed by blank cells. *)
Lemma get_A1_ZZ_first_row shown blanks (g' : grid) :
  shown <> [] ->
  drop_end is_blank shown = shown ->
  Forall (fun x => is_blank x = true) blanks ->
  (length shown <= 702)%nat ->
  exists data, get_A1_ZZ ((shown ++ blanks)%list :: g') = shown :: data.
Proof.
  intros Hne Hshown Hblanks Hlen. unfold get_A1_ZZ, reported. simpl.
  rewrite take_app.
  rewrite (take_ge shown) by exact Hlen.
  rewrite drop_end_app_all by (apply Forall_take, Hblanks).
  rewrite Hshown.
  destruct (drop_end_head is_nil shown
              (map (drop_end is_blank) (map (take 702) g'))) as (t & Ht).
  - destruct shown; [congruence|reflexivity].
  - exists t. exact Ht.
Qed.

Section Run.
Context `{Faults}.

(** The world after the tracking header was added. *)
Lemma ensured_appends w headers rest :
  fault EnsureGet = None -> fault EnsureUpdate = None ->
  get_row_1 (sheet w) = headers :: rest ->
  existsb is_tracking_header headers = false ->
  exists row g',
    sheet w = row :: g'
    /\ drop_end is_blank row = headers
    /\ ensured w
       = mkWorld (overlay_row (headers ++ ["source_file_name"])%list row :: g')
                 (stats w) (fetched w).
Proof.
  intros Hg Hu Hr Et.
  pose proof Hr as Hinv. apply get_row_1_inv in Hinv as (row & g' & Hs & Hrow & _ & _).
  exists row, g'. split; [exact Hs|]. split; [exact Hrow|].
  unfold ensured, _ensure_source_file_name_column. run_unfold.
  rewrite Hg, Hr, Et, Hu. simpl. rewrite Hs. simpl. destruct g'; reflexivity.
Qed.

(** What [_ensure_source_file_name_column] leaves, case by case. *)
Lemma ensured_cases w :
  ensured w = w
  \/ exists row g' headers,
       fault EnsureGet = None /\ fault EnsureUpdate = None
       /\ sheet w = row :: g'
       /\ drop_end is_blank row = headers /\ headers <> []
       /\ existsb is_tracking_header headers = false
       /\ ensured w
          = mkWorld (overlay_row (headers ++ ["source_file_name"])%list row :: g')
                    (stats w) (fetched w).
Proof.
  unfold ensured, _ensure_source_file_name_column. run_unfold.
  destruct (fault EnsureGet) eqn:Eg; [left; reflexivity|].
  destruct (get_row_1 (sheet w)) as [|headers rest] eqn:Er; [left; reflexivity|].
  destruct (existsb is_tracking_header headers) eqn:Et; [left; reflexivity|].
  destruct (fault EnsureUpdate) eqn:Eu; [left; reflexivity|].
  right. apply get_row_1_inv in Er as (row & g' & Hg & Hrow & Hne & _).
  exists row, g', headers. repeat split; try assumption.
  simpl. rewrite Hg. simpl. destruct g'; reflexivity.
Qed.

Lemma get_row_1_after row g' headers :
  drop_end is_blank row = headers ->
  get_row_1 (overlay_row (headers ++ ["source_file_name"])%list row :: g')
  = [(headers ++ ["source_file_name"])%list].
Proof.
  intros Hrow. destruct (overlay_tracking_header row headers Hrow) as (blanks & -> & Hb).
  unfold get_row_1, reported.
  change (take 1 (((headers ++ ["source_file_name"]) ++ blanks)%list :: g'))
    with [((headers ++ ["source_file_name"]) ++ blanks)%list].
  cbn [map drop_end].
  rewrite drop_end_app_all by exact Hb.
  rewrite drop_end_snoc by reflexivity.
  destruct (headers ++ ["source_file_name"])%list eqn:E; [destruct headers; discriminate|].
  reflexivity.
Qed.

(** A run in which a call raises leaves the world as it was. *)
Lemma ensured_fault w e :
  fault EnsureGet = Some e \/ fault EnsureUpdate = Some e -> ensured w = w.
Proof.
  intros Hf.
  destruct (ensured_cases w) as [Hw|(row & g' & headers & Hg & Hu & _)]; [exact Hw|].
  destruct Hf as [Hf|Hf]; congruence.
Qed.

(** The first row that the ledger query reads after a run in which no
    call raised. *)
Lemma ensured_ledger_row w headers rest :
  fault EnsureGet = None -> fault EnsureUpdate = None ->
  get_row_1 (sheet w) = headers :: rest ->
  (length headers < 702)%nat ->
  exists shown data idx,
    get_A1_ZZ (sheet (ensured w)) = shown :: data
    /\ tracking_index shown = Some idx
    /\ shown = (if existsb is_tracking_header headers then headers
                else headers ++ ["source_file_name"])%list.
Proof.
  intros Hg Hu Hr Hlen.
  pose proof Hr as Hinv. apply get_row_1_inv in Hinv as (row & g' & Hs & Hrow & Hne & _).
  destruct (drop_end_split is_blank row) as (t & Hsplit & Ht). rewrite Hrow in Hsplit.
  assert (Hidem : drop_end is_blank headers = headers)
    by (rewrite <- Hrow; apply drop_end_idem).
  destruct (existsb is_tracking_header headers) eqn:Et.
  + assert (Hw : ensured w = w) by (eapply ensured_tracked; eassumption).
    rewrite Hw, Hs, Hsplit.
    destruct (get_A1_ZZ_first_row headers t g' Hne Hidem Ht ltac:(lia)) as (data & ->).
    destruct (tracking_index_present headers Et) as (idx & Hi).
    exists headers, data, idx. repeat split. exact Hi.
  + destruct (ensured_appends w headers rest Hg Hu Hr Et) as (row' & g'' & Hs' & _ & Hw).
    * rewrite Hs in Hs'. injection Hs' as <- <-.
      rewrite Hw. cbn [sheet].
      destruct (overlay_tracking_header row headers Hrow) as (blanks & -> & Hb).
      destruct (get_A1_ZZ_first_row (headers ++ ["source_file_name"])%list blanks g')
        as (data & ->).
      -- destruct headers; discriminate.
      -- apply drop_end_snoc. reflexivity.
      -- exact Hb.
      -- rewrite length_app. simpl. lia.
      -- exists (headers ++ ["source_file_name"])%list, data, (length headers).
         repeat split. apply tracking_index_appended, Et.
Qed.

End Run.

(** After a run in which no call raised, a run changes nothing,
    whatever raises in it. *)
Lemma ensured_settled (first later : Faults) w :
  @fault first EnsureGet = None -> @fault first EnsureUpdate = None ->
  @ensured later (@ensured first w) = @ensured first w.
Proof.
  intros Hg Hu.
  assert (Hsame : forall w0,
            (get_row_1 (sheet w0) = []
             \/ exists headers rest, get_row_1 (sheet w0) = headers :: rest
                                     /\ existsb is_tracking_header headers = true) ->
            forall F : Faults, @ensured F w0 = w0).
  { intros w0 Hcase F. unfold ensured, _ensure_source_file_name_column. run_unfold.
    destruct (@fault F EnsureGet); [reflexivity|].
    destruct Hcase as [->|(headers & rest & -> & ->)]; reflexivity. }
  destruct (get_row_1 (sheet w)) as [|headers rest] eqn:Er.
  { rewrite (Hsame w (or_introl Er) first). apply Hsame. left. exact Er. }
  destruct (existsb is_tracking_header headers) eqn:Et.
  { assert (Hcase : get_row_1 (sheet w) = []
                    \/ exists headers rest, get_row_1 (sheet w) = headers :: rest
                          /\ existsb is_tracking_header headers = true)
      by (right; exists headers, rest; split; assumption).
    rewrite (Hsame w Hcase first). apply Hsame, Hcase. }
  destruct (@ensured_appends first w headers rest Hg Hu Er Et)
    as (row & g' & Hs & Hrow & ->).
  apply Hsame. right. exists (headers ++ ["source_file_name"])%list, [].
  split; [|apply existsb_app_tracking].
  cbn [sheet]. apply get_row_1_after, Hrow.
Qed.

(** X12. A run of [_ensure_source_file_name_column] in which the read
    or the update raises leaves the sheet as it was.  After a run in
    which neither raises, a later run changes nothing, whatever raises
    in it.  When the two calls go through on a sheet whose first row
    shows fewer than 702 cells, the first row that the ledger query
    reads afterwards is the header row, with the tracking header after
    its last cell when no header qualified before, and a tracking column
    is found in it. *)
Theorem ensure_tracking_column (first later : Faults) :
  (forall w e,
      @fault first EnsureGet = Some e \/ @fault first EnsureUpdate = Some e ->
      @ensured first w = w)
  /\ (forall w,
        @fault first EnsureGet = None -> @fault first EnsureUpdate = None ->
        @ensured later (@ensured first w) = @ensured first w)
  /\ (forall w headers rest,
        @fault first EnsureGet = None -> @fault first EnsureUpdate = None ->
        get_row_1 (sheet w) = headers :: rest ->
        (length headers < 702)%nat ->
        exists shown data idx,
          get_A1_ZZ (sheet (@ensured first w)) = shown :: data
          /\ tracking_index shown = Some idx
          /\ shown = (if existsb is_tracking_header headers then headers
                      else headers ++ ["source_file_name"])%list).
Proof.
  split; [|split].
  - intros w e. apply ensured_fault.
  - intros w. apply ensured_settled.
  - intros w headers rest. apply ensured_ledger_row.
Qed.

Lemma ensure_tracking_column_witness :
  (exists shown data idx,
     get_A1_ZZ (sheet (@ensured no_fault (mkWorld [["Item"; "Qty"]; ["tea"; "4"]]
                                            fresh_stats [])))
     = shown :: data
     /\ tracking_index shown = Some idx
     /\ shown = ["Item"; "Qty"; "source_file_name"])
  /\ @ensured ledger_down
       (@ensured no_fault (mkWorld [["Item"; "Qty"]; ["tea"; "4"]] fresh_stats []))
     = @ensured no_fault (mkWorld [["Item"; "Qty"]; ["tea"; "4"]] fresh_stats []).
Proof.
  destruct (ensure_tracking_column no_fault ledger_down) as (_ & Hlater & Hread).
  split.
  - apply (Hread (mkWorld [["Item"; "Qty"]; ["tea"; "4"]] fresh_stats [])
                 ["Item"; "Qty"] []); try reflexivity.
    simpl. lia.
  - apply Hlater; reflexivity.
Defined.

End EnsureFacts.

(** ** The listing of the folder of workbooks *)

Module ListingFacts.
Import PyStr PySeq Sheets Workflow Listing Examples.

Section Run.
Context {bytes : Type} `{Extractor.Parsers bytes} `{Drive bytes}
        `{FloatStr} `{SheetFormat} `{Faults}.
Variable header_row : Z.

(** X13. A listing of the folder that raises, and a folder id that is
    blank, are taken for a folder without workbooks: the workflow
    returns with success and zero files processed, records no message,
    and touches neither the sheet nor the drive; only the count of files
    found is set, to zero.  A listing that goes through for a folder id
    that is not blank is handed on as it is. *)
Theorem failed_listing_is_silent (folder_id : string) (listing : outcome (list file))
    (w : world) :
  ((exists e, listing = Raise e) \/ strip folder_id = "" ->
   process_excel_workflow header_row (_get_excel_files_filtered folder_id listing) w
   = (Return (mkReport true 0),
      mkWorld (sheet w)
        (mkStats 0 (files_processed (stats w)) (files_skipped (stats w))
                 (files_failed (stats w)) (duplicates_removed (stats w))
                 (errors (stats w)))
        (fetched w)))
  /\ (forall files, listing = Return files -> strip folder_id <> "" ->
      _get_excel_files_filtered folder_id listing = files).
Proof.
  split.
  - intros Hcase.
    assert (Hnone : _get_excel_files_filtered folder_id listing = []).
    { unfold _get_excel_files_filtered.
      destruct (negb (nonempty folder_id) || String.eqb (strip folder_id) "") eqn:E;
        [reflexivity|].
      destruct Hcase as [(e & ->)|Hblank]; [reflexivity|].
      apply orb_false_iff in E as [_ E]. apply String.eqb_neq in E. congruence. }
    rewrite Hnone. reflexivity.
  - intros files -> Hid. unfold _get_excel_files_filtered.
    destruct (String.eqb_spec (strip folder_id) "") as [?|_]; [congruence|].
    destruct (nonempty folder_id) eqn:E; [reflexivity|].
    exfalso. apply Hid. unfold nonempty in E. apply negb_false_iff, String.eqb_eq in E.
    subst folder_id. reflexivity.
Qed.

End Run.

End ListingFacts.


(** ** The drive: listings and folders *)

Module DriveFacts.
Import PyStr PySeq Mailbox DriveFolders.

Ltac mail_unfold :=
  unfold bind, catch, ret, raise, lift, drive_request, drive_read, drive_create,
    add_error, modify_stats.

(** *** Pages *)

Lemma concat_paged {A} fuel (l : list A) : concat (paged fuel l) = l.
Proof.
  revert l. induction fuel as [|fuel IH]; intros l; simpl; [apply app_nil_r|].
  destruct (length l <=? page_size)%nat; simpl; [apply app_nil_r|].
  rewrite IH. apply take_drop.
Qed.

Lemma paged_not_nil {A} fuel (l : list A) : paged fuel l <> [].
Proof. destruct fuel; simpl; [discriminate|]. destruct (_ <=? _)%nat; discriminate. Qed.

(** A listing longer than a page is served in more than one page. *)
Lemma pages_long {A} (l : list A) :
  (page_size < length l)%nat -> (1 < length (pages l))%nat.
Proof.
  unfold pages. destruct (length l) as [|n] eqn:E; [lia|]. intros Hl. simpl.
  destruct (Nat.leb_spec (length l) page_size) as [Hle|_]; [lia|].
  simpl. pose proof (paged_not_nil n (drop page_size l)).
  destruct (paged n (drop page_size l)); [congruence|simpl; lia].
Qed.

Section Calls.
Context `{DriveFaults} `{DriveIds}.

Lemma read_pages_state folder_id pending : forall page acc s,
  exists o, read_pages folder_id page pending acc s = (o, s).
Proof.
  induction pending as [|files rest IH]; intros page acc s; [eexists; reflexivity|].
  simpl. mail_unfold. destruct (drive_fault (ChildrenList folder_id page));
    [eexists; reflexivity|].
  destruct rest as [|more rest]; [eexists; reflexivity|]. apply IH.
Qed.

Lemma read_pages_ok folder_id pending : forall page acc s,
  (forall k, drive_fault (ChildrenList folder_id k) = None) ->
  pending <> [] ->
  read_pages folder_id page pending acc s
  = (Return (acc ∪ list_to_set (concat pending)), s).
Proof.
  induction pending as [|files rest IH]; intros page acc s Hok Hne; [congruence|].
  simpl. mail_unfold. rewrite Hok.
  destruct rest as [|more rest].
  - simpl. rewrite app_nil_r. reflexivity.
  - cbn [Sheets.is_nil]. rewrite IH by (exact Hok || discriminate).
    f_equal. f_equal. apply set_eq. intros x.
    change (concat (files :: more :: rest)) with (files ++ concat (more :: rest))%list.
    rewrite !elem_of_union, !elem_of_list_to_set, elem_of_app. tauto.
Qed.

Lemma read_pages_fault folder_id pending : forall page acc s k e,
  (k < length pending)%nat ->
  drive_fault (ChildrenList folder_id (page + k)) = Some e ->
  (forall j, (j < k)%nat -> drive_fault (ChildrenList folder_id (page + j)) = None) ->
  read_pages folder_id page pending acc s = (Raise e, s).
Proof.
  induction pending as [|files rest IH]; intros page acc s k e Hk He Hbefore;
    [simpl in Hk; lia|].
  simpl. mail_unfold. destruct k as [|k].
  - rewrite Nat.add_0_r in He. rewrite He. reflexivity.
  - pose proof (Hbefore 0%nat ltac:(lia)) as Hfirst. rewrite Nat.add_0_r in Hfirst. rewrite Hfirst.
    destruct rest as [|more rest]; [simpl in Hk; lia|]. cbn [Sheets.is_nil].
    apply (IH (S page) _ s k e).
    + simpl in Hk |- *. lia.
    + replace (S page + k)%nat with (page + S k)%nat by lia. exact He.
    + intros j Hj. replace (S page + j)%nat with (page + S j)%nat by lia.
      apply Hbefore. lia.
Qed.

Lemma existing_files_returns folder_id s :
  exists names, _get_existing_files_in_folder folder_id s = (Return names, s).
Proof.
  unfold _get_existing_files_in_folder, catch.
  destruct (read_pages_state folder_id (pages (children folder_id (drive s))) 0 ∅ s)
    as (o & ->).
  destruct o; eexists; reflexivity.
Qed.

Lemma existing_files_complete folder_id s :
  (forall k, drive_fault (ChildrenList folder_id k) = None) ->
  _get_existing_files_in_folder folder_id s
  = (Return (list_to_set (children folder_id (drive s))), s).
Proof.
  intros Hok. unfold _get_existing_files_in_folder, catch.
  rewrite read_pages_ok by (exact Hok || apply paged_not_nil).
  unfold pages. rewrite concat_paged. f_equal. f_equal.
  apply set_eq. intros x. rewrite elem_of_union, elem_of_empty. tauto.
Qed.

(** X14. The listing of a folder never raises and changes nothing.
    When no request raises it returns the names of all the entries of
    the folder, however many pages they take.  When the request of a
    page raises, it returns the empty set: the names read from the
    pages before are dropped with it. *)
Theorem existing_files_listing :
  (forall folder_id s,
      exists names, _get_existing_files_in_folder folder_id s = (Return names, s))
  /\ (forall folder_id s,
        (forall k, drive_fault (ChildrenList folder_id k) = None) ->
        _get_existing_files_in_folder folder_id s
        = (Return (list_to_set (children folder_id (drive s))), s))
  /\ (forall folder_id s k e,
        (k < length (pages (children folder_id (drive s))))%nat ->
        drive_fault (ChildrenList folder_id k) = Some e ->
        (forall j, (j < k)%nat -> drive_fault (ChildrenList folder_id j) = None) ->
        _get_existing_files_in_folder folder_id s = (Return ∅, s))
  /\ (forall {A} (l : list A), concat (pages l) = l)
  /\ (forall {A} (l : list A), (page_size < length l)%nat -> (1 < length (pages l))%nat).
Proof.
  split; [exact existing_files_returns|]. split; [exact existing_files_complete|].
  split; [|split].
  - intros folder_id s k e Hk He Hbefore. unfold _get_existing_files_in_folder, catch.
    rewrite (read_pages_fault folder_id _ 0 ∅ s k e Hk He Hbefore). reflexivity.
  - intros A l. apply concat_paged.
  - intros A l. apply pages_long.
Qed.

(** *** Folders *)

Lemma create_drive_folder_cases folder_name parent_folder_id s :
  _create_drive_folder folder_name parent_folder_id s
  = match drive_fault (FolderList folder_name parent_folder_id) with
    | Some _ => (Return "", s)
    | None =>
        match filter (fun it => folder_matches folder_name parent_folder_id it = true)
                     (drive s) with
        | f :: _ => (Return (item_id f), s)
        | [] =>
            match drive_fault (FolderCreate folder_name parent_folder_id) with
            | Some _ => (Return "", s)
            | None =>
                (Return (new_id (drive s)),
                 mkState (drive s
                          ++ [mkItem (new_id (drive s)) folder_name
                                (if nonempty parent_folder_id then [parent_folder_id] else [])
                                true])
                         (stats s))
            end
        end
    end.
Proof.
  unfold _create_drive_folder. mail_unfold.
  destruct (drive_fault (FolderList folder_name parent_folder_id)); [reflexivity|].
  destruct (filter _ (drive s)); [|reflexivity].
  destruct (drive_fault (FolderCreate folder_name parent_folder_id)); reflexivity.
Qed.

Lemma new_folder_matches folder_name parent_folder_id new :
  folder_matches folder_name parent_folder_id
    (mkItem new folder_name (if nonempty parent_folder_id then [parent_folder_id] else []) true)
  = true.
Proof.
  unfold folder_matches. simpl. rewrite String.eqb_refl. simpl.
  destruct (nonempty parent_folder_id); [|reflexivity]. simpl.
  apply bool_decide_eq_true_2. left.
Qed.

(** The call returns, adds at most one entry, a folder, at the end of
    the drive, and leaves the counters. *)
Lemma create_drive_folder_grows folder_name parent_folder_id s :
  exists folder_id s',
    _create_drive_folder folder_name parent_folder_id s = (Return folder_id, s')
    /\ stats s' = stats s
    /\ exists new, drive s' = (drive s ++ new)%list
                   /\ Forall (fun it => is_folder it = true) new.
Proof.
  rewrite create_drive_folder_cases.
  destruct (drive_fault (FolderList folder_name parent_folder_id)).
  { eexists _, _. split; [reflexivity|]. split; [reflexivity|].
    exists []. rewrite app_nil_r. split; [reflexivity|constructor]. }
  destruct (filter _ (drive s)).
  2:{ eexists _, _. split; [reflexivity|]. split; [reflexivity|].
      exists []. rewrite app_nil_r. split; [reflexivity|constructor]. }
  destruct (drive_fault (FolderCreate folder_name parent_folder_id)).
  { eexists _, _. split; [reflexivity|]. split; [reflexivity|].
    exists []. rewrite app_nil_r. split; [reflexivity|constructor]. }
  eexists _, _. split; [reflexivity|]. split; [reflexivity|].
  eexists. split; [reflexivity|]. constructor; [reflexivity|constructor].
Qed.

(** Once a folder was found or made for a name under a parent, the same
    folder is found in the drive as it is then and in every drive that
    extends it: nothing is made again. *)
Lemma create_drive_folder_stable folder_name parent_folder_id s folder_id s1 :
  drive_fault (FolderList folder_name parent_folder_id) = None ->
  drive_fault (FolderCreate folder_name parent_folder_id) = None ->
  _create_drive_folder folder_name parent_folder_id s = (Return folder_id, s1) ->
  forall s2, drive s1 `prefix_of` drive s2 ->
    _create_drive_folder folder_name parent_folder_id s2 = (Return folder_id, s2).
Proof.
  intros Hl Hc. rewrite create_drive_folder_cases, Hl, Hc.
  intros Hrun s2 [k Hk]. rewrite create_drive_folder_cases, Hl, Hk.
  destruct (filter _ (drive s)) as [|f fs] eqn:E.
  - injection Hrun as <- <-. simpl. rewrite !filter_app, E. simpl.
    rewrite filter_cons, decide_True by apply new_folder_matches. reflexivity.
  - injection Hrun as <- <-. rewrite filter_app, E. reflexivity.
Qed.

End Calls.

(** X15. [_create_drive_folder] never raises and adds at most one entry.
    A call in which the listing raises, or the creation when it comes to
    it, returns the empty text and leaves the drive as it was.  After a
    call in which they went through, a later call for the same name
    under the same parent changes nothing, whatever raises in it: it
    returns the same id when its listing goes through, and the empty
    text when its listing raises. *)
Theorem create_drive_folder_idempotent (first later : DriveFaults) (ids ids' : DriveIds)
    (folder_name parent_folder_id : string) (s : state) :
  let found :=
    filter (fun it => folder_matches folder_name parent_folder_id it = true) (drive s) in
  exists folder_id s1,
    @_create_drive_folder first ids folder_name parent_folder_id s = (Return folder_id, s1)
    /\ (length (drive s1) <= S (length (drive s)))%nat
    /\ ((exists e, @drive_fault first (FolderList folder_name parent_folder_id) = Some e)
        \/ (found = []
            /\ exists e, @drive_fault first (FolderCreate folder_name parent_folder_id)
                         = Some e) ->
        folder_id = "" /\ s1 = s)
    /\ (@drive_fault first (FolderList folder_name parent_folder_id) = None ->
        found <> []
        \/ @drive_fault first (FolderCreate folder_name parent_folder_id) = None ->
        exists folder_id',
          @_create_drive_folder later ids' folder_name parent_folder_id s1
          = (Return folder_id', s1)
          /\ (@drive_fault later (FolderList folder_name parent_folder_id) = None ->
              folder_id' = folder_id)
          /\ (forall e,
                @drive_fault later (FolderList folder_name parent_folder_id) = Some e ->
                folder_id' = "")).
Proof.
  intros found. rewrite (@create_drive_folder_cases first ids). fold found.
  assert (Hlater : forall f fs s1,
            filter (fun it => folder_matches folder_name parent_folder_id it = true)
                   (drive s1) = f :: fs ->
            exists folder_id',
              @_create_drive_folder later ids' folder_name parent_folder_id s1
              = (Return folder_id', s1)
              /\ (@drive_fault later (FolderList folder_name parent_folder_id) = None ->
                  folder_id' = item_id f)
              /\ (forall e,
                    @drive_fault later (FolderList folder_name parent_folder_id) = Some e ->
                    folder_id' = "")).
  { intros f fs s1 E. rewrite (@create_drive_folder_cases later ids'), E.
    destruct (@drive_fault later (FolderList folder_name parent_folder_id)).
    - eexists. split; [reflexivity|]. split; [discriminate|reflexivity].
    - eexists. split; [reflexivity|]. split; [reflexivity|discriminate]. }
  destruct (@drive_fault first (FolderList folder_name parent_folder_id)) as [e|] eqn:Hl.
  { eexists _, _. split; [reflexivity|]. split; [lia|].
    split; [intros _; split; reflexivity|discriminate]. }
  destruct found as [|f fs] eqn:E.
  2:{ eexists _, _. split; [reflexivity|]. split; [lia|]. split.
      - intros [(e & He)|(Hnil & _)]; discriminate.
      - intros _ _. eapply Hlater. exact E. }
  destruct (@drive_fault first (FolderCreate folder_name parent_folder_id)) as [e|] eqn:Hc.
  { eexists _, _. split; [reflexivity|]. split; [lia|].
    split; [intros _; split; reflexivity|].
    intros _ [Hne|Hnone]; [congruence|discriminate]. }
  eexists _, _. split; [reflexivity|]. split; [cbn [drive]; rewrite length_app; simpl; lia|].
  split.
  - intros [(e & He)|(_ & e & He)]; discriminate.
  - intros _ _.
    apply (Hlater (mkItem (@new_id ids (drive s)) folder_name
                     (if nonempty parent_folder_id then [parent_folder_id] else []) true) []).
    cbn [drive]. unfold found in E. rewrite filter_app, E. simpl.
    rewrite filter_cons, decide_True by apply new_folder_matches. reflexivity.
Qed.

End DriveFacts.


(** ** Attachments *)

Module AttachmentFacts.
Import PyStr PySeq Filenames Mailbox DriveFolders Attachments DriveFacts.

(** Induction over a message part and the parts inside it. *)
Lemma payload_parts_ind (P : payload -> Prop) :
  (forall parts, Forall P parts -> P (Multipart parts)) ->
  (forall filename attachmentId, P (Single filename attachmentId)) ->
  forall p, P p.
Proof.
  intros Hm Hs. fix IH 1. intros [parts|filename attachmentId]; [|apply Hs].
  apply Hm. induction parts as [|p parts IHp]; constructor; [apply IH|exact IHp].
Qed.

Lemma children_mono folder_id (d1 d2 : list item) name :
  d1 `prefix_of` d2 -> name ∈ children folder_id d1 -> name ∈ children folder_id d2.
Proof.
  intros [k ->]. unfold children. rewrite filter_app, fmap_app, elem_of_app. tauto.
Qed.

Section Calls.
Context `{Gmail} `{DriveFaults} `{DriveIds}.

Lemma files_in_app new1 new2 : files_in (new1 ++ new2) = (files_in new1 + files_in new2)%nat.
Proof. unfold files_in. rewrite filter_app, length_app. reflexivity. Qed.

Lemma files_in_folders new : Forall (fun it => is_folder it = true) new -> files_in new = 0%nat.
Proof.
  unfold files_in. induction 1 as [|it l Hit _ IH]; [reflexivity|].
  rewrite filter_cons, decide_False by congruence. exact IH.
Qed.

Lemma extract_multipart message_id parts sender_info base_folder_id :
  _extract_attachments_from_email message_id (Multipart parts) sender_info base_folder_id
  = each_part
      (fun part => _extract_attachments_from_email message_id part sender_info base_folder_id)
      parts no_counts.
Proof. reflexivity. Qed.

Lemma each_part_cons (extract : payload -> D counts) part rest acc :
  each_part extract (part :: rest) acc
  = bind (extract part) (fun c => each_part extract rest (add_counts acc c)).
Proof. reflexivity. Qed.

(** *** One attachment *)

Lemma save_attachment_run message_id filename attachment_id sender_info base_folder_id s :
  exists c s',
    save_attachment message_id filename attachment_id sender_info base_folder_id s
    = (Return c, s')
    /\ stats s' = stats s
    /\ (exists new, drive s' = (drive s ++ new)%list /\ files_in new = saved c)
    /\ found c = 1%nat
    /\ (saved c + skipped c + failed c)%nat = 1%nat.
Proof.
  unfold save_attachment, catch.
  destruct (sender_address (sender sender_info)) as [sender_email|].
  2:{ eexists _, _. split; [reflexivity|]. split; [reflexivity|].
      split; [exists []; rewrite app_nil_r; split; reflexivity|]. split; reflexivity. }
  unfold bind at 1.
  destruct (create_drive_folder_grows (_sanitize_filename sender_email) base_folder_id s)
    as (fid & s1 & -> & Hst & new1 & Hd1 & Hf1).
  assert (Hnone : files_in new1 = 0%nat) by apply files_in_folders, Hf1.
  unfold bind at 1.
  destruct (existing_files_returns fid s1) as (names & ->).
  destruct (bool_decide _).
  { eexists _, _. split; [reflexivity|]. split; [exact Hst|].
    split; [exists new1; split; assumption|]. split; reflexivity. }
  unfold bind at 1, lift.
  destruct (attachment_data message_id attachment_id).
  2:{ eexists _, _. split; [reflexivity|]. split; [exact Hst|].
      split; [exists new1; split; assumption|]. split; reflexivity. }
  unfold bind, drive_create, ret.
  destruct (drive_fault (Upload _ fid)).
  { eexists _, _. split; [reflexivity|]. split; [exact Hst|].
    split; [exists new1; split; assumption|]. split; reflexivity. }
  eexists _, _. split; [reflexivity|]. split; [exact Hst|].
  split; [|split; reflexivity].
  eexists (new1 ++ [_])%list. simpl. rewrite Hd1, <- app_assoc. split; [reflexivity|].
  rewrite files_in_app, Hnone. reflexivity.
Qed.

(** *** The parts of a message *)

Lemma each_part_run (extract : payload -> D counts) parts :
  Forall (fun part => forall s, exists c s',
            extract part s = (Return c, s')
            /\ stats s' = stats s
            /\ (exists new, drive s' = (drive s ++ new)%list /\ files_in new = saved c)
            /\ found c = excel_attachments part
            /\ (saved c + skipped c + failed c)%nat = found c) parts ->
  forall acc s, exists t s',
    each_part extract parts acc s = (Return t, s')
    /\ stats s' = stats s
    /\ (exists new, drive s' = (drive s ++ new)%list
                    /\ (files_in new + saved acc)%nat = saved t)
    /\ found t = (found acc + list_sum (map excel_attachments parts))%nat
    /\ (failed acc <= failed t)%nat
    /\ (saved t + skipped t + failed t + found acc)%nat
       = (found t + (saved acc + skipped acc + failed acc))%nat.
Proof.
  induction 1 as [|part parts Hpart _ IH]; intros acc s.
  - eexists _, _. split; [reflexivity|]. split; [reflexivity|].
    split; [exists []; rewrite app_nil_r; split; reflexivity|].
    simpl. repeat split; lia.
  - rewrite each_part_cons. unfold bind at 1.
    destruct (Hpart s) as (c & s1 & -> & Hst1 & (new1 & Hd1 & Hn1) & Hf1 & Hsum1).
    destruct (IH (add_counts acc c) s1)
      as (t & s2 & -> & Hst2 & (new2 & Hd2 & Hn2) & Hf2 & Hle2 & Hsum2).
    eexists _, _. split; [reflexivity|]. split; [congruence|].
    simpl in *. split; [|repeat split; lia].
    exists (new1 ++ new2)%list. rewrite Hd2, Hd1, <- app_assoc. split; [reflexivity|].
    rewrite files_in_app. lia.
Qed.

Lemma extract_run message_id sender_info base_folder_id p : forall s,
  exists c s',
    _extract_attachments_from_email message_id p sender_info base_folder_id s
    = (Return c, s')
    /\ stats s' = stats s
    /\ (exists new, drive s' = (drive s ++ new)%list /\ files_in new = saved c)
    /\ found c = excel_attachments p
    /\ (saved c + skipped c + failed c)%nat = found c.
Proof.
  induction p as [parts IH|filename attachmentId] using payload_parts_ind; intros s.
  - rewrite extract_multipart.
    destruct (each_part_run
                (fun part => _extract_attachments_from_email message_id part sender_info
                               base_folder_id) parts IH no_counts s)
      as (t & s' & Hrun & Hst & (new & Hd & Hn) & Hf & _ & Hsum).
    exists t, s'. simpl in *. split; [exact Hrun|]. split; [exact Hst|].
    split; [exists new; split; [exact Hd|lia]|]. split; lia.
  - assert (Hzero : exists c s',
              (@ret counts no_counts) s = (Return c, s')
              /\ stats s' = stats s
              /\ (exists new, drive s' = (drive s ++ new)%list /\ files_in new = saved c)
              /\ found c = 0%nat
              /\ (saved c + skipped c + failed c)%nat = found c).
    { eexists _, _. split; [reflexivity|]. split; [reflexivity|].
      split; [exists []; rewrite app_nil_r; split; reflexivity|]. split; reflexivity. }
    simpl. destruct attachmentId as [attachment_id|]; [|exact Hzero].
    destruct (nonempty filename); [|exact Hzero]. simpl.
    destruct (is_excel_name filename); [|exact Hzero]. simpl.
    destruct (save_attachment_run message_id filename attachment_id sender_info
                base_folder_id s) as (c & s' & -> & Hst & Hnew & Hf & Hsum).
    exists c, s'. split; [reflexivity|]. split; [exact Hst|]. split; [exact Hnew|].
    split; lia.
Qed.

(** X16. Whatever the services answer, going through a message returns
    four counts of which the last is the number of Excel attachments of
    the message, each of them counted once as saved, skipped or failed.
    The drive is only added to, by as many files as are counted as
    saved; the counters of the run are left as they are. *)
Theorem extract_attachments_counts (message_id : string) (p : payload)
    (sender_info : details) (base_folder_id : string) (s : state) :
  exists c s',
    _extract_attachments_from_email message_id p sender_info base_folder_id s
    = (Return c, s')
    /\ found c = excel_attachments p
    /\ (saved c + skipped c + failed c)%nat = found c
    /\ stats s' = stats s
    /\ exists new,
         drive s' = (drive s ++ new)%list
         /\ files_in new = saved c.
Proof.
  destruct (extract_run message_id sender_info base_folder_id p s)
    as (c & s' & Hrun & Hst & Hnew & Hf & Hsum).
  exists c, s'. repeat split; assumption.
Qed.

(** *** A second pass *)

Section NoFolderFault.
Hypothesis folder_list_ok : forall n q, drive_fault (FolderList n q) = None.
Hypothesis folder_create_ok : forall n q, drive_fault (FolderCreate n q) = None.
Hypothesis children_list_ok : forall i k, drive_fault (ChildrenList i k) = None.

Lemma save_attachment_again message_id filename attachment_id sender_info base_folder_id
    s c s1 :
  save_attachment message_id filename attachment_id sender_info base_folder_id s
  = (Return c, s1) ->
  failed c = 0%nat ->
  forall s2, drive s1 `prefix_of` drive s2 ->
    save_attachment message_id filename attachment_id sender_info base_folder_id s2
    = (Return (mkCounts 0 1 0 1), s2).
Proof.
  unfold save_attachment, catch.
  destruct (sender_address (sender sender_info)) as [sender_email|];
    [|intros [= <- <-]; discriminate].
  unfold bind at 1.
  destruct (create_drive_folder_grows (_sanitize_filename sender_email) base_folder_id s)
    as (fid & sA & Hfolder & _ & newA & HdA & _).
  rewrite Hfolder. unfold bind at 1.
  rewrite (existing_files_complete fid sA) by apply children_list_ok.
  set (final_filename := message_id +:+ "_" +:+ _sanitize_filename filename).
  assert (Hagain : forall s2,
            drive sA `prefix_of` drive s2 ->
            final_filename ∈ children fid (drive s2) ->
            match
              (do type_folder_id <- _create_drive_folder (_sanitize_filename sender_email)
                                      base_folder_id;
               do existing_files <- _get_existing_files_in_folder type_folder_id;
               if bool_decide (final_filename ∈ existing_files)
               then ret (mkCounts 0 1 0 1)
               else
                 do _file_data <- lift (attachment_data message_id attachment_id);
                 do _created <- drive_create (Upload final_filename type_folder_id)
                                  final_filename [type_folder_id] false;
                 ret (mkCounts 1 0 0 1))%mail s2
            with
            | (Return a, s') => (Return a, s')
            | (Raise e, s') => ret (mkCounts 0 0 1 1) s'
            end = (Return (mkCounts 0 1 0 1), s2)).
  { intros s2 Hpre Hin. unfold bind at 1.
    rewrite (create_drive_folder_stable _ _ s fid sA (folder_list_ok _ _)
               (folder_create_ok _ _) Hfolder s2 Hpre).
    unfold bind at 1.
    rewrite (existing_files_complete fid s2) by apply children_list_ok.
    rewrite bool_decide_eq_true_2 by (apply elem_of_list_to_set; exact Hin).
    reflexivity. }
  destruct (bool_decide (final_filename ∈ list_to_set (children fid (drive sA)))) eqn:Ein.
  - intros [= <- <-] _ s2 Hpre. apply Hagain; [exact Hpre|].
    apply bool_decide_eq_true_1, elem_of_list_to_set in Ein.
    eapply children_mono; eassumption.
  - unfold bind at 1, lift.
    destruct (attachment_data message_id attachment_id); [|intros [= <- <-]; discriminate].
    unfold bind, drive_create, ret.
    destruct (drive_fault (Upload final_filename fid)); [intros [= <- <-]; discriminate|].
    intros [= <- <-] _ s2 Hpre. apply Hagain.
    + etransitivity; [|exact Hpre]. simpl. apply prefix_app_r. reflexivity.
    + eapply children_mono; [exact Hpre|]. simpl. unfold children.
      rewrite filter_app, fmap_app, elem_of_app. right.
      rewrite filter_cons, decide_True by (simpl; left). left.
Qed.

Lemma each_part_again (extract : payload -> D counts) parts :
  Forall (fun part => forall s, exists c s',
            extract part s = (Return c, s')
            /\ stats s' = stats s
            /\ (exists new, drive s' = (drive s ++ new)%list /\ files_in new = saved c)
            /\ found c = excel_attachments part
            /\ (saved c + skipped c + failed c)%nat = found c) parts ->
  Forall (fun part => forall s c s1,
            extract part s = (Return c, s1) -> failed c = 0%nat ->
            forall s2, drive s1 `prefix_of` drive s2 ->
              extract part s2 = (Return (mkCounts 0 (found c) 0 (found c)), s2)) parts ->
  forall acc s t s1,
    each_part extract parts acc s = (Return t, s1) ->
    failed t = failed acc ->
    forall acc2 s2, drive s1 `prefix_of` drive s2 ->
      each_part extract parts acc2 s2
      = (Return (mkCounts (saved acc2) (skipped acc2 + (found t - found acc))
                          (failed acc2) (found acc2 + (found t - found acc))), s2).
Proof.
  intros Hrun Hagain. induction parts as [|part parts IH]; intros acc s t s1.
  - simpl. unfold ret. intros [= <- <-] _ acc2 s2 _.
    rewrite Nat.sub_diag, !Nat.add_0_r. destruct acc2; reflexivity.
  - apply Forall_cons_1 in Hrun as [Hpart Hrest].
    apply Forall_cons_1 in Hagain as [Hpart2 Hrest2].
    rewrite !each_part_cons. unfold bind at 1.
    destruct (Hpart s) as (c & sA & Hc & _ & _ & _ & _). rewrite Hc.
    intros Ht Hfailed acc2 s2 Hpre.
    destruct (each_part_run extract parts Hrest (add_counts acc c) sA)
      as (t' & s1' & Hloop & _ & (newB & HdB & _) & Hfound & Hle & _).
    rewrite Ht in Hloop. injection Hloop as <- <-.
    simpl in Hle, Hfound.
    assert (Hc0 : failed c = 0%nat) by lia.
    rewrite each_part_cons. unfold bind at 1.
    rewrite (Hpart2 s c sA Hc Hc0 s2)
      by (etransitivity; [|exact Hpre]; rewrite HdB; apply prefix_app_r; reflexivity).
    assert (Hf2 : failed t = failed (add_counts acc c)) by (simpl; lia).
    rewrite (IH Hrest Hrest2 (add_counts acc c) sA t s1 Ht Hf2 _ s2 Hpre).
    simpl. do 2 f_equal. f_equal; lia.
Qed.

Lemma extract_again message_id sender_info base_folder_id p : forall s c s1,
  _extract_attachments_from_email message_id p sender_info base_folder_id s
  = (Return c, s1) ->
  failed c = 0%nat ->
  forall s2, drive s1 `prefix_of` drive s2 ->
    _extract_attachments_from_email message_id p sender_info base_folder_id s2
    = (Return (mkCounts 0 (found c) 0 (found c)), s2).
Proof.
  induction p as [parts IH|filename attachmentId] using payload_parts_ind;
    intros s c s1.
  - rewrite !extract_multipart. intros Hrun Hfailed s2 Hpre.
    assert (Hall : Forall (fun part => forall s, exists c s',
                     _extract_attachments_from_email message_id part sender_info
                       base_folder_id s = (Return c, s')
                     /\ stats s' = stats s
                     /\ (exists new, drive s' = (drive s ++ new)%list
                                     /\ files_in new = saved c)
                     /\ found c = excel_attachments part
                     /\ (saved c + skipped c + failed c)%nat = found c) parts)
      by (apply Forall_forall; intros part _; apply extract_run).
    rewrite (each_part_again
               (fun part => _extract_attachments_from_email message_id part sender_info
                              base_folder_id)
               parts Hall IH no_counts s c s1 Hrun Hfailed no_counts s2 Hpre).
    simpl. rewrite Nat.sub_0_r. reflexivity.
  - simpl. destruct attachmentId as [attachment_id|];
      [|unfold ret; intros [= <- <-]; reflexivity].
    destruct (nonempty filename); [|unfold ret; intros [= <- <-]; reflexivity]. simpl.
    destruct (is_excel_name filename); [|unfold ret; intros [= <- <-]; reflexivity]. simpl.
    intros Hrun Hfailed s2 Hpre.
    destruct (save_attachment_run message_id filename attachment_id sender_info
                base_folder_id s) as (c' & s' & Hrun' & _ & _ & Hf & _).
    rewrite Hrun in Hrun'. injection Hrun' as <- <-. rewrite Hf.
    eapply save_attachment_again; eassumption.
Qed.

End NoFolderFault.

(** X17. When no listing and no creation of a folder raises: after a
    pass over a message in which no attachment failed, a pass over the
    same message, in the drive as the first pass left it or in any drive
    that extends it, saves nothing: every Excel attachment is counted as
    skipped and the drive is left as it is. *)
Theorem saved_attachments_are_skipped (message_id : string) (p : payload)
    (sender_info : details) (base_folder_id : string) (s s1 : state) (c : counts) :
  (forall n q, drive_fault (FolderList n q) = None) ->
  (forall n q, drive_fault (FolderCreate n q) = None) ->
  (forall i k, drive_fault (ChildrenList i k) = None) ->
  _extract_attachments_from_email message_id p sender_info base_folder_id s
  = (Return c, s1) ->
  failed c = 0%nat ->
  forall s2, drive s1 `prefix_of` drive s2 ->
    _extract_attachments_from_email message_id p sender_info base_folder_id s2
    = (Return (mkCounts 0 (excel_attachments p) 0 (excel_attachments p)), s2).
Proof.
  intros Hl Hc Hk Hrun Hfailed s2 Hpre.
  destruct (extract_run message_id sender_info base_folder_id p s)
    as (c' & s' & Hrun' & _ & _ & Hf & _).
  rewrite Hrun in Hrun'. injection Hrun' as <- <-. rewrite <- Hf.
  eapply extract_again; eassumption.
Qed.

End Calls.

End AttachmentFacts.


(** ** The Gmail workflow *)

Module GmailWorkflowFacts.
Import PyStr PySeq Filenames Mailbox DriveFolders Attachments GmailWorkflow DriveFacts
       AttachmentFacts.

Section Calls.
Context `{Gmail} `{Clock} `{DriveFaults} `{DriveIds}.

Lemma search_emails_run sender term days maxr s :
  search_emails sender term days maxr s
  = match messages_list (search_query sender term days)
            (if (maxr =? 0)%Z then 1%Z else Z.max maxr 1) with
    | Return messages =>
        (Return messages,
         mkState (drive s)
           (mkMailStats (length messages) (attachments_found (stats s))
              (attachments_saved (stats s)) (attachments_skipped (stats s))
              (attachments_failed (stats s)) (errors (stats s))))
    | Raise e =>
        (Return [],
         mkState (drive s)
           (mkMailStats (emails_checked (stats s)) (attachments_found (stats s))
              (attachments_saved (stats s)) (attachments_skipped (stats s))
              (attachments_failed (stats s))
              (errors (stats s) ++ ["Email search: " +:+ e])))
    end.
Proof. unfold search_emails. mail_unfold. destruct (messages_list _ _); reflexivity. Qed.

(** *** One email *)

Lemma process_email_cases message_id base_folder_id totals s :
  process_email message_id base_folder_id totals s
  = match message_full message_id with
    | Raise e =>
        (Return totals,
         mkState (drive s)
           (mkMailStats (emails_checked (stats s)) (attachments_found (stats s))
              (attachments_saved (stats s)) (attachments_skipped (stats s))
              (attachments_failed (stats s))
              (errors (stats s)
               ++ ["Failed to process email " +:+ message_id +:+ ": " +:+ e])))
    | Return None => (Return totals, s)
    | Return (Some p) =>
        match _extract_attachments_from_email message_id p
                (_get_email_details message_id) base_folder_id s with
        | (Return c, s') => (Return (add_counts totals c), s')
        | (Raise e, s') =>
            (Return totals,
             mkState (drive s')
               (mkMailStats (emails_checked (stats s')) (attachments_found (stats s'))
                  (attachments_saved (stats s')) (attachments_skipped (stats s'))
                  (attachments_failed (stats s'))
                  (errors (stats s')
                   ++ ["Failed to process email " +:+ message_id +:+ ": " +:+ e])))
        end
    end.
Proof.
  unfold process_email. unfold catch, bind at 1, lift.
  destruct (message_full message_id) as [[p|]|e]; try reflexivity.
  unfold bind.
  destruct (_extract_attachments_from_email _ _ _ _ s) as [[c|e] s']; reflexivity.
Qed.

Lemma process_email_run message_id base_folder_id totals s :
  exists t s',
    process_email message_id base_folder_id totals s = (Return t, s')
    /\ (exists new, drive s' = (drive s ++ new)%list
                    /\ (files_in new + saved totals)%nat = saved t)
    /\ (failed totals <= failed t)%nat
    /\ (found totals <= found t)%nat
    /\ (saved t + skipped t + failed t + found totals)%nat
       = (found t + (saved totals + skipped totals + failed totals))%nat.
Proof.
  rewrite process_email_cases.
  destruct (message_full message_id) as [[p|]|e].
  - destruct (extract_run message_id (_get_email_details message_id) base_folder_id p s)
      as (c & s' & -> & _ & (new & Hd & Hn) & _ & Hsum).
    eexists _, _. split; [reflexivity|]. simpl.
    split; [exists new; split; [exact Hd|lia]|]. repeat split; lia.
  - eexists _, _. split; [reflexivity|].
    split; [exists []; rewrite app_nil_r; split; reflexivity|]. repeat split; lia.
  - eexists _, _. split; [reflexivity|]. simpl.
    split; [exists []; rewrite app_nil_r; split; reflexivity|]. repeat split; lia.
Qed.

Lemma email_loop_cons email rest base_folder_id totals s :
  email_loop (email :: rest) base_folder_id totals s
  = match process_email email base_folder_id totals s with
    | (Return totals', s') => email_loop rest base_folder_id totals' s'
    | (Raise e, s') => (Raise e, s')
    end.
Proof. reflexivity. Qed.

Lemma email_loop_run emails base_folder_id : forall totals s,
  exists t s',
    email_loop emails base_folder_id totals s = (Return t, s')
    /\ (exists new, drive s' = (drive s ++ new)%list
                    /\ (files_in new + saved totals)%nat = saved t)
    /\ (failed totals <= failed t)%nat
    /\ (found totals <= found t)%nat
    /\ (saved t + skipped t + failed t + found totals)%nat
       = (found t + (saved totals + skipped totals + failed totals))%nat.
Proof.
  induction emails as [|email rest IH]; intros totals s.
  - eexists _, _. split; [reflexivity|].
    split; [exists []; rewrite app_nil_r; split; reflexivity|]. repeat split; lia.
  - rewrite email_loop_cons.
    destruct (process_email_run email base_folder_id totals s)
      as (t1 & s1 & -> & (new1 & Hd1 & Hn1) & Hf1 & Hfd1 & Hsum1).
    destruct (IH t1 s1) as (t2 & s2 & -> & (new2 & Hd2 & Hn2) & Hf2 & Hfd2 & Hsum2).
    eexists _, _. split; [reflexivity|]. split; [|repeat split; lia].
    exists (new1 ++ new2)%list. rewrite Hd2, Hd1, <- app_assoc. split; [reflexivity|].
    rewrite files_in_app. lia.
Qed.

(** *** The workflow *)

(** What the workflow returns and leaves, case by case. *)
Lemma gmail_workflow_cases config s :
  let reset :=
    mkState (drive s)
      (mkMailStats (emails_checked (stats s)) 0 (attachments_saved (stats s)) 0 0
                   (errors (stats s))) in
  let searched :=
    search_emails (config_sender config) (search_term config) (days_back config)
      (max_results config) reset in
  process_gmail_workflow config s
  = match fst searched with
    | Raise e => (Raise e, snd searched)
    | Return [] => (Return (Workflow.mkReport true 0), snd searched)
    | Return (email :: rest) =>
        match _create_drive_folder "Gmail_Attachments_BigBasket"
                (gdrive_folder_id config) (snd searched) with
        | (Raise e, s1) => (Raise e, s1)
        | (Return base_folder_id, s1) =>
            if negb (nonempty base_folder_id) then (Return (Workflow.mkReport false 0), s1)
            else
              match email_loop (email :: rest) base_folder_id no_counts s1 with
              | (Raise e, s2) => (Raise e, s2)
              | (Return totals, s2) =>
                  (Return (Workflow.mkReport true (saved totals)),
                   mkState (drive s2)
                     (mkMailStats (emails_checked (stats s2)) (found totals) (saved totals)
                        (skipped totals) (failed totals) (errors (stats s2))))
              end
        end
    end.
Proof.
  intros reset searched. unfold process_gmail_workflow.
  assert (Hs : exists messages s0, searched = (Return messages, s0)).
  { unfold searched. rewrite search_emails_run.
    destruct (messages_list _ _); eexists _, _; reflexivity. }
  destruct Hs as (messages & s0 & Hs).
  unfold catch, bind at 1, modify_stats at 1. fold reset.
  unfold bind at 1. fold searched. rewrite Hs. cbn [fst snd].
  destruct messages as [|email rest]; [reflexivity|]. cbn [Sheets.is_nil].
  unfold bind at 1.
  destruct (create_drive_folder_grows "Gmail_Attachments_BigBasket"
              (gdrive_folder_id config) s0) as (base & s1 & -> & _).
  destruct (negb (nonempty base)); [reflexivity|].
  unfold bind at 1.
  destruct (email_loop_run (email :: rest) base no_counts s1) as (t & s2 & -> & _).
  reflexivity.
Qed.

Lemma gmail_workflow_run config s :
  exists r s',
    process_gmail_workflow config s = (Return r, s')
    /\ (exists new, drive s' = (drive s ++ new)%list /\ files_in new = Workflow.processed r)
    /\ ((attachments_found (stats s') = 0%nat
         /\ attachments_skipped (stats s') = 0%nat
         /\ attachments_failed (stats s') = 0%nat
         /\ attachments_saved (stats s') = attachments_saved (stats s)
         /\ Workflow.processed r = 0%nat)
        \/ (Workflow.success r = true
            /\ attachments_saved (stats s') = Workflow.processed r
            /\ attachments_found (stats s')
               = (attachments_saved (stats s') + attachments_skipped (stats s')
                  + attachments_failed (stats s'))%nat)).
Proof.
  rewrite gmail_workflow_cases. cbv zeta. rewrite search_emails_run.
  destruct (messages_list _ _) as [[|email rest]|e]; cbn [fst snd].
  - eexists _, _. split; [reflexivity|].
    split; [exists []; rewrite app_nil_r; split; reflexivity|]. left. repeat split.
  - match goal with
    | |- context [_create_drive_folder ?n ?q ?s0] =>
        destruct (create_drive_folder_grows n q s0)
          as (base & s1 & -> & Hst1 & new1 & Hd1 & Hf1)
    end.
    simpl in Hst1, Hd1.
    destruct (negb (nonempty base)).
    + eexists _, _. split; [reflexivity|].
      split; [exists new1; split; [exact Hd1|apply files_in_folders, Hf1]|].
      left. rewrite Hst1. repeat split.
    + destruct (email_loop_run (email :: rest) base no_counts s1)
        as (t & s2 & -> & (new2 & Hd2 & Hn2) & _ & _ & Hsum).
      eexists _, _. split; [reflexivity|]. simpl in *. split.
      * exists (new1 ++ new2)%list. rewrite Hd2, Hd1, <- app_assoc. split; [reflexivity|].
        rewrite files_in_app, (files_in_folders new1 Hf1). lia.
      * right. repeat split. lia.
  - eexists _, _. split; [reflexivity|].
    split; [exists []; rewrite app_nil_r; split; reflexivity|]. left. repeat split.
Qed.

(** X18. The Gmail workflow returns whatever calls raise.  Started with
    the counter of attachments saved at zero, it ends with every
    attachment found counted once, as saved, skipped or failed; the
    count it returns is the count of attachments saved, and that many
    files were added to the drive, none removed. *)
Theorem gmail_workflow_accounts_for_attachments (config : gmail_config) (s : state) :
  attachments_saved (stats s) = 0%nat ->
  exists r s',
    process_gmail_workflow config s = (Return r, s')
    /\ attachments_found (stats s')
       = (attachments_saved (stats s') + attachments_skipped (stats s')
          + attachments_failed (stats s'))%nat
    /\ Workflow.processed r = attachments_saved (stats s')
    /\ exists new, drive s' = (drive s ++ new)%list /\ files_in new = Workflow.processed r.
Proof.
  intros Hzero.
  destruct (gmail_workflow_run config s) as (r & s' & Hrun & Hnew & Hcases).
  exists r, s'. split; [exact Hrun|].
  destruct Hcases as [(Hf & Hk & Hl & Hs & Hp)|(_ & Hs & Hsum)].
  - repeat split; [lia|lia|exact Hnew].
  - repeat split; [exact Hsum|congruence|exact Hnew].
Qed.

(** X19. Failures that the Gmail workflow keeps to itself.  A search
    that raises is recorded as a message, and the workflow returns with
    success and zero saved, as when no email matches.  When the lookup
    of the base folder raises, the workflow returns without success and
    records no message.  A message whose full form cannot be fetched is
    recorded as a message and changes no count; the loop goes on. *)
Theorem gmail_workflow_failures (config : gmail_config) (s : state) :
  let query :=
    search_query (config_sender config) (search_term config) (days_back config) in
  let asked :=
    if (max_results config =? 0)%Z then 1%Z else Z.max (max_results config) 1 in
  (forall e,
      messages_list query asked = Raise e ->
      process_gmail_workflow config s
      = (Return (Workflow.mkReport true 0),
         mkState (drive s)
           (mkMailStats (emails_checked (stats s)) 0 (attachments_saved (stats s)) 0 0
              (errors (stats s) ++ ["Email search: " +:+ e]))))
  /\ (forall email rest e,
        messages_list query asked = Return (email :: rest) ->
        drive_fault (FolderList "Gmail_Attachments_BigBasket" (gdrive_folder_id config))
        = Some e ->
        process_gmail_workflow config s
        = (Return (Workflow.mkReport false 0),
           mkState (drive s)
             (mkMailStats (S (length rest)) 0 (attachments_saved (stats s)) 0 0
                (errors (stats s)))))
  /\ (forall message_id base_folder_id totals rest e,
        message_full message_id = Raise e ->
        email_loop (message_id :: rest) base_folder_id totals s
        = email_loop rest base_folder_id totals
            (mkState (drive s)
               (mkMailStats (emails_checked (stats s)) (attachments_found (stats s))
                  (attachments_saved (stats s)) (attachments_skipped (stats s))
                  (attachments_failed (stats s))
                  (errors (stats s)
                   ++ ["Failed to process email " +:+ message_id +:+ ": " +:+ e])))).
Proof.
  intros query asked. split; [|split].
  - intros e He. rewrite gmail_workflow_cases. cbv zeta. rewrite search_emails_run.
    fold query asked. rewrite He. reflexivity.
  - intros email rest e He Hf. rewrite gmail_workflow_cases. cbv zeta.
    rewrite search_emails_run. fold query asked. rewrite He. cbn [fst snd].
    rewrite create_drive_folder_cases, Hf. reflexivity.
  - intros message_id base_folder_id totals rest e He.
    rewrite email_loop_cons, process_email_cases, He. reflexivity.
Qed.

(** *** A second run *)

Section NoFolderFault.
Hypothesis folder_list_ok : forall n q, drive_fault (FolderList n q) = None.
Hypothesis folder_create_ok : forall n q, drive_fault (FolderCreate n q) = None.
Hypothesis children_list_ok : forall i k, drive_fault (ChildrenList i k) = None.

Lemma process_email_again message_id base_folder_id totals s t s1 :
  process_email message_id base_folder_id totals s = (Return t, s1) ->
  failed t = failed totals ->
  forall acc2 s2, drive s1 `prefix_of` drive s2 ->
    exists s2',
      process_email message_id base_folder_id acc2 s2
      = (Return (mkCounts (saved acc2) (skipped acc2 + (found t - found totals))
                          (failed acc2) (found acc2 + (found t - found totals))), s2')
      /\ drive s2' = drive s2.
Proof.
  rewrite process_email_cases. intros Hrun Hfailed acc2 s2 Hpre.
  rewrite process_email_cases.
  destruct (message_full message_id) as [[p|]|e].
  - destruct (extract_run message_id (_get_email_details message_id) base_folder_id p s)
      as (c & sA & Hc & _).
    rewrite Hc in Hrun. injection Hrun as <- <-. simpl in Hfailed.
    rewrite (extract_again folder_list_ok folder_create_ok children_list_ok
               message_id (_get_email_details message_id) base_folder_id p s c sA Hc
               ltac:(lia) s2 Hpre).
    eexists. split; [|reflexivity]. unfold add_counts. simpl. do 2 f_equal. f_equal; lia.
  - injection Hrun as <- <-. eexists.
    split; [rewrite Nat.sub_diag, !Nat.add_0_r; destruct acc2; reflexivity|reflexivity].
  - injection Hrun as <- <-. eexists.
    split; [rewrite Nat.sub_diag, !Nat.add_0_r; destruct acc2; reflexivity|reflexivity].
Qed.

Lemma email_loop_again emails base_folder_id : forall totals s t s1,
  email_loop emails base_folder_id totals s = (Return t, s1) ->
  failed t = failed totals ->
  forall acc2 s2, drive s1 `prefix_of` drive s2 ->
    exists s2',
      email_loop emails base_folder_id acc2 s2
      = (Return (mkCounts (saved acc2) (skipped acc2 + (found t - found totals))
                          (failed acc2) (found acc2 + (found t - found totals))), s2')
      /\ drive s2' = drive s2.
Proof.
  induction emails as [|email rest IH]; intros totals s t s1.
  - simpl. unfold ret. intros [= <- <-] _ acc2 s2 _. eexists.
    split; [rewrite Nat.sub_diag, !Nat.add_0_r; destruct acc2; reflexivity|reflexivity].
  - rewrite email_loop_cons.
    destruct (process_email_run email base_folder_id totals s)
      as (t1 & sA & Hstep & _ & Hf1 & Hfd1 & _).
    rewrite Hstep. intros Hloop Hfailed acc2 s2 Hpre.
    destruct (email_loop_run rest base_folder_id t1 sA)
      as (t' & s1' & Hloop' & (newB & HdB & _) & Hf2 & Hfd2 & _).
    rewrite Hloop in Hloop'. injection Hloop' as <- <-.
    destruct (process_email_again email base_folder_id totals s t1 sA Hstep ltac:(lia)
                acc2 s2) as (sB & HstepB & HdriveB).
    { etransitivity; [|exact Hpre]. rewrite HdB. apply prefix_app_r. reflexivity. }
    rewrite email_loop_cons, HstepB.
    destruct (IH t1 sA t s1 Hloop ltac:(lia)
                (mkCounts (saved acc2) (skipped acc2 + (found t1 - found totals))
                          (failed acc2) (found acc2 + (found t1 - found totals))) sB)
      as (sC & HloopB & HdriveC).
    { rewrite HdriveB. exact Hpre. }
    exists sC. split; [|congruence]. rewrite HloopB. simpl. do 2 f_equal. f_equal; lia.
Qed.

End NoFolderFault.

(** X20. When no listing and no creation of a folder raises: after a
    run of the Gmail workflow that counted no attachment as failed, a
    second run saves nothing.  It returns zero, leaves the drive as the
    first run left it, and counts every attachment it finds, as many as
    the first run found, as skipped. *)
Theorem gmail_workflow_second_run (config : gmail_config) (s s1 : state)
    (r1 : Workflow.report) :
  (forall n q, drive_fault (FolderList n q) = None) ->
  (forall n q, drive_fault (FolderCreate n q) = None) ->
  (forall i k, drive_fault (ChildrenList i k) = None) ->
  process_gmail_workflow config s = (Return r1, s1) ->
  attachments_failed (stats s1) = 0%nat ->
  exists r2 s2,
    process_gmail_workflow config s1 = (Return r2, s2)
    /\ drive s2 = drive s1
    /\ Workflow.processed r2 = 0%nat
    /\ Workflow.success r2 = Workflow.success r1
    /\ attachments_found (stats s2) = attachments_found (stats s1)
    /\ attachments_skipped (stats s2) = attachments_found (stats s2)
    /\ attachments_failed (stats s2) = 0%nat.
Proof.
  intros Hl Hc Hk. rewrite !gmail_workflow_cases. cbv zeta. rewrite !search_emails_run.
  destruct (messages_list _ _) as [[|email rest]|e]; cbn [fst snd].
  - intros [= <- <-] _. eexists _, _. split; [reflexivity|]. repeat split.
  - match goal with
    | |- context [_create_drive_folder ?n ?q ?s0] =>
        destruct (create_drive_folder_grows n q s0)
          as (base & sA & Hbase & HstA & newA & HdA & _)
    end.
    rewrite Hbase.
    destruct (negb (nonempty base)) eqn:Eb.
    + intros [= <- <-] _.
      match goal with
      | |- context [_create_drive_folder ?n ?q ?s0] =>
          rewrite (create_drive_folder_stable n q _ base sA (Hl _ _) (Hc _ _) Hbase s0)
            by reflexivity
      end.
      rewrite Eb. eexists _, _. split; [reflexivity|]. simpl. rewrite HstA. repeat split.
    + destruct (email_loop_run (email :: rest) base no_counts sA)
        as (t & sB & Hloop & (newB & HdB & _) & _).
      rewrite Hloop. intros [= <- <-] Hfailed. cbn [stats drive attachments_failed] in *.
      match goal with
      | |- context [_create_drive_folder ?n ?q ?s0] =>
          rewrite (create_drive_folder_stable n q _ base sA (Hl _ _) (Hc _ _) Hbase s0)
            by (simpl; rewrite HdB; apply prefix_app_r; reflexivity)
      end.
      rewrite Eb.
      match goal with
      | |- context [email_loop _ _ _ ?s0] =>
          destruct (email_loop_again Hl Hc Hk (email :: rest) base no_counts sA t sB Hloop
                      Hfailed no_counts s0 ltac:(reflexivity)) as (sC & -> & HdC)
      end.
      eexists _, _. split; [reflexivity|]. simpl. rewrite HdC. simpl.
      repeat split; lia.
  - intros [= <- <-] _. eexists _, _. split; [reflexivity|]. repeat split.
Qed.

End Calls.

End GmailWorkflowFacts.


(** ** Runs of the Gmail workflow on a mailbox with one message *)

Module MailRunFacts.
Import PyStr PySeq Filenames Mailbox DriveFolders Attachments GmailWorkflow DriveFacts
       AttachmentFacts GmailWorkflowFacts MailExamples.

Lemma existing_files_listing_witness :
  @_get_existing_files_in_folder second_page_down "inbox" crowded_drive
  = (Return ∅, crowded_drive).
Proof.
  destruct (@existing_files_listing second_page_down) as (_ & _ & Hdropped & _).
  apply (Hdropped "inbox" crowded_drive 1%nat "quota").
  - vm_compute. lia.
  - reflexivity.
  - intros [|j] Hj; [reflexivity|lia].
Defined.

Lemma create_drive_folder_idempotent_witness :
  exists folder_id s1,
    @_create_drive_folder no_drive_fault example_ids "inbox" "" empty_drive
    = (Return folder_id, s1)
    /\ length (drive s1) = 1%nat
    /\ @_create_drive_folder second_page_down example_ids "inbox" "" s1
       = (Return folder_id, s1).
Proof.
  destruct (create_drive_folder_idempotent no_drive_fault second_page_down
              example_ids example_ids "inbox" "" empty_drive)
    as (folder_id & s1 & Hrun & _ & _ & Hlater).
  destruct Hlater as (folder_id' & Hrun' & Hsame & _); [reflexivity|right; reflexivity|].
  exists folder_id, s1. split; [exact Hrun|]. split.
  - vm_compute in Hrun. injection Hrun as _ <-. reflexivity.
  - rewrite Hrun'. rewrite (Hsame eq_refl). reflexivity.
Defined.

Lemma saved_attachments_are_skipped_witness :
  let first :=
    @_extract_attachments_from_email example_gmail no_drive_fault example_ids
      "m1" delivery sender_details "base" empty_drive in
  fst first = Return (mkCounts 1 0 0 1)
  /\ @_extract_attachments_from_email example_gmail no_drive_fault example_ids
       "m1" delivery sender_details "base" (snd first)
     = (Return (mkCounts 0 1 0 1), snd first).
Proof.
  intros first. split; [vm_compute; reflexivity|].
  apply (@saved_attachments_are_skipped example_gmail no_drive_fault example_ids
           "m1" delivery sender_details "base" empty_drive (snd first) (mkCounts 1 0 0 1)).
  - intros n q. reflexivity.
  - intros n q. reflexivity.
  - intros i k. reflexivity.
  - vm_compute. reflexivity.
  - reflexivity.
  - reflexivity.
Defined.

Lemma gmail_workflow_accounts_for_attachments_witness :
  exists r s',
    @process_gmail_workflow example_gmail example_clock no_drive_fault example_ids
      configured empty_drive = (Return r, s')
    /\ attachments_found (stats s')
       = (attachments_saved (stats s') + attachments_skipped (stats s')
          + attachments_failed (stats s'))%nat
    /\ Workflow.processed r = attachments_saved (stats s')
    /\ exists new, drive s' = (drive empty_drive ++ new)%list
                   /\ files_in new = Workflow.processed r.
Proof.
  apply (@gmail_workflow_accounts_for_attachments example_gmail example_clock
           no_drive_fault example_ids configured empty_drive).
  reflexivity.
Defined.

Lemma gmail_workflow_second_run_witness :
  let first :=
    @process_gmail_workflow example_gmail example_clock no_drive_fault example_ids
      configured empty_drive in
  fst first = Return (Workflow.mkReport true 1)
  /\ exists r2 s2,
       @process_gmail_workflow example_gmail example_clock no_drive_fault example_ids
         configured (snd first) = (Return r2, s2)
       /\ drive s2 = drive (snd first)
       /\ Workflow.processed r2 = 0%nat
       /\ Workflow.success r2 = true
       /\ attachments_found (stats s2) = attachments_found (stats (snd first))
       /\ attachments_skipped (stats s2) = attachments_found (stats s2)
       /\ attachments_failed (stats s2) = 0%nat.
Proof.
  intros first. split; [vm_compute; reflexivity|].
  apply (@gmail_workflow_second_run example_gmail example_clock no_drive_fault example_ids
           configured empty_drive (snd first) (Workflow.mkReport true 1)).
  - intros n q. reflexivity.
  - intros n q. reflexivity.
  - intros i k. reflexivity.
  - vm_compute. reflexivity.
  - vm_compute. reflexivity.
Defined.

End MailRunFacts.
